(** * Approval workflow and allocation engine of the event resource
      management system

    A shallow embedding of [services/approval-engine.ts] and of the
    allocation engine ([AllocationEngine]), followed by the properties
    that the design document states about them.  Further parts embed
    the rest of the approval engine, the role checks of [lib/auth.ts],
    the background jobs ([BackgroundJobService]), the rate limiter of
    [middleware.ts] and the read state of notifications, each with
    properties read off the code.

    Conventions of the embedding.
    - Every database table read or written by the two services is a
      field of [State.t].  Tables that are read by primary key
      ([event], [user]) are finite maps from the id; the others are
      lists in insertion order.
    - Identifiers are strings, timestamps and quantities are integers.
    - Columns filled by the database or the wall clock (generated
      primary keys of inserted rows, [createdAt], [updatedAt],
      [timestamp]) are left out of the rows.  Where code reads one (the
      [createdAt] order of [getPendingApprovals]) or reads the clock
      (the background jobs, the rate limiter), it is a parameter.
    - An [async] function running queries is a computation in [Tx]: it
      takes the store, and returns or throws together with the store it
      leaves behind.  [transaction] is the interactive
      [prisma.$transaction(async tx => ...)]: the writes of the callback
      are kept when the callback returns, whatever value it returns, and
      are dropped when it throws. *)

From stdpp Require Import base decidable option list sorting strings pretty gmap.

Open Scope Z_scope.
Open Scope string_scope.
Open Scope list_scope.

(** ** Enumerations of the data model

    The enumerations come from the generated database client.  Its
    schema is not part of the sources, so each type lists the members
    that the services name. *)

Module ApprovalStage.
Inductive t : Set :=
| DRAFT | SUBMITTED | HOD_APPROVED | DEAN_APPROVED | HEAD_APPROVED
| APPROVED | REJECTED | MODIFICATION_REQUIRED.
#[global] Instance eq_dec : EqDecision t.
Proof. solve_decision. Defined.
Definition show (x : t) : string :=
  match x with
  | DRAFT => "DRAFT" | SUBMITTED => "SUBMITTED"
  | HOD_APPROVED => "HOD_APPROVED" | DEAN_APPROVED => "DEAN_APPROVED"
  | HEAD_APPROVED => "HEAD_APPROVED" | APPROVED => "APPROVED"
  | REJECTED => "REJECTED" | MODIFICATION_REQUIRED => "MODIFICATION_REQUIRED"
  end.
End ApprovalStage.

Module ApprovalAction.
Inductive t : Set := APPROVED | REJECTED | MODIFICATION_REQUIRED | SUBMITTED.
#[global] Instance eq_dec : EqDecision t.
Proof. solve_decision. Defined.
End ApprovalAction.

Module EventStatus.
Inductive t : Set := DRAFT | SUBMITTED | APPROVED | REJECTED | COMPLETED | RUNNING.
#[global] Instance eq_dec : EqDecision t.
Proof. solve_decision. Defined.
End EventStatus.

Module Role.
Inductive t : Set := EVENT_COORDINATOR | HOD | DEAN | INSTITUTIONAL_HEAD | ADMIN_ITC.
#[global] Instance eq_dec : EqDecision t.
Proof. solve_decision. Defined.
End Role.

(** ** Rows of the tables *)

Module User.
Record t : Type := mk {
  id : string;
  firstName : string;
  lastName : string;
  role : Role.t;
  schoolId : option string;
  departmentId : option string;
  isActive : bool
}.
End User.

Module Venue.
Record t : Type := mk {
  id : string;
  name : string;
  type : string;
  capacity : Z;
  isActive : bool;
  maintenanceMode : bool
}.
End Venue.

Module VenueBooking.
Record t : Type := mk {
  venueId : string;
  eventId : string;
  startTime : Z;
  endTime : Z;
  status : string
}.
End VenueBooking.

Module Resource.
Record t : Type := mk {
  id : string;
  name : string;
  totalQuantity : Z
}.
End Resource.

Module ResourceBooking.
Record t : Type := mk {
  resourceId : string;
  eventId : string;
  quantity : Z;
  startTime : Z;
  endTime : Z;
  status : string
}.
End ResourceBooking.

(** A resource request row together with its [resource] relation, as
    [include: { resource: true }] loads it.  The foreign key
    [resourceId] of the row is the id of that resource. *)
Module ResourceRequest.
Record t : Type := mk {
  id : string;
  eventId : string;
  resource : Resource.t;
  quantityNeeded : Z;
  isAllocated : bool;
  allocatedQuantity : option Z
}.
Definition resourceId (r : t) : string := Resource.id (resource r).
Definition set_allocation (a : bool) (q : option Z) (r : t) : t :=
  mk (id r) (eventId r) (resource r) (quantityNeeded r) a q.
End ResourceRequest.

Module Event.
Record t : Type := mk {
  id : string;
  title : string;
  scheduleStart : Z;
  scheduleEnd : Z;
  participantCount : Z;
  venueTypePreference : option string;
  schoolId : string;
  departmentId : string;
  coordinatorId : string;
  status : EventStatus.t;
  approvalStage : ApprovalStage.t;
  rejectionReason : option string
}.
(** The event as the allocation engine loads it, with
    [include: { resourceRequests: { include: { resource: true } } }]. *)
Record loaded : Type := Loaded {
  row : t;
  resourceRequests : list ResourceRequest.t
}.
Definition set_status (x : EventStatus.t) (e : t) : t :=
  mk (id e) (title e) (scheduleStart e) (scheduleEnd e) (participantCount e)
     (venueTypePreference e) (schoolId e) (departmentId e) (coordinatorId e)
     x (approvalStage e) (rejectionReason e).
Definition set_approvalStage (x : ApprovalStage.t) (e : t) : t :=
  mk (id e) (title e) (scheduleStart e) (scheduleEnd e) (participantCount e)
     (venueTypePreference e) (schoolId e) (departmentId e) (coordinatorId e)
     (status e) x (rejectionReason e).
Definition set_rejectionReason (x : option string) (e : t) : t :=
  mk (id e) (title e) (scheduleStart e) (scheduleEnd e) (participantCount e)
     (venueTypePreference e) (schoolId e) (departmentId e) (coordinatorId e)
     (status e) (approvalStage e) x.
End Event.
Coercion Event.row : Event.loaded >-> Event.t.

Module ApprovalStep.
Record t : Type := mk {
  eventId : string;
  approverId : string;
  stage : ApprovalStage.t;
  action : ApprovalAction.t;
  comments : option string
}.
End ApprovalStep.

(** The [data] object attached to a notification: that of the approval
    flow ([eventTitle], [approverName], [stage], [comments]) and that
    of a submission ([eventTitle], [coordinatorName], [department]). *)
Module NotificationData.
Inductive t : Type :=
  | mk (eventTitle approverName : string) (stage : ApprovalStage.t)
       (comments : option string)
  | submission (eventTitle coordinatorName department : string).
End NotificationData.

Module Notification.
Record t : Type := mk {
  userId : string;
  eventId : option string;
  type : string;
  title : string;
  message : string;
  data : NotificationData.t;
  isRead : bool
}.
End Notification.

(** ** The store *)

Module State.
Record t : Type := mk {
  events : gmap string Event.t;
  users : gmap string User.t;
  venues : list Venue.t;
  venueBookings : list VenueBooking.t;
  resourceRequests : list ResourceRequest.t;
  resourceBookings : list ResourceBooking.t;
  approvalSteps : list ApprovalStep.t;
  notifications : list Notification.t
}.
Definition with_events (f : gmap string Event.t → gmap string Event.t) (s : t) : t :=
  mk (f (events s)) (users s) (venues s) (venueBookings s) (resourceRequests s)
     (resourceBookings s) (approvalSteps s) (notifications s).
Definition with_venueBookings (f : list VenueBooking.t → list VenueBooking.t) (s : t) : t :=
  mk (events s) (users s) (venues s) (f (venueBookings s)) (resourceRequests s)
     (resourceBookings s) (approvalSteps s) (notifications s).
Definition with_resourceRequests (f : list ResourceRequest.t → list ResourceRequest.t) (s : t) : t :=
  mk (events s) (users s) (venues s) (venueBookings s) (f (resourceRequests s))
     (resourceBookings s) (approvalSteps s) (notifications s).
Definition with_resourceBookings (f : list ResourceBooking.t → list ResourceBooking.t) (s : t) : t :=
  mk (events s) (users s) (venues s) (venueBookings s) (resourceRequests s)
     (f (resourceBookings s)) (approvalSteps s) (notifications s).
Definition with_approvalSteps (f : list ApprovalStep.t → list ApprovalStep.t) (s : t) : t :=
  mk (events s) (users s) (venues s) (venueBookings s) (resourceRequests s)
     (resourceBookings s) (f (approvalSteps s)) (notifications s).
Definition with_notifications (f : list Notification.t → list Notification.t) (s : t) : t :=
  mk (events s) (users s) (venues s) (venueBookings s) (resourceRequests s)
     (resourceBookings s) (approvalSteps s) (f (notifications s)).
End State.

(** ** Computations over the store *)

Inductive Outcome (A : Type) : Type :=
| Returned (a : A)
| Threw (msg : string).
Arguments Returned {A} a.
Arguments Threw {A} msg.

Definition Tx (A : Type) : Type := State.t → Outcome A * State.t.

Definition ret {A} (a : A) : Tx A := λ s, (Returned a, s).
Definition throw {A} (msg : string) : Tx A := λ s, (Threw msg, s).
Definition bind {A B} (m : Tx A) (k : A → Tx B) : Tx B :=
  λ s, match m s with
       | (Returned a, s') => k a s'
       | (Threw msg, s') => (Threw msg, s')
       end.
Definition gets {A} (f : State.t → A) : Tx A := λ s, (Returned (f s), s).
Definition modify (f : State.t → State.t) : Tx unit := λ s, (Returned tt, f s).

Notation "x <~ m ;; k" := (bind m (λ x, k))
  (at level 100, m at next level, right associativity).
Notation "m ;;; k" := (bind m (λ _, k))
  (at level 100, right associativity).

(** [prisma.$transaction(async tx => body)]: commit when the callback
    returns, roll back when it throws. *)
Definition transaction {A} (body : Tx A) : Tx A :=
  λ s, match body s with
       | (Returned a, s') => (Returned a, s')
       | (Threw msg, _) => (Threw msg, s)
       end.

(** [tx.event.update({ where: { id }, data })]; the client throws when
    no row has that id. *)
Definition event_update (id : string) (f : Event.t → Event.t) : Tx unit :=
  λ s, match State.events s !! id with
       | Some e => (Returned tt, State.with_events (<[id := f e]>) s)
       | None => (Threw "Record to update not found", s)
       end.

(** Strict overlap of a booking [start, end) with the window of an
    event: [{ startTime: { lt: event.scheduleEnd } }, { endTime: { gt:
    event.scheduleStart } }]. *)
Definition overlaps (startTime endTime : Z) (event : Event.t) : Prop :=
  startTime < Event.scheduleEnd event ∧ endTime > Event.scheduleStart event.
#[global] Instance overlaps_dec a b e : Decision (overlaps a b e).
Proof. unfold overlaps. apply _. Defined.

(** [tx.resourceRequest.update({ where: { id }, data })]. *)
Definition resourceRequest_update (id : string)
    (f : ResourceRequest.t → ResourceRequest.t) : Tx unit :=
  λ s, if decide (id ∈ ResourceRequest.id <$> State.resourceRequests s)
       then (Returned tt,
             State.with_resourceRequests
               (fmap (λ r, if decide (ResourceRequest.id r = id) then f r else r)) s)
       else (Threw "Record to update not found", s).

(** [tx.event.findUnique] with the resource requests of the event
    included. *)
Definition event_findUnique_loaded (id : string) : Tx (option Event.loaded) :=
  gets (λ s,
    (λ e, Event.Loaded e
            (filter (λ r, ResourceRequest.eventId r = id) (State.resourceRequests s)))
    <$> State.events s !! id).

(** The double quote character, for the messages that quote a title. *)
Definition dquote : string := String (Ascii.ascii_of_nat 34) EmptyString.

(** A template literal or [+] prints a missing value as [undefined]. *)
Definition show_undefined (o : option string) : string := default "undefined" o.

(** ** The allocation engine *)

Module AllocationEngine.

Inductive ConflictType : Set := venue_unavailable | resource_shortage | time_overlap.
#[global] Instance ConflictType_eq_dec : EqDecision ConflictType.
Proof. solve_decision. Defined.

Record AllocationConflict : Type := mkConflict {
  type : ConflictType;
  conflictingEventIds : list string;
  details : string;
  suggestions : option (list string)
}.

Record ResourceAllocation : Type := mkAllocation {
  resourceId : string;
  allocatedQuantity : Z
}.

Record AllocationResult : Type := mkResult {
  success : bool;
  venueId : option string;
  resourceAllocations : option (list ResourceAllocation);
  conflicts : option (list AllocationConflict);
  explanation : option string
}.

(** Result of [allocateVenue]. *)
Record VenueResult : Type := mkVenueResult {
  v_success : bool;
  v_venueId : option string;
  v_conflicts : option (list AllocationConflict);
  v_explanation : option string
}.

(** Result of [allocateResources]. *)
Record ResourceResult : Type := mkResourceResult {
  r_success : bool;
  r_allocations : option (list ResourceAllocation);
  r_conflicts : option (list AllocationConflict);
  r_explanation : option string
}.

(** Result of the two read-only checks. *)
Record CheckResult : Type := mkCheck {
  c_success : bool;
  c_conflicts : option (list AllocationConflict)
}.

(** [...(event.venueTypePreference && { type: event.venueTypePreference })]:
    a missing or empty preference adds no condition. *)
Definition typeFilter (event : Event.t) (v : Venue.t) : Prop :=
  match Event.venueTypePreference event with
  | Some t => if decide (t = EmptyString) then True else Venue.type v = t
  | None => True
  end.
#[global] Instance typeFilter_dec event v : Decision (typeFilter event v).
Proof. unfold typeFilter. destruct (Event.venueTypePreference event); [case_decide|]; apply _. Defined.

(** The [where] clause of the venue query of [allocateVenue]. *)
Definition allocateVenue_where (event : Event.t) (v : Venue.t) : Prop :=
  Venue.isActive v = true ∧ Venue.maintenanceMode v = false ∧
  Venue.capacity v >= Event.participantCount event ∧ typeFilter event v.
#[global] Instance allocateVenue_where_dec event v : Decision (allocateVenue_where event v).
Proof. unfold allocateVenue_where. apply _. Defined.

(** [orderBy: [{ capacity: 'asc' }, { name: 'asc' }]]; names are
    compared character by character.  The query is the filter of the
    table followed by a sort for this order. *)
Definition venue_le (v1 v2 : Venue.t) : Prop :=
  Venue.capacity v1 < Venue.capacity v2 ∨
  (Venue.capacity v1 = Venue.capacity v2 ∧ String.le (Venue.name v1) (Venue.name v2)).
#[global] Instance venue_le_dec : RelDecision venue_le.
Proof. intros v1 v2. unfold venue_le. apply _. Defined.

Definition candidateVenues (s : State.t) (event : Event.t) : list Venue.t :=
  merge_sort venue_le (filter (allocateVenue_where event) (State.venues s)).

(** The confirmed bookings of a venue that overlap the window of the
    event. *)
Definition conflictingVenueBookings (s : State.t) (venue : Venue.t) (event : Event.t)
    : list VenueBooking.t :=
  filter (λ b, VenueBooking.venueId b = Venue.id venue ∧
               VenueBooking.status b = "confirmed" ∧
               overlaps (VenueBooking.startTime b) (VenueBooking.endTime b) event)
         (State.venueBookings s).

Definition newVenueBooking (venue : Venue.t) (event : Event.t) : VenueBooking.t :=
  VenueBooking.mk (Venue.id venue) (Event.id event)
    (Event.scheduleStart event) (Event.scheduleEnd event) "confirmed".

(** The [for (const venue of candidateVenues)] loop of [allocateVenue];
    [None] when the loop ends without a booking. *)
Fixpoint allocateVenue_loop (event : Event.loaded) (candidates : list Venue.t)
    : Tx (option VenueResult) :=
  match candidates with
  | [] => ret None
  | venue :: rest =>
      conflictingBookings <~ gets (λ s, conflictingVenueBookings s venue event) ;;
      if decide (length conflictingBookings = 0%nat) then
        modify (State.with_venueBookings (λ bs, bs ++ [newVenueBooking venue event])) ;;;
        ret (Some (mkVenueResult true (Some (Venue.id venue)) None
                     (Some ("Allocated venue: " +:+ Venue.name venue))))
      else allocateVenue_loop event rest
  end.

Definition allocateVenue (event : Event.loaded) : Tx VenueResult :=
  candidateVenues <~ gets (λ s, candidateVenues s event) ;;
  if decide (length candidateVenues = 0%nat) then
    ret (mkVenueResult false None
           (Some [mkConflict venue_unavailable [] "No suitable venues available"
                    (Some ["Consider reducing participant count";
                           "Choose different time slot"])])
           (Some ("No venues found with capacity >= "
                    +:+ pretty (Event.participantCount event))))
  else
    booked <~ allocateVenue_loop event candidateVenues ;;
    match booked with
    | Some result => ret result
    | None =>
        allConflicts <~ gets (λ s,
          (λ venue, VenueBooking.eventId <$> conflictingVenueBookings s venue event)
          <$> candidateVenues) ;;
        ret (mkVenueResult false None
               (Some [mkConflict venue_unavailable (concat allConflicts)
                        "Time slot conflicts with existing bookings"
                        (Some ["Choose different time slot";
                               "Consider smaller venue capacity requirement";
                               "Contact conflicting events for rescheduling"])])
               (Some "All suitable venues are booked during requested time"))
    end.

(** The confirmed bookings of a resource that overlap the window of the
    event. *)
Definition overlappingResourceBookings (s : State.t) (resourceId : string)
    (event : Event.t) : list ResourceBooking.t :=
  filter (λ b, ResourceBooking.resourceId b = resourceId ∧
               ResourceBooking.status b = "confirmed" ∧
               overlaps (ResourceBooking.startTime b) (ResourceBooking.endTime b) event)
         (State.resourceBookings s).

(** [overlappingBookings.reduce((sum, booking) => sum + booking.quantity, 0)]. *)
Definition bookedQuantity (bookings : list ResourceBooking.t) : Z :=
  foldl (λ sum booking, sum + ResourceBooking.quantity booking) 0 bookings.

Definition newResourceBooking (request : ResourceRequest.t) (event : Event.t)
    : ResourceBooking.t :=
  ResourceBooking.mk (Resource.id (ResourceRequest.resource request)) (Event.id event)
    (ResourceRequest.quantityNeeded request)
    (Event.scheduleStart event) (Event.scheduleEnd event) "confirmed".

Definition shortageConflict (request : ResourceRequest.t)
    (conflictingBookings : list ResourceBooking.t) (available booked : Z)
    : AllocationConflict :=
  mkConflict resource_shortage
    (ResourceBooking.eventId <$> conflictingBookings)
    (Resource.name (ResourceRequest.resource request) +:+ ": Need "
       +:+ pretty (ResourceRequest.quantityNeeded request) +:+ ", only "
       +:+ pretty available +:+ " available ("
       +:+ pretty booked +:+ " already booked)")
    (Some ["Reduce quantity requirement"; "Choose different time slot";
           "Find alternative resources"]).

(** The [for (const resourceRequest of event.resourceRequests)] loop of
    [allocateResources], with its two accumulators. *)
Fixpoint allocateResources_loop (event : Event.loaded)
    (requests : list ResourceRequest.t)
    (allocations : list ResourceAllocation) (conflicts : list AllocationConflict)
    : Tx (list ResourceAllocation * list AllocationConflict) :=
  match requests with
  | [] => ret (allocations, conflicts)
  | resourceRequest :: rest =>
      let resource := ResourceRequest.resource resourceRequest in
      overlappingBookings <~
        gets (λ s, overlappingResourceBookings s (Resource.id resource) event) ;;
      let bookedQuantity := bookedQuantity overlappingBookings in
      let availableQuantity := Resource.totalQuantity resource - bookedQuantity in
      if decide (availableQuantity >= ResourceRequest.quantityNeeded resourceRequest) then
        modify (State.with_resourceBookings
                  (λ bs, bs ++ [newResourceBooking resourceRequest event])) ;;;
        resourceRequest_update (ResourceRequest.id resourceRequest)
          (ResourceRequest.set_allocation true
             (Some (ResourceRequest.quantityNeeded resourceRequest))) ;;;
        allocateResources_loop event rest
          (allocations ++ [mkAllocation (Resource.id resource)
                             (ResourceRequest.quantityNeeded resourceRequest)])
          conflicts
      else
        conflictingBookings <~
          gets (λ s, overlappingResourceBookings s (Resource.id resource) event) ;;
        allocateResources_loop event rest allocations
          (conflicts ++ [shortageConflict resourceRequest conflictingBookings
                           availableQuantity bookedQuantity])
  end.

Definition allocateResources (event : Event.loaded) : Tx ResourceResult :=
  r <~ allocateResources_loop event (Event.resourceRequests event) [] [] ;;
  let allocations := r.1 in
  let conflicts := r.2 in
  if decide (0 < length conflicts)%nat then
    ret (mkResourceResult false None (Some conflicts)
           (Some ("Failed to allocate " +:+ pretty (length conflicts) +:+ " resources")))
  else
    ret (mkResourceResult true (Some allocations) None
           (Some ("Successfully allocated " +:+ pretty (length allocations)
                    +:+ " resources"))).

(** Main allocation function, called on final approval. *)
Definition allocateEvent (eventId : string) : Tx AllocationResult :=
  transaction (
    found <~ event_findUnique_loaded eventId ;;
    match found with
    | None => throw "Event not found"
    | Some event =>
        if decide (Event.approvalStage event ≠ ApprovalStage.HEAD_APPROVED) then
          throw "Event not ready for allocation"
        else
          venueResult <~ allocateVenue event ;;
          if negb (v_success venueResult) then
            ret (mkResult false None None (v_conflicts venueResult)
                   (Some ("Venue allocation failed: "
                            +:+ show_undefined (v_explanation venueResult))))
          else
            resourceResult <~ allocateResources event ;;
            if negb (r_success resourceResult) then
              ret (mkResult false None None (r_conflicts resourceResult)
                     (Some ("Resource allocation failed: "
                              +:+ show_undefined (r_explanation resourceResult))))
            else
              event_update eventId
                (λ e, Event.set_approvalStage ApprovalStage.APPROVED
                        (Event.set_status EventStatus.APPROVED e)) ;;;
              modify (State.with_approvalSteps
                        (λ l, l ++ [ApprovalStep.mk eventId "system" ApprovalStage.APPROVED
                                      ApprovalAction.APPROVED
                                      (Some "Automatic allocation completed successfully")])) ;;;
              ret (mkResult true (v_venueId venueResult) (r_allocations resourceResult)
                     None (Some "Event successfully allocated"))
    end).

(** [checkVenueAvailability]: the venue query has no [orderBy] and no
    type condition. *)
Definition checkVenue_where (event : Event.t) (v : Venue.t) : Prop :=
  Venue.isActive v = true ∧ Venue.maintenanceMode v = false ∧
  Venue.capacity v >= Event.participantCount event.
#[global] Instance checkVenue_where_dec event v : Decision (checkVenue_where event v).
Proof. unfold checkVenue_where. apply _. Defined.

Fixpoint checkVenueAvailability_loop (event : Event.loaded) (candidates : list Venue.t)
    : Tx bool :=
  match candidates with
  | [] => ret false
  | venue :: rest =>
      conflicts <~ gets (λ s, conflictingVenueBookings s venue event) ;;
      if decide (length conflicts = 0%nat) then ret true
      else checkVenueAvailability_loop event rest
  end.

Definition checkVenueAvailability (event : Event.loaded) : Tx CheckResult :=
  candidateVenues <~ gets (λ s, filter (checkVenue_where event) (State.venues s)) ;;
  if decide (length candidateVenues = 0%nat) then
    ret (mkCheck false
           (Some [mkConflict venue_unavailable [] "No suitable venues available" None]))
  else
    free <~ checkVenueAvailability_loop event candidateVenues ;;
    if free : bool then ret (mkCheck true None)
    else ret (mkCheck false
                (Some [mkConflict venue_unavailable [] "All suitable venues are booked" None])).

Fixpoint checkResourceAvailability_loop (event : Event.loaded)
    (requests : list ResourceRequest.t) (conflicts : list AllocationConflict)
    : Tx (list AllocationConflict) :=
  match requests with
  | [] => ret conflicts
  | resourceRequest :: rest =>
      overlappingBookings <~
        gets (λ s, overlappingResourceBookings s
                     (ResourceRequest.resourceId resourceRequest) event) ;;
      let bookedQuantity := bookedQuantity overlappingBookings in
      let availableQuantity :=
        Resource.totalQuantity (ResourceRequest.resource resourceRequest) - bookedQuantity in
      if decide (availableQuantity < ResourceRequest.quantityNeeded resourceRequest) then
        checkResourceAvailability_loop event rest
          (conflicts ++ [mkConflict resource_shortage
                           (ResourceBooking.eventId <$> overlappingBookings)
                           (Resource.name (ResourceRequest.resource resourceRequest)
                              +:+ ": Need "
                              +:+ pretty (ResourceRequest.quantityNeeded resourceRequest)
                              +:+ ", only " +:+ pretty availableQuantity +:+ " available")
                           None])
      else checkResourceAvailability_loop event rest conflicts
  end.

Definition checkResourceAvailability (event : Event.loaded) : Tx CheckResult :=
  conflicts <~ checkResourceAvailability_loop event (Event.resourceRequests event) [] ;;
  ret (mkCheck (bool_decide (length conflicts = 0%nat))
         (if decide (0 < length conflicts)%nat then Some conflicts else None)).

(** Check allocation feasibility without actually allocating. *)
Definition checkAllocationFeasibility (eventId : string) : Tx AllocationResult :=
  found <~ event_findUnique_loaded eventId ;;
  match found with
  | None => throw "Event not found"
  | Some event =>
      venueCheck <~ checkVenueAvailability event ;;
      resourceCheck <~ checkResourceAvailability event ;;
      ret (mkResult (c_success venueCheck && c_success resourceCheck) None None
             (Some (default [] (c_conflicts venueCheck)
                      ++ default [] (c_conflicts resourceCheck)))
             (Some ("Feasibility check: "
                      +:+ (if c_success venueCheck then "Venue OK" else "Venue issues")
                      +:+ ", "
                      +:+ (if c_success resourceCheck then "Resources OK"
                           else "Resource issues"))))
  end.

End AllocationEngine.

(** ** The notification hook used by the approval engine *)

Module NotificationService.
(** [createNotification(tx, data)]: one row is inserted, unread. *)
Definition createNotification (userId : string) (eventId : option string)
    (type title message : string) (data : NotificationData.t) : Tx unit :=
  modify (State.with_notifications
            (λ l, l ++ [Notification.mk userId eventId type title message data false])).
End NotificationService.

(** ** The approval engine *)

Module ApprovalEngine.

Record ApprovalContext : Type := mkContext {
  approverId : string;
  action : ApprovalAction.t;
  comments : option string;
  eventId : string
}.

Record ApprovalResult : Type := mkResult {
  success : bool;
  nextStage : option ApprovalStage.t;
  error : option string
}.

(** Validate if user can approve at current stage. *)
Definition validateApprovalPermission (approverRole : Role.t)
    (currentStage : ApprovalStage.t)
    (approverSchoolId approverDepartmentId : option string)
    (eventSchoolId eventDepartmentId : string) : bool :=
  match currentStage with
  | ApprovalStage.SUBMITTED =>
      bool_decide (approverRole = Role.HOD) &&
      bool_decide (approverDepartmentId = Some eventDepartmentId)
  | ApprovalStage.HOD_APPROVED =>
      bool_decide (approverRole = Role.DEAN) &&
      bool_decide (approverSchoolId = Some eventSchoolId)
  | ApprovalStage.DEAN_APPROVED =>
      bool_decide (approverRole = Role.INSTITUTIONAL_HEAD)
  | _ => false
  end.

(** Get next stage in approval workflow. *)
Definition getNextApprovalStage (currentStage : ApprovalStage.t) : ApprovalStage.t :=
  match currentStage with
  | ApprovalStage.DRAFT => ApprovalStage.SUBMITTED
  | ApprovalStage.SUBMITTED => ApprovalStage.HOD_APPROVED
  | ApprovalStage.HOD_APPROVED => ApprovalStage.DEAN_APPROVED
  | ApprovalStage.DEAN_APPROVED => ApprovalStage.HEAD_APPROVED
  | ApprovalStage.HEAD_APPROVED => ApprovalStage.APPROVED
  | ApprovalStage.APPROVED => ApprovalStage.APPROVED
  | ApprovalStage.REJECTED => ApprovalStage.REJECTED
  | ApprovalStage.MODIFICATION_REQUIRED => ApprovalStage.SUBMITTED
  end.

(** Get the required approver role for a stage. *)
Definition getRequiredApproverRole (stage : ApprovalStage.t) : option Role.t :=
  match stage with
  | ApprovalStage.SUBMITTED => Some Role.HOD
  | ApprovalStage.HOD_APPROVED => Some Role.DEAN
  | ApprovalStage.DEAN_APPROVED => Some Role.INSTITUTIONAL_HEAD
  | ApprovalStage.HEAD_APPROVED => None
  | ApprovalStage.APPROVED => None
  | ApprovalStage.REJECTED => None
  | ApprovalStage.MODIFICATION_REQUIRED => None
  | ApprovalStage.DRAFT => None
  end.

(** The [tx.user.findMany] of [sendApprovalNotifications]: the active
    users of the next role, within the department for heads of
    department and within the school for deans. *)
Definition nextApprovers (s : State.t) (nextApproverRole : Role.t) (event : Event.t)
    : list User.t :=
  filter (λ u, User.role u = nextApproverRole ∧ User.isActive u = true ∧
               (nextApproverRole = Role.HOD →
                  User.departmentId u = Some (Event.departmentId event)) ∧
               (nextApproverRole = Role.DEAN →
                  User.schoolId u = Some (Event.schoolId event)))
         (map_to_list (State.users s)).*2.

Fixpoint notifyEach (event : Event.t) (base : NotificationData.t) (approvers : list User.t)
    : Tx unit :=
  match approvers with
  | [] => ret tt
  | approver :: rest =>
      NotificationService.createNotification (User.id approver) (Some (Event.id event))
        "EVENT_SUBMITTED" "Event Awaiting Approval"
        ("Event " +:+ dquote +:+ Event.title event +:+ dquote
           +:+ " requires your approval") base ;;;
      notifyEach event base rest
  end.

(** Send notifications based on approval action. *)
Definition sendApprovalNotifications (event : Event.t) (action : ApprovalAction.t)
    (newStage : ApprovalStage.t) (approver : User.t) (comments : option string)
    : Tx unit :=
  let base :=
    NotificationData.mk (Event.title event)
      (User.firstName approver +:+ " " +:+ User.lastName approver) newStage comments in
  match action with
  | ApprovalAction.APPROVED =>
      NotificationService.createNotification (Event.coordinatorId event)
        (Some (Event.id event)) "EVENT_APPROVED" "Event Approved"
        ("Your event " +:+ dquote +:+ Event.title event +:+ dquote
           +:+ " has been approved at " +:+ ApprovalStage.show newStage +:+ " stage")
        base ;;;
      if decide (newStage ≠ ApprovalStage.APPROVED) then
        match getRequiredApproverRole newStage with
        | Some nextApproverRole =>
            nextApprovers <~ gets (λ s, nextApprovers s nextApproverRole event) ;;
            notifyEach event base nextApprovers
        | None => ret tt
        end
      else ret tt
  | ApprovalAction.REJECTED =>
      NotificationService.createNotification (Event.coordinatorId event)
        (Some (Event.id event)) "EVENT_REJECTED" "Event Rejected"
        ("Your event " +:+ dquote +:+ Event.title event +:+ dquote
           +:+ " has been rejected. Reason: " +:+ show_undefined comments)
        base
  | ApprovalAction.MODIFICATION_REQUIRED =>
      NotificationService.createNotification (Event.coordinatorId event)
        (Some (Event.id event)) "EVENT_MODIFICATION_REQUIRED" "Event Modification Required"
        ("Your event " +:+ dquote +:+ Event.title event +:+ dquote
           +:+ " requires modifications. Comments: " +:+ show_undefined comments)
        base
  | _ => ret tt
  end.

(** The locals [nextStage], [eventStatus], [action] and [comments] of
    [processApproval] once its [switch] is left. *)
Record Transition : Type := mkTransition {
  t_nextStage : ApprovalStage.t;
  t_eventStatus : EventStatus.t;
  t_action : ApprovalAction.t;
  t_comments : option string
}.

(** The [switch (action)] of [processApproval]; [None] is the early
    return of its [default] case. *)
Definition processApproval_switch (event : Event.t) (action : ApprovalAction.t)
    (comments : option string) (eventId : string) : Tx (option Transition) :=
  match action with
  | ApprovalAction.APPROVED =>
      let nextStage := getNextApprovalStage (Event.approvalStage event) in
      if decide (nextStage = ApprovalStage.APPROVED) then
        allocationResult <~ AllocationEngine.allocateEvent eventId ;;
        if AllocationEngine.success allocationResult then
          ret (Some (mkTransition nextStage EventStatus.APPROVED action comments))
        else
          ret (Some (mkTransition (Event.approvalStage event) EventStatus.SUBMITTED
                       ApprovalAction.MODIFICATION_REQUIRED
                       (Some ("Allocation failed: "
                                +:+ show_undefined
                                      (AllocationEngine.explanation allocationResult)))))
      else ret (Some (mkTransition nextStage (Event.status event) action comments))
  | ApprovalAction.REJECTED =>
      ret (Some (mkTransition ApprovalStage.REJECTED EventStatus.REJECTED action comments))
  | ApprovalAction.MODIFICATION_REQUIRED =>
      ret (Some (mkTransition ApprovalStage.MODIFICATION_REQUIRED EventStatus.SUBMITTED
                   action comments))
  | _ => ret None
  end.

(** The [data] of the [tx.event.update] of [processApproval].  The
    client leaves a column alone when its value is [undefined], which
    is what [rejectionReason] gets on a rejection without comments. *)
Definition approvalUpdate (t : Transition) (e : Event.t) : Event.t :=
  let e' := Event.set_status (t_eventStatus t)
              (Event.set_approvalStage (t_nextStage t) e) in
  if decide (t_action t = ApprovalAction.REJECTED) then
    match t_comments t with
    | Some c => Event.set_rejectionReason (Some c) e'
    | None => e'
    end
  else Event.set_rejectionReason None e'.

(** [processApproval] from [// Process based on action] to its end:
    the part that runs once the permission check has passed. *)
Definition processApproval_process (event : Event.t) (approver : User.t)
    (ctx : ApprovalContext) : Tx ApprovalResult :=
  decided <~ processApproval_switch event (action ctx) (comments ctx) (eventId ctx) ;;
  match decided with
  | None => ret (mkResult false None (Some "Invalid approval action"))
  | Some t =>
      event_update (eventId ctx) (approvalUpdate t) ;;;
      modify (State.with_approvalSteps
                (λ l, l ++ [ApprovalStep.mk (eventId ctx) (approverId ctx) (t_nextStage t)
                              (t_action t) (t_comments t)])) ;;;
      sendApprovalNotifications event (t_action t) (t_nextStage t) approver (t_comments t) ;;;
      ret (mkResult true (Some (t_nextStage t)) None)
  end.

(** Process an approval action.

    [AllocationEngine.allocateEvent] opens a transaction of its own on
    the shared client, so what it commits does not depend on how the
    callback below ends.  After that call returns, nothing in the
    callback throws (the event row that [event_update] needs is there),
    so letting [transaction] span the whole callback loses nothing. *)
Definition processApproval (ctx : ApprovalContext) : Tx ApprovalResult :=
  transaction (
    found <~ gets (λ s, State.events s !! eventId ctx) ;;
    match found with
    | None => throw "Event not found"
    | Some event =>
        approver <~ gets (λ s, State.users s !! approverId ctx) ;;
        match approver with
        | None => throw "Approver not found"
        | Some approver =>
            let canApprove :=
              validateApprovalPermission (User.role approver) (Event.approvalStage event)
                (User.schoolId approver) (User.departmentId approver)
                (Event.schoolId event) (Event.departmentId event) in
            if negb canApprove then
              ret (mkResult false None
                     (Some "Insufficient permissions to approve this event"))
            else processApproval_process event approver ctx
        end
    end).

End ApprovalEngine.

(** * Specification vocabulary and sample stores *)

(** The structured failure that [processApproval] returns when the
    permission check fails. *)
Definition permissionDenied : ApprovalEngine.ApprovalResult :=
  ApprovalEngine.mkResult false None
    (Some "Insufficient permissions to approve this event").

Module Sample.

Definition event (id : string) (stage : ApprovalStage.t) : Event.t :=
  Event.mk id "Tech fest" 1000 1200 50 None "school-1" "dept-1" "coord-1"
    EventStatus.SUBMITTED stage None.

Definition hod : User.t :=
  User.mk "hod-1" "Asha" "Rao" Role.HOD (Some "school-1") (Some "dept-1") true.
Definition dean : User.t :=
  User.mk "dean-1" "Ravi" "Iyer" Role.DEAN (Some "school-1") None true.
Definition head : User.t :=
  User.mk "head-1" "Meena" "Nair" Role.INSTITUTIONAL_HEAD None None true.

Definition users : gmap string User.t :=
  {[ "hod-1" := hod; "dean-1" := dean; "head-1" := head ]}.

(** A store holding one event and the three approvers, with the given
    venues, requests and bookings. *)
Definition storeOf (e : Event.t) (venues : list Venue.t)
    (requests : list ResourceRequest.t)
    (venueBookings : list VenueBooking.t) (resourceBookings : list ResourceBooking.t)
    : State.t :=
  State.mk {[ Event.id e := e ]} users venues venueBookings requests
    resourceBookings [] [].

Definition store (stage : ApprovalStage.t) : list Venue.t → list ResourceRequest.t →
    list VenueBooking.t → list ResourceBooking.t → State.t :=
  storeOf (event "ev-1" stage).

(** The sample event, cleared for allocation, asking for a venue of
    the given type. *)
Definition eventPreferring (type : string) : Event.t :=
  Event.mk "ev-1" "Tech fest" 1000 1200 50 (Some type) "school-1" "dept-1" "coord-1"
    EventStatus.SUBMITTED ApprovalStage.HEAD_APPROVED None.

(** Two halls; the smaller one comes second in the table and second
    by name. *)
Definition hall60 : Venue.t := Venue.mk "venue-60" "Seminar hall" "HALL" 60 true false.
Definition hall100 : Venue.t := Venue.mk "venue-100" "Auditorium" "HALL" 100 true false.

(** Chairs: twenty in total, fifteen of them booked by another event
    during the window of the sample event, ten requested. *)
Definition chairs : Resource.t := Resource.mk "res-chairs" "Chairs" 20.
Definition mics : Resource.t := Resource.mk "res-mics" "Microphones" 4.
Definition chairsBooked : ResourceBooking.t :=
  ResourceBooking.mk "res-chairs" "ev-0" 15 1100 1300 "confirmed".
Definition wantChairs : ResourceRequest.t :=
  ResourceRequest.mk "req-chairs" "ev-1" chairs 10 false None.
Definition wantMics : ResourceRequest.t :=
  ResourceRequest.mk "req-mics" "ev-1" mics 2 false None.
Definition wantManyMics : ResourceRequest.t :=
  ResourceRequest.mk "req-mics" "ev-1" mics 6 false None.

Definition approve (approverId : string) : ApprovalEngine.ApprovalContext :=
  ApprovalEngine.mkContext approverId ApprovalAction.APPROVED (Some "ok") "ev-1".

End Sample.

(** [preserves R m]: whatever [m] returns or throws, the store it
    leaves is related by [R] to the store it started from. *)
Definition preserves {A} (R : relation State.t) (m : Tx A) : Prop :=
  ∀ s, R s (m s).2.

(** What the allocation helpers never touch: they only insert bookings
    and mark resource requests, keeping the request ids. *)
Definition allocation_frame (s s' : State.t) : Prop :=
  State.events s' = State.events s ∧
  State.users s' = State.users s ∧
  State.venues s' = State.venues s ∧
  State.approvalSteps s' = State.approvalSteps s ∧
  State.notifications s' = State.notifications s ∧
  ResourceRequest.id <$> State.resourceRequests s'
    = ResourceRequest.id <$> State.resourceRequests s.

(** The store in which [allocateResources] examines the request at
    position [k] of [requests]: the one its loop has reached after the
    [k] requests before it. *)
Definition storeBefore (event : Event.loaded) (requests : list ResourceRequest.t)
    (s : State.t) (k : nat) : State.t :=
  (AllocationEngine.allocateResources_loop event (take k requests) [] [] s).2.

(** What is left of the resource of [request] during the window of the
    event, in store [s]. *)
Definition availableIn (event : Event.loaded) (s : State.t) (request : ResourceRequest.t)
    : Z :=
  Resource.totalQuantity (ResourceRequest.resource request)
  - AllocationEngine.bookedQuantity
      (AllocationEngine.overlappingResourceBookings s
         (Resource.id (ResourceRequest.resource request)) event).

(** The request at position [k] cannot be fully satisfied when its turn
    comes. *)
Definition shortAt (event : Event.loaded) (requests : list ResourceRequest.t)
    (s : State.t) (kr : nat * ResourceRequest.t) : Prop :=
  availableIn event (storeBefore event requests s kr.1) kr.2
  < ResourceRequest.quantityNeeded kr.2.
#[global] Instance shortAt_dec event requests s kr : Decision (shortAt event requests s kr).
Proof. unfold shortAt. apply _. Defined.

(** The conflict entry that reports the shortage of the request at
    position [k]. *)
Definition conflictAt (event : Event.loaded) (requests : list ResourceRequest.t)
    (s : State.t) (kr : nat * ResourceRequest.t) : AllocationEngine.AllocationConflict :=
  let before := storeBefore event requests s kr.1 in
  let overlapping :=
    AllocationEngine.overlappingResourceBookings before
      (Resource.id (ResourceRequest.resource kr.2)) event in
  AllocationEngine.mkConflict AllocationEngine.resource_shortage
    (ResourceBooking.eventId <$> overlapping)
    (Resource.name (ResourceRequest.resource kr.2) +:+ ": Need "
       +:+ pretty (ResourceRequest.quantityNeeded kr.2) +:+ ", only "
       +:+ pretty (availableIn event before kr.2) +:+ " available ("
       +:+ pretty (AllocationEngine.bookedQuantity overlapping) +:+ " already booked)")
    (Some ["Reduce quantity requirement"; "Choose different time slot";
           "Find alternative resources"]).

(** The tables that only the allocation engine writes. *)
Definition same_allocations (s s' : State.t) : Prop :=
  State.venueBookings s' = State.venueBookings s ∧
  State.resourceBookings s' = State.resourceBookings s ∧
  State.resourceRequests s' = State.resourceRequests s.

(** The store keeps its table or column [f]. *)
Definition same_on {A} (f : State.t → A) : relation State.t :=
  λ s s', f s' = f s.

(** No confirmed booking of the venue overlaps the window of the
    event. *)
Definition venueFree (s : State.t) (event : Event.t) (v : Venue.t) : Prop :=
  length (AllocationEngine.conflictingVenueBookings s v event) = 0%nat.
#[global] Instance venueFree_dec s event v : Decision (venueFree s event v).
Proof. unfold venueFree. apply _. Defined.

(** What is left of the resource covers the request. *)
Definition coveredIn (event : Event.loaded) (s : State.t) (request : ResourceRequest.t)
    : Prop :=
  availableIn event s request >= ResourceRequest.quantityNeeded request.
#[global] Instance coveredIn_dec event s request : Decision (coveredIn event s request).
Proof. unfold coveredIn. apply _. Defined.

(** * The rest of the approval engine

    [submitEventForApproval] and [getPendingApprovals], the two other
    public methods of the class [ApprovalEngine]. *)

Module Submission.

Record SubmitResult : Type := mkResult {
  success : bool;
  error : option string
}.

(** [tx.user.findMany({ where: { role: Role.HOD, departmentId:
    event.departmentId, isActive: true } })]. *)
Definition hods (s : State.t) (event : Event.t) : list User.t :=
  filter (λ u, User.role u = Role.HOD ∧
               User.departmentId u = Some (Event.departmentId event) ∧
               User.isActive u = true)
         (map_to_list (State.users s)).*2.

(** The [for (const hod of hods)] loop.  [coordinator] is the included
    relation [event.coordinator]; reading a name off a missing one is a
    [TypeError]. *)
Fixpoint notifyHods (event : Event.t) (coordinator : option User.t)
    (departmentName : string) (hods : list User.t) : Tx unit :=
  match hods with
  | [] => ret tt
  | hod :: rest =>
      match coordinator with
      | None => throw "TypeError: Cannot read properties of null"
      | Some c =>
          let coordinatorName := User.firstName c +:+ " " +:+ User.lastName c in
          NotificationService.createNotification (User.id hod) (Some (Event.id event))
            "EVENT_SUBMITTED" "New Event Awaiting Approval"
            ("Event " +:+ dquote +:+ Event.title event +:+ dquote
               +:+ " has been submitted for approval by " +:+ coordinatorName)
            (NotificationData.submission (Event.title event) coordinatorName
               departmentName) ;;;
          notifyHods event coordinator departmentName rest
      end
  end.

(** Submit event for approval (initial submission).  [departmentName]
    is the [name] column of the departments table, which is not part
    of the store, by department id. *)
Definition submitEventForApproval (departmentName : string → string)
    (eventId coordinatorId : string) : Tx SubmitResult :=
  transaction (
    found <~ gets (λ s, State.events s !! eventId) ;;
    match found with
    | None => ret (mkResult false (Some "Event not found"))
    | Some event =>
        if decide (Event.coordinatorId event ≠ coordinatorId) then
          ret (mkResult false (Some "Unauthorized"))
        else if decide (Event.status event ≠ EventStatus.DRAFT) then
          ret (mkResult false (Some "Event is not in draft status"))
        else
          coordinator <~ gets (λ s, State.users s !! Event.coordinatorId event) ;;
          event_update eventId
            (λ e, Event.set_approvalStage ApprovalStage.SUBMITTED
                    (Event.set_status EventStatus.SUBMITTED e)) ;;;
          modify (State.with_approvalSteps
                    (λ l, l ++ [ApprovalStep.mk eventId coordinatorId
                                  ApprovalStage.SUBMITTED ApprovalAction.SUBMITTED
                                  (Some "Event submitted for approval")])) ;;;
          hods <~ gets (λ s, hods s event) ;;
          notifyHods event coordinator (departmentName (Event.departmentId event)) hods ;;;
          ret (mkResult true None)
    end).

(** [orderBy: { createdAt: 'asc' }]. *)
Definition createdBefore (createdAt : string → Z) (e1 e2 : Event.t) : Prop :=
  (createdAt (Event.id e1) ≤ createdAt (Event.id e2))%Z.
#[global] Instance createdBefore_dec createdAt : RelDecision (createdBefore createdAt).
Proof. intros e1 e2. unfold createdBefore. apply _. Defined.

(** The [prisma.event.findMany] of [getPendingApprovals]:
    [orderBy: { createdAt: 'asc' }], each event with its resource
    requests.  [createdAt] is the column of that name, by event id; the
    included coordinator, department and school only add columns to a
    row and are left out; the [select] on the resource of a request
    narrows the columns of that resource, and the request rows are
    kept whole here. *)
Definition pendingQuery (createdAt : string → Z) (P : Event.t → Prop)
    `{!∀ e, Decision (P e)} : Tx (list Event.loaded) :=
  gets (λ s,
    (λ e, Event.Loaded e
            (filter (λ r, ResourceRequest.eventId r = Event.id e)
                    (State.resourceRequests s)))
    <$> merge_sort (createdBefore createdAt)
          (filter P (map_to_list (State.events s)).*2)).

(** Get events pending approval for a user.  A scope column of the
    user that is null matches no event. *)
Definition getPendingApprovals (createdAt : string → Z) (userId : string)
    : Tx (list Event.loaded) :=
  found <~ gets (λ s, State.users s !! userId) ;;
  match found with
  | None => throw "User not found"
  | Some user =>
      match User.role user with
      | Role.HOD =>
          pendingQuery createdAt
            (λ e, Event.status e = EventStatus.SUBMITTED ∧
                  Event.approvalStage e = ApprovalStage.SUBMITTED ∧
                  Some (Event.departmentId e) = User.departmentId user)
      | Role.DEAN =>
          pendingQuery createdAt
            (λ e, Event.status e = EventStatus.SUBMITTED ∧
                  Event.approvalStage e = ApprovalStage.HOD_APPROVED ∧
                  Some (Event.schoolId e) = User.schoolId user)
      | Role.INSTITUTIONAL_HEAD =>
          pendingQuery createdAt
            (λ e, Event.status e = EventStatus.SUBMITTED ∧
                  Event.approvalStage e = ApprovalStage.DEAN_APPROVED)
      | _ => ret []
      end
  end.

End Submission.

(** * Role-based access control utilities ([lib/auth.ts])

    An optional parameter that is left out is [None]; [===] on two
    of them is equality of options. *)
Module RBAC.

Definition canViewEvent (userRole : Role.t)
    (userSchoolId userDepartmentId eventSchoolId eventDepartmentId : option string)
    : bool :=
  match userRole with
  | Role.EVENT_COORDINATOR => bool_decide (userDepartmentId = eventDepartmentId)
  | Role.HOD => bool_decide (userDepartmentId = eventDepartmentId)
  | Role.DEAN => bool_decide (userSchoolId = eventSchoolId)
  | Role.INSTITUTIONAL_HEAD | Role.ADMIN_ITC => true
  end.

(** The stage comes as the string of the enumeration member. *)
Definition canApproveEvent (userRole : Role.t) (approvalStage : string) : bool :=
  match userRole with
  | Role.HOD => bool_decide (approvalStage = "SUBMITTED")
  | Role.DEAN => bool_decide (approvalStage = "HOD_APPROVED")
  | Role.INSTITUTIONAL_HEAD => bool_decide (approvalStage = "DEAN_APPROVED")
  | _ => false
  end.

Definition canManageResources (userRole : Role.t) : bool :=
  bool_decide (userRole ∈ [Role.ADMIN_ITC; Role.INSTITUTIONAL_HEAD]).

Definition canCreateEvent (userRole : Role.t) : bool :=
  bool_decide (userRole = Role.EVENT_COORDINATOR).

End RBAC.

(** * Invariants of the booking tables *)

(** No two confirmed bookings of one venue have strictly overlapping
    windows. *)
Definition noDoubleBooking (bookings : list VenueBooking.t) : Prop :=
  ∀ i j b1 b2,
    i ≠ j → bookings !! i = Some b1 → bookings !! j = Some b2 →
    VenueBooking.venueId b1 = VenueBooking.venueId b2 →
    VenueBooking.status b1 = "confirmed" → VenueBooking.status b2 = "confirmed" →
    ¬ (VenueBooking.startTime b1 < VenueBooking.endTime b2 ∧
       VenueBooking.endTime b1 > VenueBooking.startTime b2).

(** The quantity of a resource held at instant [t] by the confirmed
    bookings whose window [start, end) contains [t]. *)
Definition committedAt (bookings : list ResourceBooking.t) (resourceId : string) (t : Z)
    : Z :=
  foldr Z.add 0
    (ResourceBooking.quantity
     <$> filter (λ b, ResourceBooking.resourceId b = resourceId ∧
                      ResourceBooking.status b = "confirmed" ∧
                      (ResourceBooking.startTime b ≤ t)%Z ∧ t < ResourceBooking.endTime b)
                bookings).

(** No booking is negative, and at no instant do the confirmed
    bookings of a resource exceed its total quantity. *)
Definition withinCapacity (total : string → Z) (bookings : list ResourceBooking.t) : Prop :=
  Forall (λ b, (0 ≤ ResourceBooking.quantity b)%Z) bookings ∧
  ∀ resourceId t, (committedAt bookings resourceId t ≤ total resourceId)%Z.

(** * A sample campus

    A second store, for the parts of the engines that need a
    coordinator, several heads of department and several events. *)
Module Campus.

Definition coordinator : User.t :=
  User.mk "coord-1" "Kiran" "Das" Role.EVENT_COORDINATOR (Some "school-1")
    (Some "dept-1") true.
Definition retiredHod : User.t :=
  User.mk "hod-2" "Vikram" "Sen" Role.HOD (Some "school-1") (Some "dept-1") false.
Definition otherHod : User.t :=
  User.mk "hod-3" "Latha" "Menon" Role.HOD (Some "school-1") (Some "dept-2") true.

Definition users : gmap string User.t :=
  {[ "coord-1" := coordinator; "hod-1" := Sample.hod; "hod-2" := retiredHod;
     "hod-3" := otherHod; "dean-1" := Sample.dean; "head-1" := Sample.head ]}.

Definition draft : Event.t :=
  Event.mk "ev-1" "Tech fest" 1000 1200 50 None "school-1" "dept-1" "coord-1"
    EventStatus.DRAFT ApprovalStage.DRAFT None.

(** Three submitted events: two of department 1, at the first and at
    the second stage of the chain, and one of department 2. *)
Definition quiz : Event.t :=
  Event.mk "ev-2" "Quiz" 2000 2100 30 None "school-1" "dept-1" "coord-1"
    EventStatus.SUBMITTED ApprovalStage.SUBMITTED None.
Definition hackathon : Event.t :=
  Event.mk "ev-3" "Hackathon" 3000 3500 80 None "school-1" "dept-1" "coord-1"
    EventStatus.SUBMITTED ApprovalStage.HOD_APPROVED None.
Definition recital : Event.t :=
  Event.mk "ev-4" "Recital" 4000 4100 40 None "school-1" "dept-2" "coord-1"
    EventStatus.SUBMITTED ApprovalStage.SUBMITTED None.

Definition storeOf (events : gmap string Event.t) : State.t :=
  State.mk events users [] [] [Sample.wantMics] [] [] [].

Definition drafts : State.t := storeOf {[ "ev-1" := draft ]}.
Definition submitted : State.t :=
  storeOf {[ "ev-1" := Sample.event "ev-1" ApprovalStage.SUBMITTED; "ev-2" := quiz;
             "ev-3" := hackathon; "ev-4" := recital ]}.

(** The quiz was created before the tech fest. *)
Definition createdAt (eventId : string) : Z :=
  if decide (eventId = "ev-2") then 10 else 20.

Definition departmentName (departmentId : string) : string :=
  if decide (departmentId = "dept-1") then "Computer Science" else "Music".

(** The totals of the resources table. *)
Definition total (resourceId : string) : Z :=
  if decide (resourceId = "res-chairs") then 20 else 4.

(** The seminar hall is taken by another event during the window of
    the sample event. *)
Definition hall60Taken : VenueBooking.t :=
  VenueBooking.mk "venue-60" "ev-0" 1100 1300 "confirmed".

End Campus.

(** * What the allocation engine may write *)

(** A resource request row up to its allocation mark. *)
Definition sameRequest (r r' : ResourceRequest.t) : Prop :=
  ResourceRequest.id r' = ResourceRequest.id r ∧
  ResourceRequest.eventId r' = ResourceRequest.eventId r ∧
  ResourceRequest.resource r' = ResourceRequest.resource r ∧
  ResourceRequest.quantityNeeded r' = ResourceRequest.quantityNeeded r.

(** [allocation_writes key id s s']: from [s] to [s'] bookings were
    only added, all of them confirmed bookings of the event [id]; no
    event row but the one with key [key] was written; approval steps
    were only added; request rows differ at most in their allocation
    mark; users, venues and notifications are the same. *)
Definition allocation_writes (key id : string) (s s' : State.t) : Prop :=
  State.users s' = State.users s ∧
  State.venues s' = State.venues s ∧
  State.notifications s' = State.notifications s ∧
  (∀ k, k ≠ key → State.events s' !! k = State.events s !! k) ∧
  State.approvalSteps s `prefix_of` State.approvalSteps s' ∧
  (∃ added, State.venueBookings s' = State.venueBookings s ++ added ∧
            Forall (λ b, VenueBooking.eventId b = id ∧
                         VenueBooking.status b = "confirmed") added) ∧
  (∃ added, State.resourceBookings s' = State.resourceBookings s ++ added ∧
            Forall (λ b, ResourceBooking.eventId b = id ∧
                         ResourceBooking.status b = "confirmed") added) ∧
  Forall2 sameRequest (State.resourceRequests s) (State.resourceRequests s').

(** * Background jobs ([BackgroundJobService])

    Conventions.  The job table is a finite map from the job id to the
    other columns of the row.  Every reading of the clock ([new Date()],
    [Date.now()]) is a parameter [now], in milliseconds like the
    timestamps of the store.  The members of the two enumerations are
    the ones that the service names. *)

Module JobType.
Inductive t : Set :=
| AUTO_RESOURCE_RELEASE | CLEANUP_STALE_ALLOCATIONS | REFRESH_OCCUPANCY_SNAPSHOTS
| NOTIFICATION_RETRY | EVENT_REMINDER.
#[global] Instance eq_dec : EqDecision t.
Proof. solve_decision. Defined.
End JobType.

Module JobStatus.
Inductive t : Set := PENDING | PROCESSING | COMPLETED | FAILED | RETRYING.
#[global] Instance eq_dec : EqDecision t.
Proof. solve_decision. Defined.
End JobStatus.

(** The keys of a payload that the service writes or reads. *)
Module JobPayload.
Record t : Type := mk {
  eventId : option string;
  reminderType : option string;
  date : option Z
}.
End JobPayload.

Module BackgroundJob.
Record t : Type := mk {
  type : JobType.t;
  payload : JobPayload.t;
  scheduledFor : Z;
  attempts : Z;
  maxAttempts : Z;
  status : JobStatus.t;
  error : option string;
  completedAt : option Z
}.
Definition set_status (x : JobStatus.t) (j : t) : t :=
  mk (type j) (payload j) (scheduledFor j) (attempts j) (maxAttempts j) x (error j)
     (completedAt j).
Definition set_scheduledFor (x : Z) (j : t) : t :=
  mk (type j) (payload j) x (attempts j) (maxAttempts j) (status j) (error j)
     (completedAt j).
End BackgroundJob.

Module AuditLog.
Record t : Type := mk {
  eventId : option string;
  userId : string;
  action : string;
  entityType : string;
  entityId : string;
  message : string
}.
End AuditLog.

Module BackgroundJobService.

(** The tables that the release job touches: the store of the two
    engines, the [availableQuantity] column of the resource table by
    resource id, and the audit log. *)
Record Store : Type := mkStore {
  base : State.t;
  availableQuantity : gmap string Z;
  auditLog : list AuditLog.t
}.

Definition cancelVenueBooking (eventId : string) (b : VenueBooking.t) : VenueBooking.t :=
  if decide (VenueBooking.eventId b = eventId) then
    VenueBooking.mk (VenueBooking.venueId b) (VenueBooking.eventId b)
      (VenueBooking.startTime b) (VenueBooking.endTime b) "cancelled"
  else b.

Definition cancelResourceBooking (eventId : string) (b : ResourceBooking.t)
    : ResourceBooking.t :=
  if decide (ResourceBooking.eventId b = eventId) then
    ResourceBooking.mk (ResourceBooking.resourceId b) (ResourceBooking.eventId b)
      (ResourceBooking.quantity b) (ResourceBooking.startTime b)
      (ResourceBooking.endTime b) "cancelled"
  else b.

(** The [for (const booking of event.resourceBookings)] loop:
    [tx.resource.update] with [availableQuantity: { increment:
    booking.quantity }]; [None] when a resource row is missing, which
    makes the client throw. *)
Fixpoint restoreQuantities (bookings : list ResourceBooking.t) (available : gmap string Z)
    : option (gmap string Z) :=
  match bookings with
  | [] => Some available
  | booking :: rest =>
      match available !! ResourceBooking.resourceId booking with
      | Some q =>
          restoreQuantities rest
            (<[ResourceBooking.resourceId booking := q + ResourceBooking.quantity booking]>
               available)
      | None => None
      end
  end.

(** Auto release resources after event completion.  [eventId] is the
    key of that name of the payload.  The body is one transaction: the
    early returns write nothing, and a throw rolls everything back. *)
Definition processAutoResourceRelease (now : Z) (eventId : string) (st : Store)
    : Outcome unit * Store :=
  match State.events (base st) !! eventId with
  | None => (Returned tt, st)
  | Some event =>
      if decide (Event.scheduleEnd event > now ∧
                 Event.status event ≠ EventStatus.COMPLETED)
      then (Returned tt, st)
      else
        let resourceBookings :=
          filter (λ b, ResourceBooking.eventId b = eventId)
                 (State.resourceBookings (base st)) in
        match restoreQuantities resourceBookings (availableQuantity st) with
        | None => (Threw "Record to update not found", st)
        | Some available =>
            (Returned tt,
             mkStore
               (State.with_resourceBookings (fmap (cancelResourceBooking eventId))
                  (State.with_venueBookings (fmap (cancelVenueBooking eventId))
                     (base st)))
               available
               (auditLog st ++
                  [AuditLog.mk (Some eventId) "system" "auto_release" "event" eventId
                     "Resources automatically released after event completion"]))
        end
  end.

(** One call of [scheduleJob], by its arguments. *)
Record JobRequest : Type := mkRequest {
  r_type : JobType.t;
  r_payload : JobPayload.t;
  r_scheduledFor : Z;
  r_maxAttempts : Z
}.

(** Schedule automatic jobs for an event: the calls of [scheduleJob]
    that it makes, in order.  [maxAttempts] is left to its default. *)
Definition scheduleEventJobs (now : Z) (eventId : string) (scheduleStart scheduleEnd : Z)
    : list JobRequest :=
  let reminderTime := scheduleStart - 60 * 60 * 1000 in
  let releaseTime := scheduleEnd + 60 * 60 * 1000 in
  (if decide (reminderTime > now) then
     [mkRequest JobType.EVENT_REMINDER
        (JobPayload.mk (Some eventId) (Some "start") None) reminderTime 3]
   else []) ++
  [mkRequest JobType.AUTO_RESOURCE_RELEASE (JobPayload.mk (Some eventId) None None)
     releaseTime 3].

(** [Math.min(1000 * Math.pow(2, job.attempts), 300000)], for a count
    of attempts that is not negative. *)
Definition retryDelay (attempts : Z) : Z := Z.min (1000 * 2 ^ attempts) 300000.

Section processing.

(** The rest of the database, and the [switch (job.type)] of
    [processJob]: the private method of the job type run on the
    payload, or the error for an unknown type. *)
Context {World : Type}.
Variable handle : JobType.t → JobPayload.t → World → Outcome unit * World.

Record JobStore : Type := mkJobStore {
  jobs : gmap string BackgroundJob.t;
  world : World
}.

(** The row after a run that ended well. *)
Definition completed (now : Z) (job : BackgroundJob.t) : BackgroundJob.t :=
  BackgroundJob.mk (BackgroundJob.type job) (BackgroundJob.payload job)
    (BackgroundJob.scheduledFor job) (BackgroundJob.attempts job)
    (BackgroundJob.maxAttempts job) JobStatus.COMPLETED None (Some now).

(** The row after the first update of the [catch] block.  [job] is the
    row as it was read at the start, [row] the row in the table. *)
Definition failed (job : BackgroundJob.t) (errorMessage : string) (row : BackgroundJob.t)
    : BackgroundJob.t :=
  BackgroundJob.mk (BackgroundJob.type row) (BackgroundJob.payload row)
    (BackgroundJob.scheduledFor row) (BackgroundJob.attempts row + 1)
    (BackgroundJob.maxAttempts row)
    (if decide (BackgroundJob.attempts job + 1 >= BackgroundJob.maxAttempts job)
     then JobStatus.FAILED else JobStatus.RETRYING)
    (Some errorMessage) (BackgroundJob.completedAt row).

(** Process a specific job. *)
Definition processJob (now : Z) (jobId : string) (st : JobStore) : JobStore :=
  match jobs st !! jobId with
  | None => st
  | Some job =>
      let processing := BackgroundJob.set_status JobStatus.PROCESSING job in
      match handle (BackgroundJob.type job) (BackgroundJob.payload job) (world st) with
      | (Returned _, w) =>
          mkJobStore (<[jobId := completed now processing]> (jobs st)) w
      | (Threw errorMessage, w) =>
          let row := failed job errorMessage processing in
          let row :=
            if decide (BackgroundJob.attempts job + 1 < BackgroundJob.maxAttempts job)
            then
              BackgroundJob.set_status JobStatus.PENDING
                (BackgroundJob.set_scheduledFor
                   (now + retryDelay (BackgroundJob.attempts job)) row)
            else row in
          mkJobStore (<[jobId := row]> (jobs st)) w
      end
  end.

(** [orderBy: { scheduledFor: 'asc' }]. *)
Definition scheduledBefore (j1 j2 : string * BackgroundJob.t) : Prop :=
  (BackgroundJob.scheduledFor j1.2 ≤ BackgroundJob.scheduledFor j2.2)%Z.
#[global] Instance scheduledBefore_dec : RelDecision scheduledBefore.
Proof. intros j1 j2. unfold scheduledBefore. apply _. Defined.

(** The query of [processPendingJobs]: the pending jobs that are due,
    ten at most, earliest first, each with its id. *)
Definition pendingJobs (now : Z) (st : JobStore) : list (string * BackgroundJob.t) :=
  take 10
    (merge_sort scheduledBefore
       (filter (λ j, BackgroundJob.status j.2 = JobStatus.PENDING ∧
                     (BackgroundJob.scheduledFor j.2 ≤ now)%Z)
               (map_to_list (jobs st)))).

(** Process pending jobs.  [now] is the clock at the query, [clock id]
    the clock while the job [id] is processed. *)
Definition processPendingJobs (now : Z) (clock : string → Z) (st : JobStore) : JobStore :=
  foldl (λ st j, processJob (clock j.1) j.1 st) st (pendingJobs now st).

End processing.

End BackgroundJobService.

(** A job row has used no more attempts than it has, and a pending
    one has an attempt left. *)
Definition jobBounded (job : BackgroundJob.t) : Prop :=
  (0 ≤ BackgroundJob.attempts job)%Z ∧
  (BackgroundJob.attempts job ≤ BackgroundJob.maxAttempts job)%Z ∧
  (BackgroundJob.status job = JobStatus.PENDING →
   BackgroundJob.attempts job < BackgroundJob.maxAttempts job).

(** A sample store for the jobs: the sample event holds the seminar
    hall and two microphones; another event holds the hall later and
    fifteen chairs. *)
Module SampleJobs.

Definition hallHeld : VenueBooking.t :=
  VenueBooking.mk "venue-60" "ev-1" 1000 1200 "confirmed".
Definition hallLater : VenueBooking.t :=
  VenueBooking.mk "venue-60" "ev-0" 1300 1400 "confirmed".
Definition micsHeld : ResourceBooking.t :=
  ResourceBooking.mk "res-mics" "ev-1" 2 1000 1200 "confirmed".

Definition store : BackgroundJobService.Store :=
  BackgroundJobService.mkStore
    (Sample.store ApprovalStage.APPROVED [Sample.hall60] [Sample.wantMics]
       [hallHeld; hallLater] [micsHeld; Sample.chairsBooked])
    {[ "res-mics" := 2; "res-chairs" := 5 ]} [].

(** An event that wants the hall while the sample event holds it. *)
Definition workshop : Event.t :=
  Event.mk "ev-2" "Workshop" 1100 1300 40 None "school-1" "dept-1" "coord-1"
    EventStatus.SUBMITTED ApprovalStage.HEAD_APPROVED None.

Definition releaseJob : BackgroundJob.t :=
  BackgroundJob.mk JobType.AUTO_RESOURCE_RELEASE (JobPayload.mk (Some "ev-1") None None)
    4800 0 3 JobStatus.PENDING None None.
Definition cleanupJob : BackgroundJob.t :=
  BackgroundJob.mk JobType.CLEANUP_STALE_ALLOCATIONS (JobPayload.mk None None None)
    4000 2 3 JobStatus.PENDING None None.
Definition reminderJob : BackgroundJob.t :=
  BackgroundJob.mk JobType.EVENT_REMINDER (JobPayload.mk (Some "ev-2") (Some "start") None)
    9000 0 3 JobStatus.PENDING None None.

Definition jobs : gmap string BackgroundJob.t :=
  {[ "job-1" := releaseJob; "job-2" := cleanupJob; "job-3" := reminderJob ]}.

(** A handler table for the sample: the release job as modelled, read
    at time 5000, and a failure for every other type. *)
Definition handle (type : JobType.t) (payload : JobPayload.t)
    (st : BackgroundJobService.Store) : Outcome unit * BackgroundJobService.Store :=
  match type, JobPayload.eventId payload with
  | JobType.AUTO_RESOURCE_RELEASE, Some eventId =>
      BackgroundJobService.processAutoResourceRelease 5000 eventId st
  | _, _ => (Threw "Database unavailable", st)
  end.

Definition jobStore : BackgroundJobService.JobStore :=
  BackgroundJobService.mkJobStore jobs store.

End SampleJobs.

(** * Rate limiting ([middleware.ts])

    The rate limiting block at the head of [middleware], over the
    module-level [rateLimitMap]. *)
Module RateLimit.

Record Entry : Type := mkEntry {
  count : Z;
  resetTime : Z
}.

Definition windowMs : Z := 15 * 60 * 1000.
Definition maxRequests : Z := 100.

(** [request.ip || 'anonymous']. *)
Definition clientIP (ip : option string) : string :=
  match ip with
  | Some s => if decide (s = EmptyString) then "anonymous" else s
  | None => "anonymous"
  end.

(** One request at time [now]: [false] is the 429 response, [true]
    lets the request go on; beside it the map as the request leaves
    it. *)
Definition limit (now : Z) (ip : option string) (rateLimitMap : gmap string Entry)
    : bool * gmap string Entry :=
  let clientIP := clientIP ip in
  match rateLimitMap !! clientIP with
  | Some clientData =>
      if decide (now > resetTime clientData) then
        (true, <[clientIP := mkEntry 1 (now + windowMs)]> rateLimitMap)
      else
        let count := count clientData + 1 in
        (negb (bool_decide (count > maxRequests)),
         <[clientIP := mkEntry count (resetTime clientData)]> rateLimitMap)
  | None => (true, <[clientIP := mkEntry 1 (now + windowMs)]> rateLimitMap)
  end.

(** A run of requests, each with its time and address, in order of
    arrival; the answers in the same order. *)
Fixpoint serve (requests : list (Z * option string)) (rateLimitMap : gmap string Entry)
    : list bool :=
  match requests with
  | [] => []
  | (now, ip) :: rest =>
      let answer := limit now ip rateLimitMap in
      answer.1 :: serve rest answer.2
  end.

(** The requests of one client that were let through. *)
Definition letThrough (client : string) (requests : list (Z * option string))
    (answers : list bool) : list ((Z * option string) * bool) :=
  filter (λ p, clientIP p.1.2 = client ∧ p.2 = true) (zip requests answers).

Definition requestsOf (client : string) (requests : list (Z * option string))
    : list (Z * option string) :=
  filter (λ r, clientIP r.2 = client) requests.

End RateLimit.

(** * Reading notifications ([NotificationService])

    [markAllAsRead] and [getUnreadCount]; both are single statements
    on the notification table. *)
Module Inbox.

Definition unreadOf (userId : string) (n : Notification.t) : Prop :=
  Notification.userId n = userId ∧ Notification.isRead n = false.
#[global] Instance unreadOf_dec userId n : Decision (unreadOf userId n).
Proof. unfold unreadOf. apply _. Defined.

Definition set_isRead (n : Notification.t) : Notification.t :=
  Notification.mk (Notification.userId n) (Notification.eventId n) (Notification.type n)
    (Notification.title n) (Notification.message n) (Notification.data n) true.

(** Mark all notifications as read for a user; the result is the
    [count] of the [updateMany]. *)
Definition markAllAsRead (userId : string) : Tx nat :=
  matched <~ gets (λ s, filter (unreadOf userId) (State.notifications s)) ;;
  modify (State.with_notifications
            (fmap (λ n, if decide (unreadOf userId n) then set_isRead n else n))) ;;;
  ret (length matched).

(** Get unread notification count. *)
Definition getUnreadCount (userId : string) : Tx nat :=
  gets (λ s, length (filter (unreadOf userId) (State.notifications s))).

End Inbox.

(** * Properties *)

(** ** Reasoning about computations over the store *)

Section preserves.
Context (R : relation State.t) `{!Reflexive R, !Transitive R}.

Lemma preserves_ret {A} (a : A) : preserves R (ret a).
Proof. intros s. reflexivity. Qed.

Lemma preserves_throw {A} (msg : string) : preserves R (@throw A msg).
Proof. intros s. reflexivity. Qed.

Lemma preserves_gets {A} (f : State.t → A) : preserves R (gets f).
Proof. intros s. reflexivity. Qed.

Lemma preserves_modify (f : State.t → State.t) :
  (∀ s, R s (f s)) → preserves R (modify f).
Proof. intros Hf s. apply Hf. Qed.

Lemma preserves_bind {A B} (m : Tx A) (k : A → Tx B) :
  preserves R m → (∀ a, preserves R (k a)) → preserves R (bind m k).
Proof.
  intros Hm Hk s. unfold bind. specialize (Hm s).
  destruct (m s) as [[a | msg] s1]; simpl in *; [| exact Hm].
  etransitivity; [exact Hm | apply Hk].
Qed.

Lemma preserves_transaction {A} (m : Tx A) :
  preserves R m → preserves R (transaction m).
Proof.
  intros Hm s. unfold transaction. specialize (Hm s).
  destruct (m s) as [[a | msg] s1]; simpl in *; [exact Hm | reflexivity].
Qed.
End preserves.

#[global] Instance allocation_frame_refl : Reflexive allocation_frame.
Proof. intros s. repeat split. Qed.

#[global] Instance allocation_frame_trans : Transitive allocation_frame.
Proof.
  intros s1 s2 s3 (H1 & H2 & H3 & H4 & H5 & H6) (K1 & K2 & K3 & K4 & K5 & K6).
  repeat split; congruence.
Qed.

(** ** The allocation engine *)

Import AllocationEngine.

Lemma event_update_spec (id : string) (f : Event.t → Event.t) (s : State.t) (e : Event.t) :
  State.events s !! id = Some e →
  event_update id f s = (Returned tt, State.with_events (<[id := f e]>) s).
Proof. intros He. unfold event_update. by rewrite He. Qed.

Lemma resourceRequest_update_frame (id : string) f :
  (∀ r, ResourceRequest.id (f r) = ResourceRequest.id r) →
  preserves allocation_frame (resourceRequest_update id f).
Proof.
  intros Hf s. unfold resourceRequest_update. case_decide; simpl; [| reflexivity].
  repeat split. simpl. rewrite <- list_fmap_compose. apply list_fmap_ext.
  intros i r _. simpl. case_decide; [apply Hf | reflexivity].
Qed.

Lemma allocateVenue_loop_frame (event : Event.loaded) (candidates : list Venue.t) :
  preserves allocation_frame (allocateVenue_loop event candidates).
Proof.
  induction candidates as [| venue rest IH]; simpl.
  - apply preserves_ret; apply _.
  - apply preserves_bind; [apply _ | apply preserves_gets; apply _ |].
    intros bs. case_decide; [| exact IH].
    apply preserves_bind; [apply _ | | intros; apply preserves_ret; apply _].
    apply preserves_modify. intros s. repeat split.
Qed.

Lemma allocateVenue_frame (event : Event.loaded) :
  preserves allocation_frame (allocateVenue event).
Proof.
  unfold allocateVenue.
  apply preserves_bind; [apply _ | apply preserves_gets; apply _ |]. intros cands.
  case_decide; [apply preserves_ret; apply _ |].
  apply preserves_bind; [apply _ | apply allocateVenue_loop_frame |].
  intros [r |]; [apply preserves_ret; apply _ |].
  apply preserves_bind; [apply _ | apply preserves_gets; apply _ |].
  intros. apply preserves_ret; apply _.
Qed.

Lemma allocateResources_loop_frame (event : Event.loaded) requests allocations conflicts :
  preserves allocation_frame (allocateResources_loop event requests allocations conflicts).
Proof.
  revert allocations conflicts.
  induction requests as [| request rest IH]; intros allocations conflicts; simpl.
  - apply preserves_ret; apply _.
  - apply preserves_bind; [apply _ | apply preserves_gets; apply _ |].
    intros bs. case_decide.
    + apply preserves_bind; [apply _ | |].
      { apply preserves_modify. intros s. repeat split. }
      intros _. apply preserves_bind; [apply _ | apply resourceRequest_update_frame; done |].
      intros _. apply IH.
    + apply preserves_bind; [apply _ | apply preserves_gets; apply _ |].
      intros. apply IH.
Qed.

Lemma allocateResources_frame (event : Event.loaded) :
  preserves allocation_frame (allocateResources event).
Proof.
  unfold allocateResources.
  apply preserves_bind; [apply _ | apply allocateResources_loop_frame |].
  intros r. case_decide; apply preserves_ret; apply _.
Qed.

(** *** Venue selection *)

#[global] Instance venue_le_total : Total venue_le.
Proof.
  intros v1 v2. unfold venue_le.
  destruct (Z.lt_trichotomy (Venue.capacity v1) (Venue.capacity v2)) as [H | [H | H]];
    [by left; left | | by right; left].
  destruct (total String.le (Venue.name v1) (Venue.name v2)); [left | right]; right; done.
Qed.

#[global] Instance venue_le_trans : Transitive venue_le.
Proof.
  intros v1 v2 v3 [H12 | [E12 H12]] [H23 | [E23 H23]]; unfold venue_le.
  - left. lia.
  - left. lia.
  - left. lia.
  - right. split; [lia | by etransitivity].
Qed.

Lemma candidateVenues_elem_of (s : State.t) (event : Event.t) (v : Venue.t) :
  v ∈ candidateVenues s event ↔ allocateVenue_where event v ∧ v ∈ State.venues s.
Proof.
  unfold candidateVenues. rewrite merge_sort_Permutation. apply list_elem_of_filter.
Qed.

Lemma typeFilter_spec (event : Event.t) (v : Venue.t) :
  typeFilter event v ↔
  ∀ t, Event.venueTypePreference event = Some t → t ≠ EmptyString → Venue.type v = t.
Proof.
  unfold typeFilter. destruct (Event.venueTypePreference event) as [t |].
  - case_decide as Ht.
    + split; [| done]. intros _ t' [= <-] Hne. contradiction.
    + split; [by intros Hv t' [= <-] _ | intros H; by apply H].
  - split; [intros _ t' [=] | done].
Qed.

Lemma conflictingVenueBookings_nil (s : State.t) (v : Venue.t) (event : Event.t) :
  conflictingVenueBookings s v event = [] ↔
  ∀ b, b ∈ State.venueBookings s → VenueBooking.venueId b = Venue.id v →
       VenueBooking.status b = "confirmed" →
       ¬ overlaps (VenueBooking.startTime b) (VenueBooking.endTime b) event.
Proof.
  unfold conflictingVenueBookings. split.
  - intros Hnil b Hb Hv Hst Hov.
    eapply (filter_nil_not_elem_of _ _ b); [exact Hnil | | exact Hb]. done.
  - intros Hfree. apply elem_of_nil_inv. intros b [(Hv & Hst & Hov) Hb]%list_elem_of_filter.
    by eapply Hfree.
Qed.

Lemma conflictingVenueBookings_cons (s : State.t) (v : Venue.t) (event : Event.t) :
  (∃ b, b ∈ State.venueBookings s ∧ VenueBooking.venueId b = Venue.id v ∧
        VenueBooking.status b = "confirmed" ∧
        overlaps (VenueBooking.startTime b) (VenueBooking.endTime b) event) →
  conflictingVenueBookings s v event ≠ [].
Proof.
  intros (b & Hb & Hv & Hst & Hov) Hnil.
  pose proof (proj1 (conflictingVenueBookings_nil s v event) Hnil) as Hfree.
  by eapply Hfree.
Qed.

Lemma allocateVenue_loop_first_free (event : Event.loaded) (pre post : list Venue.t)
    (v : Venue.t) (s : State.t) :
  (∀ u, u ∈ pre → conflictingVenueBookings s u event ≠ []) →
  conflictingVenueBookings s v event = [] →
  allocateVenue_loop event (pre ++ v :: post) s =
    (Returned (Some (mkVenueResult true (Some (Venue.id v)) None
                       (Some ("Allocated venue: " +:+ Venue.name v)))),
     State.with_venueBookings (λ bs, bs ++ [newVenueBooking v event]) s).
Proof.
  intros Hpre Hv. induction pre as [| u pre IH]; simpl; unfold bind, gets.
  - rewrite Hv. reflexivity.
  - destruct (conflictingVenueBookings s u event) as [| b bs] eqn:Hu.
    + exfalso. eapply Hpre; [left | exact Hu].
    + simpl. apply IH. intros u' Hu'. apply Hpre. by right.
Qed.

Lemma allocateVenue_loop_all_taken (event : Event.loaded) (candidates : list Venue.t)
    (s : State.t) :
  (∀ u, u ∈ candidates → conflictingVenueBookings s u event ≠ []) →
  allocateVenue_loop event candidates s = (Returned None, s).
Proof.
  intros Hall. induction candidates as [| u rest IH]; simpl; [reflexivity |].
  unfold bind, gets.
  destruct (conflictingVenueBookings s u event) as [| b bs] eqn:Hu.
  - exfalso. eapply Hall; [left | exact Hu].
  - simpl. apply IH. intros u' Hu'. apply Hall. by right.
Qed.

Lemma allocateVenue_first_free (event : Event.loaded) (pre post : list Venue.t)
    (v : Venue.t) (s : State.t) :
  candidateVenues s event = pre ++ v :: post →
  (∀ u, u ∈ pre → conflictingVenueBookings s u event ≠ []) →
  conflictingVenueBookings s v event = [] →
  allocateVenue event s =
    (Returned (mkVenueResult true (Some (Venue.id v)) None
                 (Some ("Allocated venue: " +:+ Venue.name v))),
     State.with_venueBookings (λ bs, bs ++ [newVenueBooking v event]) s).
Proof.
  intros Hc Hpre Hv. unfold allocateVenue, bind at 1, gets at 1. rewrite Hc.
  case_decide as Hlen.
  { rewrite length_app in Hlen. simpl in Hlen. lia. }
  unfold bind. by rewrite (allocateVenue_loop_first_free event pre post v s Hpre Hv).
Qed.

(** Two candidates of different capacities come out smaller first. *)
Lemma candidateVenues_pair (s : State.t) (event : Event.t) (v1 v2 : Venue.t) :
  State.venues s ≡ₚ [v1; v2] →
  allocateVenue_where event v1 → allocateVenue_where event v2 →
  Venue.capacity v1 < Venue.capacity v2 →
  candidateVenues s event = [v1; v2].
Proof.
  intros Hperm H1 H2 Hlt.
  assert (Hc : candidateVenues s event ≡ₚ [v1; v2]).
  { unfold candidateVenues. rewrite merge_sort_Permutation, Hperm.
    by rewrite filter_cons_True, filter_cons_True. }
  assert (Hs : Sorted venue_le (candidateVenues s event)).
  { apply Sorted_merge_sort. apply _. }
  symmetry in Hc. apply Permutation_length_2_inv in Hc as [-> | Hc]; [done |].
  rewrite Hc in Hs. inversion Hs as [| ? ? _ Hhd]; subst.
  inversion Hhd as [| ? ? Hle]; subst.
  destruct Hle as [Hle | [Hle _]]; lia.
Qed.

(** C4. Venue selection.  The candidates are exactly the active venues
    that are not under maintenance, hold at least the participant count
    and, when the event states a (non-empty) type preference, have that
    type; they are walked by capacity ascending, then name ascending;
    the first candidate without a confirmed booking that strictly
    overlaps the window of the event gets a confirmed booking for that
    window, and the walk stops there.  In particular, with exactly two
    active venues of capacity 60 and 100, a participant count of 50, no
    type preference and no conflicting booking on the smaller venue, the
    capacity-60 venue is booked. *)
Theorem allocateVenue_first_fit (s : State.t) (event : Event.loaded) :
  (∀ v, v ∈ candidateVenues s event ↔
        v ∈ State.venues s ∧ Venue.isActive v = true ∧ Venue.maintenanceMode v = false ∧
        Venue.capacity v >= Event.participantCount event ∧
        (∀ t, Event.venueTypePreference event = Some t → t ≠ EmptyString →
              Venue.type v = t)) ∧
  StronglySorted
    (λ v1 v2, Venue.capacity v1 < Venue.capacity v2 ∨
              (Venue.capacity v1 = Venue.capacity v2 ∧
               String.le (Venue.name v1) (Venue.name v2)))
    (candidateVenues s event) ∧
  (∀ pre v post,
     candidateVenues s event = pre ++ v :: post →
     (∀ u, u ∈ pre →
        ∃ b, b ∈ State.venueBookings s ∧ VenueBooking.venueId b = Venue.id u ∧
             VenueBooking.status b = "confirmed" ∧
             VenueBooking.startTime b < Event.scheduleEnd event ∧
             VenueBooking.endTime b > Event.scheduleStart event) →
     (∀ b, b ∈ State.venueBookings s → VenueBooking.venueId b = Venue.id v →
           VenueBooking.status b = "confirmed" →
           ¬ (VenueBooking.startTime b < Event.scheduleEnd event ∧
              VenueBooking.endTime b > Event.scheduleStart event)) →
     allocateVenue event s =
       (Returned (mkVenueResult true (Some (Venue.id v)) None
                    (Some ("Allocated venue: " +:+ Venue.name v))),
        State.with_venueBookings
          (λ bs, bs ++ [VenueBooking.mk (Venue.id v) (Event.id event)
                          (Event.scheduleStart event) (Event.scheduleEnd event)
                          "confirmed"]) s)) ∧
  (∀ v60 v100,
     State.venues s ≡ₚ [v60; v100] →
     Venue.capacity v60 = 60 → Venue.capacity v100 = 100 →
     Venue.isActive v60 = true → Venue.isActive v100 = true →
     Venue.maintenanceMode v60 = false → Venue.maintenanceMode v100 = false →
     Event.participantCount event = 50 →
     Event.venueTypePreference event = None →
     (∀ b, b ∈ State.venueBookings s → VenueBooking.venueId b = Venue.id v60 →
           VenueBooking.status b = "confirmed" →
           ¬ (VenueBooking.startTime b < Event.scheduleEnd event ∧
              VenueBooking.endTime b > Event.scheduleStart event)) →
     allocateVenue event s =
       (Returned (mkVenueResult true (Some (Venue.id v60)) None
                    (Some ("Allocated venue: " +:+ Venue.name v60))),
        State.with_venueBookings
          (λ bs, bs ++ [VenueBooking.mk (Venue.id v60) (Event.id event)
                          (Event.scheduleStart event) (Event.scheduleEnd event)
                          "confirmed"]) s)).
Proof.
  split; [| split; [| split]].
  - intros v. rewrite candidateVenues_elem_of. unfold allocateVenue_where.
    rewrite typeFilter_spec. tauto.
  - apply (StronglySorted_merge_sort venue_le).
  - intros pre v post Hc Hpre Hv.
    apply (allocateVenue_first_free event pre post v s Hc).
    + intros u Hu. apply conflictingVenueBookings_cons. apply Hpre, Hu.
    + apply conflictingVenueBookings_nil. exact Hv.
  - intros v60 v100 Hperm H60 H100 Ha60 Ha100 Hm60 Hm100 Hn Hpref Hfree.
    apply (allocateVenue_first_free event [] [v100] v60 s).
    + apply candidateVenues_pair; [exact Hperm | | | lia];
        unfold allocateVenue_where, typeFilter; rewrite Hpref, Hn; repeat split; (done || lia).
    + intros u Hu. by apply elem_of_nil in Hu.
    + apply conflictingVenueBookings_nil. exact Hfree.
Qed.

Lemma allocateVenue_first_fit_witness :
  let s := Sample.store ApprovalStage.HEAD_APPROVED [Sample.hall100; Sample.hall60]
             [] [] [] in
  let event := Event.Loaded (Sample.event "ev-1" ApprovalStage.HEAD_APPROVED) [] in
  State.venues s ≡ₚ [Sample.hall60; Sample.hall100] ∧
  Venue.capacity Sample.hall60 = 60 ∧ Venue.capacity Sample.hall100 = 100 ∧
  Event.participantCount event = 50 ∧
  allocateVenue event s =
    (Returned (mkVenueResult true (Some "venue-60") None
                 (Some "Allocated venue: Seminar hall")),
     Sample.store ApprovalStage.HEAD_APPROVED [Sample.hall100; Sample.hall60] []
       [VenueBooking.mk "venue-60" "ev-1" 1000 1200 "confirmed"] []).
Proof.
  intros s event.
  assert (Hperm : State.venues s ≡ₚ [Sample.hall60; Sample.hall100]).
  { simpl. apply perm_swap. }
  split; [exact Hperm |]. split; [reflexivity |]. split; [reflexivity |].
  split; [reflexivity |].
  apply (proj2 (proj2 (proj2 (allocateVenue_first_fit s event)))
           Sample.hall60 Sample.hall100 Hperm);
    try reflexivity.
  intros b Hb. simpl in Hb. by apply elem_of_nil in Hb.
Defined.

(** *** Resource allocation *)

Lemma bookedQuantity_sum (bookings : list ResourceBooking.t) :
  bookedQuantity bookings = foldr Z.add 0 (ResourceBooking.quantity <$> bookings).
Proof.
  unfold bookedQuantity.
  assert (H : ∀ acc, foldl (λ sum booking, sum + ResourceBooking.quantity booking)
                       acc bookings
                     = acc + foldr Z.add 0 (ResourceBooking.quantity <$> bookings)).
  { induction bookings as [| b bs IH]; intros acc; csimpl; [lia |]. rewrite IH. lia. }
  rewrite H. lia.
Qed.

Lemma allocateResources_loop_enough (event : Event.loaded) (request : ResourceRequest.t)
    (rest : list ResourceRequest.t) allocations conflicts (s : State.t) :
  Resource.totalQuantity (ResourceRequest.resource request)
    - bookedQuantity (overlappingResourceBookings s
                        (Resource.id (ResourceRequest.resource request)) event)
    >= ResourceRequest.quantityNeeded request →
  ResourceRequest.id request ∈ ResourceRequest.id <$> State.resourceRequests s →
  allocateResources_loop event (request :: rest) allocations conflicts s =
  allocateResources_loop event rest
    (allocations ++ [mkAllocation (Resource.id (ResourceRequest.resource request))
                       (ResourceRequest.quantityNeeded request)])
    conflicts
    (State.with_resourceRequests
       (fmap (λ r, if decide (ResourceRequest.id r = ResourceRequest.id request)
                   then ResourceRequest.set_allocation true
                          (Some (ResourceRequest.quantityNeeded request)) r
                   else r))
       (State.with_resourceBookings (λ bs, bs ++ [newResourceBooking request event]) s)).
Proof.
  intros Hge Hid. cbn [allocateResources_loop]. unfold bind at 1, gets at 1.
  case_decide; [| contradiction].
  unfold bind at 1, modify at 1. unfold bind at 1, resourceRequest_update at 1.
  simpl. case_decide; [reflexivity | contradiction].
Qed.

Lemma allocateResources_loop_short (event : Event.loaded) (request : ResourceRequest.t)
    (rest : list ResourceRequest.t) allocations conflicts (s : State.t) :
  Resource.totalQuantity (ResourceRequest.resource request)
    - bookedQuantity (overlappingResourceBookings s
                        (Resource.id (ResourceRequest.resource request)) event)
    < ResourceRequest.quantityNeeded request →
  allocateResources_loop event (request :: rest) allocations conflicts s =
  allocateResources_loop event rest allocations
    (conflicts ++
       [shortageConflict request
          (overlappingResourceBookings s
             (Resource.id (ResourceRequest.resource request)) event)
          (Resource.totalQuantity (ResourceRequest.resource request)
             - bookedQuantity (overlappingResourceBookings s
                                 (Resource.id (ResourceRequest.resource request)) event))
          (bookedQuantity (overlappingResourceBookings s
                             (Resource.id (ResourceRequest.resource request)) event))])
    s.
Proof.
  intros Hlt. cbn [allocateResources_loop]. unfold bind at 1, gets at 1.
  case_decide; [lia |]. reflexivity.
Qed.

Lemma allocateResources_loop_app (event : Event.loaded) (l1 l2 : list ResourceRequest.t)
    allocations conflicts (s : State.t) :
  allocateResources_loop event (l1 ++ l2) allocations conflicts s =
  match allocateResources_loop event l1 allocations conflicts s with
  | (Returned r, s') => allocateResources_loop event l2 r.1 r.2 s'
  | (Threw msg, s') => (Threw msg, s')
  end.
Proof.
  revert allocations conflicts s.
  induction l1 as [| r l1 IH]; intros allocations conflicts s; [reflexivity |].
  rewrite <- app_comm_cons. cbn [allocateResources_loop].
  unfold bind, gets, modify. case_decide; [| apply IH].
  destruct (resourceRequest_update _ _ _) as [[[] | msg] s1]; [apply IH | reflexivity].
Qed.

Lemma filter_ext_elem_of {A} (P Q : A → Prop) `{!∀ x, Decision (P x), !∀ x, Decision (Q x)}
    (l : list A) :
  (∀ x, x ∈ l → P x ↔ Q x) → filter P l = filter Q l.
Proof.
  induction l as [| x l IH]; intros Hext; [reflexivity |].
  rewrite !filter_cons. rewrite IH by (intros y Hy; apply Hext; by right).
  destruct (decide (P x)) as [HP | HP], (decide (Q x)) as [HQ | HQ]; try reflexivity.
  - exfalso. apply HQ, Hext; [left | done].
  - exfalso. apply HP, Hext; [left | done].
Qed.

Lemma storeBefore_app (event : Event.loaded) (l1 l2 : list ResourceRequest.t)
    (s : State.t) (k : nat) :
  (k ≤ length l1)%nat → storeBefore event (l1 ++ l2) s k = storeBefore event l1 s k.
Proof. intros Hk. unfold storeBefore. by rewrite take_app_le. Qed.

Lemma storeBefore_length (event : Event.loaded) (l1 l2 : list ResourceRequest.t) (s : State.t) :
  storeBefore event (l1 ++ l2) s (length l1)
  = (allocateResources_loop event l1 [] [] s).2.
Proof. unfold storeBefore. by rewrite take_app_length. Qed.

(** Every request is examined: the loop returns, and its conflict list
    has one entry for each request that is short when its turn comes,
    in the order of the requests. *)
Lemma allocateResources_loop_conflicts (event : Event.loaded)
    (requests : list ResourceRequest.t) (s : State.t) :
  (∀ r, r ∈ requests → ResourceRequest.id r ∈ ResourceRequest.id <$> State.resourceRequests s) →
  ∃ allocations s',
    allocateResources_loop event requests [] [] s =
      (Returned (allocations,
                 conflictAt event requests s
                 <$> filter (shortAt event requests s) (imap pair requests)), s').
Proof.
  induction requests as [| r l IH] using rev_ind; intros Hids.
  { eexists _, _. reflexivity. }
  destruct IH as (allocations & s1 & Hl).
  { intros r' Hr'. apply Hids, elem_of_app. by left. }
  assert (Hs1 : (allocateResources_loop event l [] [] s).2 = s1) by by rewrite Hl.
  assert (Hframe : allocation_frame s s1).
  { rewrite <- Hs1. apply allocateResources_loop_frame. }
  rewrite allocateResources_loop_app, Hl. cbn [fst snd].
  rewrite imap_app, filter_app, fmap_app. cbn [imap].
  rewrite (filter_ext_elem_of (shortAt event (l ++ [r]) s) (shortAt event l s)
             (imap pair l)); cycle 1.
  { intros [k x] (i & y & [= -> ->] & Hi)%elem_of_lookup_imap. unfold shortAt. cbn [fst snd].
    rewrite storeBefore_app; [done |]. apply lookup_lt_Some in Hi. lia. }
  rewrite (list_fmap_ext (conflictAt event (l ++ [r]) s) (conflictAt event l s)
             (filter (shortAt event l s) (imap pair l))); cycle 1.
  { intros j [k x] Hj. apply list_elem_of_lookup_2 in Hj.
    apply list_elem_of_filter in Hj as [_ (i & y & [= -> ->] & Hi)%elem_of_lookup_imap].
    unfold conflictAt. cbn [fst snd].
    rewrite storeBefore_app; [done |]. apply lookup_lt_Some in Hi. lia. }
  rewrite filter_cons, filter_nil, Nat.add_0_r.
  destruct (decide (shortAt event (l ++ [r]) s (length l, r))) as [Hshort | Hshort];
    unfold shortAt in Hshort; cbn [fst snd] in Hshort;
    rewrite storeBefore_length, Hs1 in Hshort; unfold availableIn in Hshort.
  - rewrite allocateResources_loop_short by exact Hshort.
    rewrite list_fmap_singleton. unfold conflictAt at 3. cbn [fst snd].
    rewrite storeBefore_length, Hs1.
    eexists _, _. reflexivity.
  - rewrite allocateResources_loop_enough.
    + rewrite fmap_nil, app_nil_r. eexists _, _. reflexivity.
    + lia.
    + destruct Hframe as (_ & _ & _ & _ & _ & ->). apply Hids, elem_of_app. right. by left.
Qed.

(** What the loop returns and leaves does not depend on what its two
    accumulators hold at the start: the lists it returns extend
    them. *)
Lemma allocateResources_loop_acc (event : Event.loaded) (requests : list ResourceRequest.t)
    allocations conflicts (s : State.t) :
  allocateResources_loop event requests allocations conflicts s =
  match allocateResources_loop event requests [] [] s with
  | (Returned r, s') => (Returned (allocations ++ r.1, conflicts ++ r.2), s')
  | (Threw msg, s') => (Threw msg, s')
  end.
Proof.
  revert allocations conflicts s.
  induction requests as [| r l IH]; intros allocations conflicts s.
  { cbn. unfold ret. by rewrite !app_nil_r. }
  cbn [allocateResources_loop]. unfold bind, gets, modify. case_decide.
  - destruct (resourceRequest_update _ _ _) as [[[] | msg] s1]; [| reflexivity].
    rewrite (IH (allocations ++ _) conflicts s1), (IH ([] ++ _) [] s1).
    destruct (allocateResources_loop event l [] [] s1) as [[[a c] | msg] s2];
      [| reflexivity].
    cbn [fst snd]. by rewrite <- !app_assoc.
  - rewrite (IH allocations (conflicts ++ _) s), (IH [] ([] ++ _) s).
    destruct (allocateResources_loop event l [] [] s) as [[[a c] | msg] s2];
      [| reflexivity].
    cbn [fst snd]. by rewrite <- !app_assoc.
Qed.

(** The turn of the request at position [k]: what it does to the store
    in which it is examined. *)
Lemma storeBefore_turn (event : Event.loaded) (requests : list ResourceRequest.t)
    (s : State.t) (k : nat) (request : ResourceRequest.t) :
  (∀ r, r ∈ requests → ResourceRequest.id r ∈ ResourceRequest.id <$> State.resourceRequests s) →
  requests !! k = Some request →
  let before := storeBefore event requests s k in
  (availableIn event before request >= ResourceRequest.quantityNeeded request →
   storeBefore event requests s (S k) =
     State.with_resourceRequests
       (fmap (λ r, if decide (ResourceRequest.id r = ResourceRequest.id request)
                   then ResourceRequest.set_allocation true
                          (Some (ResourceRequest.quantityNeeded request)) r
                   else r))
       (State.with_resourceBookings
          (λ bs, bs ++ [newResourceBooking request event]) before)) ∧
  (availableIn event before request < ResourceRequest.quantityNeeded request →
   storeBefore event requests s (S k) = before).
Proof.
  intros Hids Hk before. unfold before, storeBefore.
  rewrite (take_S_r _ _ _ Hk), allocateResources_loop_app.
  destruct (allocateResources_loop_conflicts event (take k requests) s)
    as (a & s1 & H1).
  { intros r Hr. apply Hids. by apply (subseteq_take k requests). }
  rewrite H1. cbn [fst snd].
  assert (Hframe : allocation_frame s s1).
  { pose proof (allocateResources_loop_frame event (take k requests) [] [] s) as H.
    by rewrite H1 in H. }
  unfold availableIn. split.
  - intros Hcov. rewrite allocateResources_loop_enough; [reflexivity | exact Hcov |].
    destruct Hframe as (_ & _ & _ & _ & _ & ->).
    apply Hids. by apply list_elem_of_lookup_2 in Hk.
  - intros Hshort. rewrite allocateResources_loop_short by exact Hshort. reflexivity.
Qed.

(** A property of the store that every turn from position [k] on keeps
    holds of the store the loop leaves. *)
Lemma storeBefore_invariant (I : State.t → Prop) (event : Event.loaded)
    (requests : list ResourceRequest.t) (s : State.t) (k : nat) :
  (∀ r, r ∈ requests → ResourceRequest.id r ∈ ResourceRequest.id <$> State.resourceRequests s) →
  (k ≤ length requests)%nat →
  I (storeBefore event requests s k) →
  (∀ r before,
     r ∈ requests → I before →
     I (State.with_resourceRequests
          (fmap (λ row, if decide (ResourceRequest.id row = ResourceRequest.id r)
                        then ResourceRequest.set_allocation true
                               (Some (ResourceRequest.quantityNeeded r)) row
                        else row))
          (State.with_resourceBookings (λ bs, bs ++ [newResourceBooking r event]) before))) →
  I (storeBefore event requests s (length requests)).
Proof.
  intros Hids Hk Hbase Hstep.
  assert (H : ∀ d, (k + d ≤ length requests)%nat → I (storeBefore event requests s (k + d))).
  { induction d as [| d IH]; intros Hd; [by rewrite Nat.add_0_r |].
    rewrite Nat.add_succ_r.
    destruct (lookup_lt_is_Some_2 requests (k + d)) as [r Hr]; [lia |].
    destruct (storeBefore_turn event requests s (k + d) r Hids Hr) as [Hcov Hshort].
    destruct (Z_lt_ge_dec (availableIn event (storeBefore event requests s (k + d)) r)
                (ResourceRequest.quantityNeeded r)) as [Hlt | Hge].
    - rewrite Hshort by exact Hlt. apply IH. lia.
    - rewrite Hcov by exact Hge.
      apply Hstep; [by apply list_elem_of_lookup_2 in Hr | apply IH; lia]. }
  replace (length requests) with (k + (length requests - k))%nat by lia.
  apply H. lia.
Qed.

(** What the loop returns for the request at position [k]. *)
Lemma allocateResources_loop_records (event : Event.loaded)
    (requests : list ResourceRequest.t) (s : State.t) (k : nat)
    (request : ResourceRequest.t) allocations conflicts (s' : State.t) :
  (∀ r, r ∈ requests → ResourceRequest.id r ∈ ResourceRequest.id <$> State.resourceRequests s) →
  requests !! k = Some request →
  allocateResources_loop event requests [] [] s = (Returned (allocations, conflicts), s') →
  let before := storeBefore event requests s k in
  let overlapping :=
    overlappingResourceBookings before (Resource.id (ResourceRequest.resource request))
      event in
  (availableIn event before request >= ResourceRequest.quantityNeeded request →
   mkAllocation (Resource.id (ResourceRequest.resource request))
     (ResourceRequest.quantityNeeded request) ∈ allocations) ∧
  (availableIn event before request < ResourceRequest.quantityNeeded request →
   shortageConflict request overlapping (availableIn event before request)
     (bookedQuantity overlapping) ∈ conflicts).
Proof.
  intros Hids Hk Hrun before overlapping.
  rewrite <- (take_drop_middle requests k request Hk) in Hrun.
  rewrite allocateResources_loop_app in Hrun.
  destruct (allocateResources_loop_conflicts event (take k requests) s)
    as (a & s1 & H1).
  { intros r Hr. apply Hids. by apply (subseteq_take k requests). }
  assert (Hbefore : before = s1) by (unfold before, storeBefore; by rewrite H1).
  rewrite H1 in Hrun. cbn [fst snd] in Hrun.
  unfold overlapping, availableIn. rewrite Hbefore. split; [intros Hcov | intros Hshort].
  - rewrite allocateResources_loop_enough in Hrun; [| exact Hcov |].
    + rewrite allocateResources_loop_acc in Hrun.
      destruct (allocateResources_loop event (drop (S k) requests) [] [] _)
        as [[[a' c'] | msg] s2]; [| discriminate Hrun].
      injection Hrun as <- _ _. rewrite !elem_of_app, list_elem_of_singleton. auto.
    + assert (Hframe : allocation_frame s s1).
      { pose proof (allocateResources_loop_frame event (take k requests) [] [] s) as H.
        by rewrite H1 in H. }
      destruct Hframe as (_ & _ & _ & _ & _ & ->).
      apply Hids. by apply list_elem_of_lookup_2 in Hk.
  - rewrite allocateResources_loop_short in Hrun by exact Hshort.
    rewrite allocateResources_loop_acc in Hrun.
    destruct (allocateResources_loop event (drop (S k) requests) [] [] _)
      as [[[a' c'] | msg] s2]; [| discriminate Hrun].
    injection Hrun as _ <- _. rewrite !elem_of_app, list_elem_of_singleton. auto.
Qed.

(** C5. What [allocateResources] does with each resource request of the
    event it allocates.  For an event whose requests are rows of the
    store, it returns, and the store goes through one turn per request,
    from the store of the call ([before 0]) to the store it leaves.  At
    its turn, the available quantity of a request is the total quantity
    of its resource minus the sum of the quantities of the confirmed
    bookings of that resource that strictly overlap the window of the
    event.  When it covers the request, the turn inserts a confirmed
    booking for exactly the requested quantity and marks the request
    row allocated with that quantity, and changes nothing else; the
    booking is in the store that [allocateResources] leaves, the rows
    of the request are allocated there (with the quantity of a request
    of that id), and a successful result lists the allocation.
    Otherwise the turn leaves the store as it is, the result is a
    failure, and its conflicts hold a resource_shortage entry with the
    requested, available and booked numbers and the event ids of the
    overlapping bookings.  With 20 in total, 15 booked and 10 requested
    the entry reads: Need 10, only 5 available (15 already booked). *)
Theorem allocateResources_request (event : Event.loaded) (s : State.t) :
  (∀ r, r ∈ Event.resourceRequests event →
        ResourceRequest.id r ∈ ResourceRequest.id <$> State.resourceRequests s) →
  let requests := Event.resourceRequests event in
  let suggestions :=
    Some ["Reduce quantity requirement"; "Choose different time slot";
          "Find alternative resources"] in
  ∃ (result : ResourceResult) (s' : State.t) (before : nat → State.t),
    allocateResources event s = (Returned result, s') ∧
    before 0%nat = s ∧
    before (length requests) = s' ∧
    ∀ (k : nat) (request : ResourceRequest.t),
      requests !! k = Some request →
      let resource := ResourceRequest.resource request in
      let needed := ResourceRequest.quantityNeeded request in
      let overlapping :=
        filter (λ b, ResourceBooking.resourceId b = Resource.id resource ∧
                     ResourceBooking.status b = "confirmed" ∧
                     ResourceBooking.startTime b < Event.scheduleEnd event ∧
                     ResourceBooking.endTime b > Event.scheduleStart event)
               (State.resourceBookings (before k)) in
      let booked := foldr Z.add 0 (ResourceBooking.quantity <$> overlapping) in
      let available := Resource.totalQuantity resource - booked in
      let booking :=
        ResourceBooking.mk (Resource.id resource) (Event.id event) needed
          (Event.scheduleStart event) (Event.scheduleEnd event) "confirmed" in
      (available >= needed →
       before (S k) =
         State.with_resourceRequests
           (fmap (λ r, if decide (ResourceRequest.id r = ResourceRequest.id request)
                       then ResourceRequest.mk (ResourceRequest.id r)
                              (ResourceRequest.eventId r) (ResourceRequest.resource r)
                              (ResourceRequest.quantityNeeded r) true (Some needed)
                       else r))
           (State.with_resourceBookings (λ bs, bs ++ [booking]) (before k)) ∧
       booking ∈ State.resourceBookings s' ∧
       (∀ row, row ∈ State.resourceRequests s' →
               ResourceRequest.id row = ResourceRequest.id request →
               ResourceRequest.isAllocated row = true ∧
               ∃ r, r ∈ requests ∧ ResourceRequest.id r = ResourceRequest.id request ∧
                    ResourceRequest.allocatedQuantity row
                      = Some (ResourceRequest.quantityNeeded r)) ∧
       (r_success result = true →
        ∃ allocations,
          r_allocations result = Some allocations ∧
          mkAllocation (Resource.id resource) needed ∈ allocations)) ∧
      (available < needed →
       before (S k) = before k ∧
       r_success result = false ∧
       ∃ conflicts,
         r_conflicts result = Some conflicts ∧
         mkConflict resource_shortage (ResourceBooking.eventId <$> overlapping)
           (Resource.name resource +:+ ": Need " +:+ pretty needed +:+ ", only "
              +:+ pretty available +:+ " available (" +:+ pretty booked
              +:+ " already booked)")
           suggestions ∈ conflicts ∧
         (Resource.totalQuantity resource = 20 → booked = 15 → needed = 10 →
          mkConflict resource_shortage (ResourceBooking.eventId <$> overlapping)
            (Resource.name resource +:+ ": Need 10, only 5 available (15 already booked)")
            suggestions ∈ conflicts)).
Proof.
  intros Hids requests suggestions.
  destruct (allocateResources_loop_conflicts event requests s Hids)
    as (allocations & s' & Hloop).
  set (conflicts := conflictAt event requests s
                    <$> filter (shortAt event requests s) (imap pair requests)) in Hloop.
  assert (Hlast : storeBefore event requests s (length requests) = s').
  { unfold storeBefore. by rewrite firstn_all, Hloop. }
  assert (∃ result,
            allocateResources event s = (Returned result, s') ∧
            (r_success result = true → r_allocations result = Some allocations) ∧
            ((0 < length conflicts)%nat →
             r_success result = false ∧ r_conflicts result = Some conflicts))
    as (result & Hrun & Hyes & Hno).
  { unfold allocateResources, bind. fold requests. rewrite Hloop. cbn [fst snd].
    case_decide; (eexists; split; [reflexivity |]); cbn; split; done. }
  exists result, s', (storeBefore event requests s).
  split; [exact Hrun |]. split; [reflexivity |]. split; [exact Hlast |].
  intros k request Hk resource needed overlapping booked available booking.
  assert (Hover : overlappingResourceBookings (storeBefore event requests s k)
                    (Resource.id resource) event = overlapping) by reflexivity.
  assert (Hbooked : bookedQuantity overlapping = booked) by apply bookedQuantity_sum.
  assert (Havail : availableIn event (storeBefore event requests s k) request = available).
  { unfold availableIn. fold resource. by rewrite Hover, Hbooked. }
  pose proof (storeBefore_turn event requests s k request Hids Hk) as [Hturn Hstay].
  pose proof (allocateResources_loop_records event requests s k request allocations
                conflicts s' Hids Hk Hloop) as [Hrec Hrec'].
  fold resource in Hrec, Hrec'. rewrite Hover, Havail in Hrec'. rewrite Havail in Hrec.
  rewrite Havail in Hturn, Hstay. fold needed in Hturn, Hstay, Hrec, Hrec'.
  assert (Hlt : (k < length requests)%nat) by (by apply lookup_lt_Some in Hk).
  split.
  - intros Hge. specialize (Hturn Hge). specialize (Hrec Hge).
    split; [exact Hturn |]. rewrite <- Hlast. split; [| split].
    + apply (storeBefore_invariant (λ st, booking ∈ State.resourceBookings st)
               event requests s (S k) Hids); [lia | |].
      * rewrite Hturn. cbn. apply elem_of_app. right. by left.
      * intros r st _ Hin. cbn. apply elem_of_app. by left.
    + apply (storeBefore_invariant
               (λ st, ∀ row, row ∈ State.resourceRequests st →
                        ResourceRequest.id row = ResourceRequest.id request →
                        ResourceRequest.isAllocated row = true ∧
                        ∃ r, r ∈ requests ∧
                             ResourceRequest.id r = ResourceRequest.id request ∧
                             ResourceRequest.allocatedQuantity row
                               = Some (ResourceRequest.quantityNeeded r))
               event requests s (S k) Hids); [lia | |].
      * rewrite Hturn. cbn [State.resourceRequests State.with_resourceRequests
          State.with_resourceBookings].
        intros row (row0 & -> & Hrow0)%list_elem_of_fmap. case_decide as Hid.
        -- intros _. split; [reflexivity |]. exists request.
           split; [by apply list_elem_of_lookup_2 in Hk | done].
        -- intros Hid'. contradiction.
      * intros r st Hr IH. cbn [State.resourceRequests State.with_resourceRequests
          State.with_resourceBookings].
        intros row (row0 & -> & Hrow0)%list_elem_of_fmap. case_decide as Hid.
        -- cbn. intros Heq. split; [reflexivity |]. exists r.
           split; [exact Hr |]. split; [congruence | reflexivity].
        -- intros Heq. by apply IH.
    + intros Hsuccess. exists allocations. split; [exact (Hyes Hsuccess) | exact Hrec].
  - intros Hless. specialize (Hrec' Hless). clear Hrec. rename Hrec' into Hrec.
    split; [exact (Hstay Hless) |].
    assert (Hne : (0 < length conflicts)%nat).
    { destruct conflicts; [by apply elem_of_nil in Hrec | cbn; lia]. }
    destruct (Hno Hne) as [Hfail Hconflicts].
    split; [exact Hfail |]. exists conflicts. split; [exact Hconflicts |]. split.
    + rewrite Hbooked in Hrec. exact Hrec.
    + intros Htotal Hb Hn. rewrite Hbooked in Hrec. unfold shortageConflict in Hrec.
      fold resource needed in Hrec. unfold available in Hrec.
      rewrite Htotal, Hb, Hn in Hrec. exact Hrec.
Qed.

Lemma allocateResources_request_witness :
  let s := Sample.store ApprovalStage.HEAD_APPROVED [Sample.hall60]
             [Sample.wantMics; Sample.wantChairs] [] [Sample.chairsBooked] in
  let event := Event.Loaded (Sample.event "ev-1" ApprovalStage.HEAD_APPROVED)
                 [Sample.wantMics; Sample.wantChairs] in
  let micsBooking := ResourceBooking.mk "res-mics" "ev-1" 2 1000 1200 "confirmed" in
  ∃ (result : ResourceResult) (s' : State.t) (before : nat → State.t),
    allocateResources event s = (Returned result, s') ∧
    before 0%nat = s ∧ before 2%nat = s' ∧
    before 1%nat =
      State.with_resourceRequests
        (λ _, [ResourceRequest.mk "req-mics" "ev-1" Sample.mics 2 true (Some 2);
               Sample.wantChairs])
        (State.with_resourceBookings (λ _, [Sample.chairsBooked; micsBooking]) s) ∧
    micsBooking ∈ State.resourceBookings s' ∧
    before 2%nat = before 1%nat ∧
    r_success result = false ∧
    ∃ conflicts,
      r_conflicts result = Some conflicts ∧
      mkConflict resource_shortage ["ev-0"]
        "Chairs: Need 10, only 5 available (15 already booked)"
        (Some ["Reduce quantity requirement"; "Choose different time slot";
               "Find alternative resources"]) ∈ conflicts.
Proof.
  intros s event micsBooking.
  destruct (allocateResources_request event s)
    as (result & s' & before & Hrun & H0 & H2 & Hturn).
  { intros r Hr. cbn in Hr.
    apply elem_of_cons in Hr as [-> | Hr]; [left |].
    apply elem_of_cons in Hr as [-> | Hr]; [right; left |].
    by apply elem_of_nil in Hr. }
  pose proof (Hturn 0%nat Sample.wantMics eq_refl) as [Hmics _].
  pose proof (Hturn 1%nat Sample.wantChairs eq_refl) as [_ Hchairs].
  cbv zeta in Hmics, Hchairs. rewrite H0 in Hmics.
  destruct Hmics as (H1 & Hin & _); [vm_compute; discriminate |].
  rewrite H1 in Hchairs.
  destruct Hchairs as (H21 & Hfail & conflicts & Hc & _ & Hin'); [reflexivity |].
  exists result, s', before.
  split; [exact Hrun |]. split; [exact H0 |]. split; [exact H2 |].
  split; [rewrite H1; reflexivity |]. split; [exact Hin |].
  split; [rewrite H21, H1; reflexivity |]. split; [exact Hfail |].
  exists conflicts. split; [exact Hc |]. apply Hin'; reflexivity.
Defined.

(** C6. Resource allocation examines every request before it decides.
    For an event whose requests are rows of the store, it returns; it
    fails exactly when some request is short when its turn comes; and
    the conflict list it then returns has one resource_shortage entry
    for each such request, in the order of the requests, not only for
    the first one. *)
Theorem allocateResources_reports_every_shortage (event : Event.loaded) (s : State.t) :
  (∀ r, r ∈ Event.resourceRequests event →
        ResourceRequest.id r ∈ ResourceRequest.id <$> State.resourceRequests s) →
  let requests := Event.resourceRequests event in
  let short := filter (shortAt event requests s) (imap pair requests) in
  ∃ result s',
    allocateResources event s = (Returned result, s') ∧
    (r_success result = false ↔ short ≠ []) ∧
    (r_success result = false →
       r_conflicts result = Some (conflictAt event requests s <$> short)) ∧
    (∀ cs c, r_conflicts result = Some cs → c ∈ cs → type c = resource_shortage) ∧
    (∀ cs, r_conflicts result = Some cs → length cs = length short).
Proof.
  intros Hids requests short.
  destruct (allocateResources_loop_conflicts event requests s Hids)
    as (allocations & s' & Hloop).
  fold short in Hloop. unfold allocateResources, bind. fold requests. rewrite Hloop.
  cbn [fst snd]. rewrite length_fmap.
  destruct short as [| kr short'] eqn:Hshort; cbn [length]; case_decide; try lia.
  - eexists _, _. split; [reflexivity |]. cbn.
    repeat split; try done.
  - eexists _, _. split; [reflexivity |]. cbn.
    repeat split; try done.
    + intros cs c [= <-] Hc. rewrite <- fmap_cons in Hc.
      apply list_elem_of_fmap in Hc as (kr' & -> & _). reflexivity.
    + intros cs [= <-]. cbn. by rewrite length_fmap.
Qed.

Lemma allocateResources_reports_every_shortage_witness :
  let s := Sample.store ApprovalStage.HEAD_APPROVED [Sample.hall60]
             [Sample.wantChairs; Sample.wantManyMics] [] [Sample.chairsBooked] in
  let event := Event.Loaded (Sample.event "ev-1" ApprovalStage.HEAD_APPROVED)
                 [Sample.wantChairs; Sample.wantManyMics] in
  let requests := Event.resourceRequests event in
  let short := filter (shortAt event requests s) (imap pair requests) in
  short = [(0%nat, Sample.wantChairs); (1%nat, Sample.wantManyMics)] ∧
  ∃ result s',
    allocateResources event s = (Returned result, s') ∧
    (r_success result = false ↔ short ≠ []) ∧
    (r_success result = false →
       r_conflicts result = Some (conflictAt event requests s <$> short)) ∧
    (∀ cs c, r_conflicts result = Some cs → c ∈ cs → type c = resource_shortage) ∧
    (∀ cs, r_conflicts result = Some cs → length cs = length short).
Proof.
  intros s event requests short. split; [reflexivity |].
  apply (allocateResources_reports_every_shortage event s).
  intros r Hr. cbn in Hr.
  apply elem_of_cons in Hr as [-> | Hr]; [left |].
  apply elem_of_cons in Hr as [-> | Hr]; [right; left |].
  by apply elem_of_nil in Hr.
Defined.

(** Both shortages of the sample are reported in one pass. *)
Example allocateResources_two_shortages :
  (allocateResources
     (Event.Loaded (Sample.event "ev-1" ApprovalStage.HEAD_APPROVED)
        [Sample.wantChairs; Sample.wantManyMics])
     (Sample.store ApprovalStage.HEAD_APPROVED [Sample.hall60]
        [Sample.wantChairs; Sample.wantManyMics] [] [Sample.chairsBooked])).1
  = Returned
      (mkResourceResult false None
         (Some [mkConflict resource_shortage ["ev-0"]
                  "Chairs: Need 10, only 5 available (15 already booked)"
                  (Some ["Reduce quantity requirement"; "Choose different time slot";
                         "Find alternative resources"]);
                mkConflict resource_shortage []
                  "Microphones: Need 6, only 4 available (0 already booked)"
                  (Some ["Reduce quantity requirement"; "Choose different time slot";
                         "Find alternative resources"])])
         (Some "Failed to allocate 2 resources")).
Proof. reflexivity. Qed.

(** *** The whole allocation *)

(** A thrown error rolls the transaction back. *)
Lemma allocateEvent_throw_rolls_back (eventId msg : string) (s s' : State.t) :
  allocateEvent eventId s = (Threw msg, s') → s' = s.
Proof.
  unfold allocateEvent, transaction.
  destruct (bind _ _ s) as [[r | msg'] s1]; congruence.
Qed.

(** A failure that is returned is committed: the store that the
    resource phase leaves behind, with the venue booking and the
    bookings of the satisfiable requests, is the store after the call. *)
Lemma allocateEvent_failure_commits (eventId : string) (event : Event.t)
    (s s1 s2 : State.t) (venueResult : VenueResult) (resourceResult : ResourceResult) :
  let loaded :=
    Event.Loaded event
      (filter (λ r, ResourceRequest.eventId r = eventId) (State.resourceRequests s)) in
  State.events s !! eventId = Some event →
  Event.approvalStage event = ApprovalStage.HEAD_APPROVED →
  allocateVenue loaded s = (Returned venueResult, s1) →
  v_success venueResult = true →
  allocateResources loaded s1 = (Returned resourceResult, s2) →
  r_success resourceResult = false →
  allocateEvent eventId s =
    (Returned (mkResult false None None (r_conflicts resourceResult)
                 (Some ("Resource allocation failed: "
                          +:+ show_undefined (r_explanation resourceResult)))), s2).
Proof.
  intros loaded Hev Hstage Hvenue Hvs Hres Hrs.
  unfold allocateEvent, transaction, bind at 1, event_findUnique_loaded, gets.
  rewrite Hev. cbn [fmap option_fmap option_map]. fold loaded.
  case_decide as Hne; [cbn in Hne; congruence |].
  unfold bind at 1. rewrite Hvenue, Hvs. cbn [negb].
  unfold bind at 1. rewrite Hres, Hrs. reflexivity.
Qed.

(** A returned failure leaves the events, steps and notifications
    alone. *)
Lemma allocateEvent_failure_frame (eventId : string) (s s1 : State.t)
    (result : AllocationResult) :
  allocateEvent eventId s = (Returned result, s1) →
  success result = false →
  allocation_frame s s1.
Proof.
  unfold allocateEvent, transaction, bind at 1, event_findUnique_loaded, gets.
  destruct (State.events s !! eventId) as [event |]; cbn [fmap option_fmap option_map];
    [| discriminate].
  case_decide as Hne; [discriminate |].
  set (loaded := Event.Loaded event _).
  unfold bind at 1.
  pose proof (allocateVenue_frame loaded s) as Hv.
  destruct (allocateVenue loaded s) as [[venueResult | msg] sv]; [| discriminate].
  cbn [snd] in Hv.
  destruct (v_success venueResult); cbn [negb].
  - unfold bind at 1.
    pose proof (allocateResources_frame loaded sv) as Hr.
    destruct (allocateResources loaded sv) as [[resourceResult | msg] sr]; [| discriminate].
    cbn [snd] in Hr.
    destruct (r_success resourceResult); cbn [negb].
    + unfold bind at 1. destruct (event_update _ _ sr) as [[[] | msg] su]; [| discriminate].
      intros [= <- <-]. discriminate.
    + intros [= <- <-] _. by etransitivity.
  - intros [= <- <-] _. exact Hv.
Qed.

#[global] Instance same_on_refl {A} (f : State.t → A) : Reflexive (same_on f).
Proof. intros s. reflexivity. Qed.

#[global] Instance same_on_trans {A} (f : State.t → A) : Transitive (same_on f).
Proof. intros s1 s2 s3 H1 H2. unfold same_on in *. congruence. Qed.

(** The resource phase does not touch the venue bookings. *)
Lemma allocateResources_venueBookings (event : Event.loaded) :
  preserves (same_on State.venueBookings) (allocateResources event).
Proof.
  assert (Hloop : ∀ requests allocations conflicts,
            preserves (same_on State.venueBookings)
              (allocateResources_loop event requests allocations conflicts)).
  { induction requests as [| r rest IH]; intros allocations conflicts;
      cbn [allocateResources_loop].
    - apply preserves_ret; apply _.
    - apply preserves_bind; [apply _ | apply preserves_gets; apply _ |].
      intros bs. case_decide.
      + apply preserves_bind; [apply _ | by apply preserves_modify |].
        intros _. apply preserves_bind; [apply _ | | intros _; apply IH].
        intros s. unfold resourceRequest_update. by case_decide.
      + apply preserves_bind; [apply _ | apply preserves_gets; apply _ |].
        intros. apply IH. }
  unfold allocateResources.
  apply preserves_bind; [apply _ | apply Hloop |].
  intros r. case_decide; apply preserves_ret; apply _.
Qed.

(** A successful venue phase has inserted the booking of one
    candidate. *)
Lemma allocateVenue_success_inv (event : Event.loaded) (s s1 : State.t)
    (venueResult : VenueResult) :
  allocateVenue event s = (Returned venueResult, s1) →
  v_success venueResult = true →
  ∃ v, v ∈ candidateVenues s event ∧
       v_venueId venueResult = Some (Venue.id v) ∧
       s1 = State.with_venueBookings (λ bs, bs ++ [newVenueBooking v event]) s.
Proof.
  assert (Hloop : ∀ candidates r s',
            allocateVenue_loop event candidates s = (Returned r, s') →
            match r with
            | Some result =>
                ∃ v, v ∈ candidates ∧ v_venueId result = Some (Venue.id v) ∧
                     s' = State.with_venueBookings
                            (λ bs, bs ++ [newVenueBooking v event]) s
            | None => s' = s
            end).
  { induction candidates as [| u rest IH]; intros r s'; cbn [allocateVenue_loop].
    - intros [= <- <-]. reflexivity.
    - unfold bind at 1, gets. case_decide.
      + intros [= <- <-]. exists u. split; [left | split; reflexivity].
      + intros Hrest. specialize (IH r s' Hrest). destruct r as [result |]; [| exact IH].
        destruct IH as (v & Hv & Hid & Hs). exists v. split; [by right | done]. }
  unfold allocateVenue, bind at 1, gets at 1. case_decide.
  { intros [= <- <-]. discriminate. }
  unfold bind at 1.
  destruct (allocateVenue_loop event (candidateVenues s event) s)
    as [[[result |] | msg] s'] eqn:Hl; [| | discriminate].
  - intros [= <- <-] _. exact (Hloop _ _ _ Hl).
  - unfold bind, gets. intros [= <- <-]. discriminate.
Qed.

(** X1.  Whenever the venue phase succeeds and the resource phase fails,
    the store after [allocateEvent] has one venue booking more than the
    store before it. *)
Lemma allocateEvent_failure_keeps_venue_booking (eventId : string) (event : Event.t)
    (s s1 s2 : State.t) (venueResult : VenueResult) (resourceResult : ResourceResult) :
  let loaded :=
    Event.Loaded event
      (filter (λ r, ResourceRequest.eventId r = eventId) (State.resourceRequests s)) in
  State.events s !! eventId = Some event →
  Event.approvalStage event = ApprovalStage.HEAD_APPROVED →
  allocateVenue loaded s = (Returned venueResult, s1) →
  v_success venueResult = true →
  allocateResources loaded s1 = (Returned resourceResult, s2) →
  r_success resourceResult = false →
  ∃ result s' v,
    allocateEvent eventId s = (Returned result, s') ∧
    success result = false ∧
    v ∈ candidateVenues s event ∧
    State.venueBookings s' = State.venueBookings s ++ [newVenueBooking v event].
Proof.
  intros loaded Hev Hstage Hvenue Hvs Hres Hrs.
  destruct (allocateVenue_success_inv loaded s s1 venueResult Hvenue Hvs)
    as (v & Hv & _ & Hs1).
  pose proof (allocateResources_venueBookings loaded s1) as Hkeep.
  rewrite Hres in Hkeep. unfold same_on in Hkeep. cbn [snd] in Hkeep.
  eexists _, s2, v. split.
  { apply (allocateEvent_failure_commits eventId event s s1 s2 venueResult resourceResult);
      assumption. }
  split; [reflexivity |]. split; [exact Hv |].
  rewrite Hkeep, Hs1. reflexivity.
Qed.

(** C1 (does not hold of the code).  The venue of the sample
    event is free and its two microphones are available, but the chairs
    are short.  [allocateEvent] returns a failure, and the store it
    leaves holds the venue booking and the microphone booking made
    during the attempt, with the microphone request marked allocated:
    the callback of the transaction returned, so the transaction was
    committed, not rolled back. *)
Theorem allocateEvent_shortage_keeps_bookings :
  let s := Sample.store ApprovalStage.HEAD_APPROVED [Sample.hall60]
             [Sample.wantMics; Sample.wantChairs] [] [Sample.chairsBooked] in
  ∃ result s',
    allocateEvent "ev-1" s = (Returned result, s') ∧
    success result = false ∧
    State.venueBookings s = [] ∧
    State.venueBookings s' = [VenueBooking.mk "venue-60" "ev-1" 1000 1200 "confirmed"] ∧
    State.resourceBookings s = [Sample.chairsBooked] ∧
    State.resourceBookings s' =
      [Sample.chairsBooked;
       ResourceBooking.mk "res-mics" "ev-1" 2 1000 1200 "confirmed"] ∧
    State.resourceRequests s' =
      [ResourceRequest.mk "req-mics" "ev-1" Sample.mics 2 true (Some 2);
       Sample.wantChairs] ∧
    s' ≠ s.
Proof.
  intros s. eexists _, _. split; [vm_compute; reflexivity |].
  repeat (split; [reflexivity |]).
  intros Heq. apply (f_equal State.venueBookings) in Heq. discriminate Heq.
Qed.

(** *** The feasibility check *)

Lemma checkVenueAvailability_loop_reads (event : Event.loaded) (candidates : list Venue.t) :
  preserves eq (checkVenueAvailability_loop event candidates).
Proof.
  induction candidates as [| v rest IH]; cbn [checkVenueAvailability_loop].
  - apply preserves_ret; apply _.
  - apply preserves_bind; [apply _ | apply preserves_gets; apply _ |].
    intros bs. case_decide; [apply preserves_ret; apply _ | exact IH].
Qed.

Lemma checkResourceAvailability_loop_reads (event : Event.loaded)
    (requests : list ResourceRequest.t) (conflicts : list AllocationConflict) :
  preserves eq (checkResourceAvailability_loop event requests conflicts).
Proof.
  revert conflicts.
  induction requests as [| r rest IH]; intros conflicts;
    cbn [checkResourceAvailability_loop].
  - apply preserves_ret; apply _.
  - apply preserves_bind; [apply _ | apply preserves_gets; apply _ |].
    intros bs. case_decide; apply IH.
Qed.

(** [checkAllocationFeasibility] writes nothing: whatever it returns or
    throws, the store is the one it was called in.  Two calls in a row
    therefore run in the same store and give the same result. *)
Lemma checkAllocationFeasibility_reads (eventId : string) :
  preserves eq (checkAllocationFeasibility eventId).
Proof.
  unfold checkAllocationFeasibility.
  apply preserves_bind; [apply _ | apply preserves_gets; apply _ |].
  intros [event |]; [| apply preserves_throw; apply _].
  apply preserves_bind; [apply _ | |].
  { unfold checkVenueAvailability.
    apply preserves_bind; [apply _ | apply preserves_gets; apply _ |].
    intros cands. case_decide; [apply preserves_ret; apply _ |].
    apply preserves_bind; [apply _ | apply checkVenueAvailability_loop_reads |].
    intros []; apply preserves_ret; apply _. }
  intros venueCheck. apply preserves_bind; [apply _ | |].
  { unfold checkResourceAvailability.
    apply preserves_bind; [apply _ | apply checkResourceAvailability_loop_reads |].
    intros cs. apply preserves_ret; apply _. }
  intros resourceCheck. apply preserves_ret; apply _.
Qed.

Lemma checkAllocationFeasibility_idempotent (eventId : string) (s : State.t) :
  (checkAllocationFeasibility eventId s).2 = s ∧
  checkAllocationFeasibility eventId (checkAllocationFeasibility eventId s).2
  = checkAllocationFeasibility eventId s.
Proof.
  pose proof (checkAllocationFeasibility_reads eventId s) as Hs.
  split; [by symmetry |]. by rewrite <- Hs.
Qed.

(** C7 (does not hold of the code).  The sample event asks for
    an auditorium and the only venue is a hall.  The feasibility check
    answers success, and writes nothing, because its venue query has no
    type condition; the allocation of the same event in the same store
    fails for want of a candidate venue. *)
Theorem checkAllocationFeasibility_ignores_type_preference :
  let s := Sample.storeOf (Sample.eventPreferring "AUDITORIUM") [Sample.hall60] [] [] [] in
  (∃ check,
     checkAllocationFeasibility "ev-1" s = (Returned check, s) ∧
     success check = true ∧ conflicts check = Some []) ∧
  (∃ result s',
     allocateEvent "ev-1" s = (Returned result, s') ∧
     success result = false ∧
     conflicts result =
       Some [mkConflict venue_unavailable [] "No suitable venues available"
               (Some ["Consider reducing participant count";
                      "Choose different time slot"])]).
Proof.
  intros s. split.
  - eexists. split; [vm_compute; reflexivity |]. split; reflexivity.
  - eexists _, _. split; [vm_compute; reflexivity |]. split; reflexivity.
Qed.

(** The feasibility check also examines every request against the
    store as it is, while the allocation books as it goes: two requests
    for four of the six projectors pass the check and fail the
    allocation. *)
Example checkAllocationFeasibility_ignores_own_bookings :
  let projectors := Resource.mk "res-proj" "Projectors" 6 in
  let first := ResourceRequest.mk "req-1" "ev-1" projectors 4 false None in
  let second := ResourceRequest.mk "req-2" "ev-1" projectors 4 false None in
  let s := Sample.store ApprovalStage.HEAD_APPROVED [Sample.hall60] [first; second] [] [] in
  (success <$> (match (checkAllocationFeasibility "ev-1" s).1 with
                | Returned r => Some r | Threw _ => None end)) = Some true ∧
  (success <$> (match (allocateEvent "ev-1" s).1 with
                | Returned r => Some r | Threw _ => None end)) = Some false.
Proof. split; vm_compute; reflexivity. Qed.

(** *** When the feasibility check and the allocation agree *)

Lemma checkVenueAvailability_loop_spec (event : Event.loaded) (candidates : list Venue.t)
    (s : State.t) :
  checkVenueAvailability_loop event candidates s =
    (Returned (bool_decide (Exists (venueFree s event) candidates)), s).
Proof.
  induction candidates as [| v rest IH]; cbn [checkVenueAvailability_loop].
  - unfold ret. rewrite bool_decide_eq_false_2; [reflexivity |]. by intros ?%Exists_nil.
  - unfold bind, gets. case_decide as Hfree.
    + unfold ret. rewrite bool_decide_eq_true_2; [reflexivity |]. by left.
    + rewrite IH. f_equal. f_equal. apply bool_decide_ext.
      rewrite Exists_cons. unfold venueFree at 2. tauto.
Qed.

Lemma checkVenueAvailability_spec (event : Event.loaded) (s : State.t) :
  ∃ r, checkVenueAvailability event s = (Returned r, s) ∧
       c_success r = bool_decide (Exists (venueFree s event)
                                    (filter (checkVenue_where event) (State.venues s))).
Proof.
  unfold checkVenueAvailability, bind at 1, gets at 1.
  destruct (filter (checkVenue_where event) (State.venues s)) as [| v rest] eqn:Hc.
  - eexists. split; [reflexivity |]. reflexivity.
  - case_decide as Hlen; [discriminate |].
    unfold bind. rewrite checkVenueAvailability_loop_spec.
    destruct (bool_decide _) eqn:Hb; eexists; (split; [reflexivity | done]).
Qed.

Lemma checkResourceAvailability_loop_spec (event : Event.loaded)
    (requests : list ResourceRequest.t) (conflicts : list AllocationConflict)
    (s : State.t) :
  ∃ conflicts',
    checkResourceAvailability_loop event requests conflicts s = (Returned conflicts', s) ∧
    (length conflicts' = 0%nat ↔
     length conflicts = 0%nat ∧ Forall (coveredIn event s) requests).
Proof.
  revert conflicts.
  induction requests as [| r rest IH]; intros conflicts;
    cbn [checkResourceAvailability_loop].
  - eexists. split; [reflexivity |]. rewrite Forall_nil. tauto.
  - unfold bind, gets. case_decide as Hshort.
    + destruct (IH (conflicts ++ [mkConflict resource_shortage
                      (ResourceBooking.eventId <$>
                         overlappingResourceBookings s (ResourceRequest.resourceId r) event)
                      (Resource.name (ResourceRequest.resource r) +:+ ": Need "
                         +:+ pretty (ResourceRequest.quantityNeeded r) +:+ ", only "
                         +:+ pretty (Resource.totalQuantity (ResourceRequest.resource r)
                                     - bookedQuantity
                                         (overlappingResourceBookings s
                                            (ResourceRequest.resourceId r) event))
                         +:+ " available") None]))
        as (cs & Hcs & Hlen).
      exists cs. split; [exact Hcs |]. rewrite Hlen, length_app, Forall_cons. cbn.
      unfold coveredIn at 2, availableIn. unfold ResourceRequest.resourceId in Hshort.
      split; [lia | intros [_ [Hc _]]; lia].
    + destruct (IH conflicts) as (cs & Hcs & Hlen).
      exists cs. split; [exact Hcs |]. rewrite Hlen, Forall_cons.
      unfold coveredIn at 2, availableIn. unfold ResourceRequest.resourceId in Hshort.
      split; [intros [? ?]; repeat split; (done || lia) | tauto].
Qed.

(** The feasibility check succeeds exactly when some active venue out
    of maintenance with enough capacity, of whatever type, is free, and
    every request is covered by what is left of its resource in the
    store as it is.  It does not look at the stage of the event. *)
Lemma checkAllocationFeasibility_spec (eventId : string) (event : Event.t) (s : State.t) :
  State.events s !! eventId = Some event →
  let loaded :=
    Event.Loaded event
      (filter (λ r, ResourceRequest.eventId r = eventId) (State.resourceRequests s)) in
  ∃ check,
    checkAllocationFeasibility eventId s = (Returned check, s) ∧
    (success check = true ↔
     Exists (venueFree s event) (filter (checkVenue_where event) (State.venues s)) ∧
     Forall (coveredIn loaded s) (Event.resourceRequests loaded)).
Proof.
  intros Hev loaded.
  unfold checkAllocationFeasibility, bind at 1, event_findUnique_loaded, gets.
  rewrite Hev. cbn [fmap option_fmap option_map]. fold loaded.
  destruct (checkVenueAvailability_spec loaded s) as (vc & Hvc & Hvs).
  unfold bind at 1. rewrite Hvc.
  unfold checkResourceAvailability.
  destruct (checkResourceAvailability_loop_spec loaded (Event.resourceRequests loaded) [] s)
    as (cs & Hcs & Hlen).
  unfold bind at 1. unfold bind at 1. rewrite Hcs. unfold ret.
  eexists. split; [reflexivity |]. cbn [success c_success].
  rewrite andb_true_iff, Hvs, !bool_decide_eq_true, Hlen. cbn. tauto.
Qed.

Lemma allocateVenue_loop_some (event : Event.loaded) (candidates : list Venue.t)
    (s : State.t) :
  Exists (venueFree s event) candidates →
  ∃ r s1, allocateVenue_loop event candidates s = (Returned (Some r), s1) ∧
          v_success r = true.
Proof.
  induction candidates as [| u rest IH]; intros Hex; [by apply Exists_nil in Hex |].
  cbn [allocateVenue_loop]. unfold bind at 1, gets. case_decide as Hfree.
  - eexists _, _. split; reflexivity.
  - apply IH. apply Exists_cons in Hex as [Hu | Hrest]; [contradiction | exact Hrest].
Qed.

Lemma allocateVenue_success_iff (event : Event.loaded) (s : State.t) :
  ∃ r s1, allocateVenue event s = (Returned r, s1) ∧
          (v_success r = true ↔ Exists (venueFree s event) (candidateVenues s event)).
Proof.
  destruct (decide (Exists (venueFree s event) (candidateVenues s event))) as [Hex | Hno].
  - destruct (allocateVenue_loop_some event _ s Hex) as (r & s1 & Hl & Hr).
    unfold allocateVenue, bind at 1, gets at 1. case_decide as Hlen.
    { apply nil_length_inv in Hlen. rewrite Hlen in Hex. by apply Exists_nil in Hex. }
    unfold bind. rewrite Hl. eexists _, _. split; [reflexivity |]. tauto.
  - unfold allocateVenue, bind at 1, gets at 1. case_decide as Hlen.
    { eexists _, _. split; [reflexivity |]. cbn. split; [discriminate | contradiction]. }
    unfold bind at 1. rewrite allocateVenue_loop_all_taken.
    + unfold bind, gets. eexists _, _. split; [reflexivity |]. cbn.
      split; [discriminate | contradiction].
    + intros u Hu Hnil. apply Hno. apply Exists_exists. exists u. split; [exact Hu |].
      unfold venueFree. by rewrite Hnil.
Qed.

(** The bookings that the loop of [allocateResources] inserts are for
    the resources of the requests it walks. *)
Lemma allocateResources_loop_bookings (event : Event.loaded)
    (requests : list ResourceRequest.t) allocations conflicts (s : State.t) :
  ∃ extra,
    State.resourceBookings
      (allocateResources_loop event requests allocations conflicts s).2
      = State.resourceBookings s ++ extra ∧
    Forall (λ b, ResourceBooking.resourceId b
                 ∈ ResourceRequest.resourceId <$> requests) extra.
Proof.
  revert allocations conflicts s.
  induction requests as [| r rest IH]; intros allocations conflicts s.
  { exists []. split; [by rewrite app_nil_r | constructor]. }
  cbn [allocateResources_loop]. unfold bind at 1, gets at 1. case_decide.
  - unfold bind at 1, modify. unfold bind at 1, resourceRequest_update at 1.
    cbn [State.resourceRequests State.with_resourceBookings].
    case_decide.
    + match goal with
      | |- context [allocateResources_loop event rest ?a ?c ?s0] =>
          destruct (IH a c s0) as (extra & Hb & Hall)
      end.
      exists (newResourceBooking r event :: extra). split.
      * rewrite Hb. cbn. by rewrite <- app_assoc.
      * constructor; [rewrite fmap_cons; left |].
        eapply Forall_impl; [exact Hall |]. intros b Hb'. rewrite fmap_cons. by right.
    + exists [newResourceBooking r event]. split; [reflexivity |].
      constructor; [rewrite fmap_cons; left | constructor].
  - unfold bind at 1, gets at 1.
    destruct (IH allocations
                (conflicts ++
                   [shortageConflict r
                      (overlappingResourceBookings s
                         (Resource.id (ResourceRequest.resource r)) event)
                      (Resource.totalQuantity (ResourceRequest.resource r)
                         - bookedQuantity (overlappingResourceBookings s
                                             (Resource.id (ResourceRequest.resource r))
                                             event))
                      (bookedQuantity (overlappingResourceBookings s
                                         (Resource.id (ResourceRequest.resource r)) event))])
                s) as (extra & Hb & Hall).
    exists extra. split; [exact Hb |].
    eapply Forall_impl; [exact Hall |]. intros b Hb'. rewrite fmap_cons. by right.
Qed.

(** When no two requests of the event concern the same resource, a
    request finds, when its turn comes, what it would have found in the
    store the loop started from. *)
Lemma availableIn_storeBefore (event : Event.loaded) (requests : list ResourceRequest.t)
    (s : State.t) (k : nat) (r : ResourceRequest.t) :
  NoDup (ResourceRequest.resourceId <$> requests) →
  requests !! k = Some r →
  availableIn event (storeBefore event requests s k) r = availableIn event s r ∧
  overlappingResourceBookings (storeBefore event requests s k)
    (Resource.id (ResourceRequest.resource r)) event
  = overlappingResourceBookings s (Resource.id (ResourceRequest.resource r)) event.
Proof.
  intros Hnd Hk.
  destruct (allocateResources_loop_bookings event (take k requests) [] [] s)
    as (extra & Hb & Hall).
  assert (Hfresh : ResourceRequest.resourceId r
                   ∉ ResourceRequest.resourceId <$> take k requests).
  { rewrite <- (take_drop_middle requests k r Hk) in Hnd.
    rewrite fmap_app, fmap_cons in Hnd.
    apply NoDup_app in Hnd as (_ & Hdis & _). intros Hin. apply (Hdis _ Hin). left. }
  assert (Hover : overlappingResourceBookings (storeBefore event requests s k)
                    (Resource.id (ResourceRequest.resource r)) event
                  = overlappingResourceBookings s
                      (Resource.id (ResourceRequest.resource r)) event).
  { unfold overlappingResourceBookings, storeBefore. rewrite Hb, filter_app.
    rewrite <- (app_nil_r (filter _ (State.resourceBookings s))) at 2. f_equal.
    apply elem_of_nil_inv. intros b [(Hid & _) Hin]%list_elem_of_filter.
    apply Hfresh. rewrite Forall_forall in Hall. specialize (Hall b Hin).
    unfold ResourceRequest.resourceId at 1. by rewrite <- Hid. }
  split; [| exact Hover]. unfold availableIn. by rewrite Hover.
Qed.

Lemma no_shortage_iff_covered (event : Event.loaded) (requests : list ResourceRequest.t)
    (s : State.t) :
  NoDup (ResourceRequest.resourceId <$> requests) →
  filter (shortAt event requests s) (imap pair requests) = [] ↔
  Forall (coveredIn event s) requests.
Proof.
  intros Hnd. rewrite Forall_lookup. split.
  - intros Hnil k r Hk. unfold coveredIn.
    destruct (availableIn_storeBefore event requests s k r Hnd Hk) as [<- _].
    destruct (decide (shortAt event requests s (k, r))) as [Hshort | Hok].
    + exfalso. eapply (filter_nil_not_elem_of _ _ (k, r)); [exact Hnil | exact Hshort |].
      apply elem_of_lookup_imap. by exists k, r.
    + unfold shortAt in Hok. cbn in Hok. lia.
  - intros Hall. apply elem_of_nil_inv.
    intros [k r] [Hshort (i & y & [= -> ->] & Hi)%elem_of_lookup_imap]%list_elem_of_filter.
    specialize (Hall i y Hi). unfold coveredIn in Hall. unfold shortAt in Hshort.
    cbn in Hshort.
    destruct (availableIn_storeBefore event requests s i y Hnd Hi) as [Heq _].
    rewrite Heq in Hshort. lia.
Qed.

(** The allocation of an event that is cleared for it, and whose
    requests concern different resources, succeeds exactly when some
    candidate venue is free and every request is covered by what is
    left of its resource. *)
Lemma allocateEvent_success_iff (eventId : string) (event : Event.t) (s : State.t) :
  let loaded :=
    Event.Loaded event
      (filter (λ r, ResourceRequest.eventId r = eventId) (State.resourceRequests s)) in
  State.events s !! eventId = Some event →
  Event.approvalStage event = ApprovalStage.HEAD_APPROVED →
  NoDup (ResourceRequest.resourceId <$> Event.resourceRequests loaded) →
  ∃ result s',
    allocateEvent eventId s = (Returned result, s') ∧
    (success result = true ↔
     Exists (venueFree s event) (candidateVenues s event) ∧
     Forall (coveredIn loaded s) (Event.resourceRequests loaded)).
Proof.
  intros loaded Hev Hstage Hnd.
  unfold allocateEvent, transaction, bind at 1, event_findUnique_loaded, gets.
  rewrite Hev. cbn [fmap option_fmap option_map]. fold loaded.
  case_decide as Hne; [cbn in Hne; congruence |].
  destruct (allocateVenue_success_iff loaded s) as (vr & s1 & Hv & Hiff).
  unfold bind at 1. rewrite Hv.
  destruct (v_success vr) eqn:Hvs; cbn [negb]; cycle 1.
  { eexists _, _. split; [reflexivity |]. cbn.
    split; [discriminate |]. intros [Hex _]. apply Hiff in Hex. discriminate. }
  destruct (allocateVenue_success_inv loaded s s1 vr Hv Hvs) as (v & _ & _ & Hs1).
  assert (Hcov : ∀ r, coveredIn loaded s1 r ↔ coveredIn loaded s r).
  { intros r. rewrite Hs1. reflexivity. }
  assert (Hids : ∀ r, r ∈ Event.resourceRequests loaded →
            ResourceRequest.id r ∈ ResourceRequest.id <$> State.resourceRequests s1).
  { intros r [_ Hr]%list_elem_of_filter. rewrite Hs1. cbn.
    by apply list_elem_of_fmap_2. }
  destruct (allocateResources_loop_conflicts loaded (Event.resourceRequests loaded) s1 Hids)
    as (allocations & s2 & Hloop).
  pose proof (allocateResources_loop_frame loaded (Event.resourceRequests loaded) [] [] s1)
    as Hframe.
  rewrite Hloop in Hframe. cbn [snd] in Hframe. destruct Hframe as (Hevents & _).
  pose proof (no_shortage_iff_covered loaded (Event.resourceRequests loaded) s1 Hnd)
    as Hshort.
  unfold bind at 1, allocateResources, bind at 1. rewrite Hloop. cbn [fst snd].
  rewrite length_fmap.
  destruct (filter (shortAt loaded (Event.resourceRequests loaded) s1)
              (imap pair (Event.resourceRequests loaded))) as [| kr short] eqn:Hfilter.
  - cbn [length]. case_decide; [lia |]. unfold ret at 1. cbn [r_success negb].
    assert (Hev2 : State.events s2 !! eventId = Some event).
    { rewrite Hevents, Hs1. exact Hev. }
    unfold bind at 1. rewrite (event_update_spec _ _ _ _ Hev2).
    unfold bind, modify, ret. eexists _, _. split; [reflexivity |]. cbn [success].
    split; [intros _ | done]. split; [by apply Hiff |].
    eapply Forall_impl; [apply Hshort; reflexivity |]. intros r. apply Hcov.
  - cbn [length]. case_decide; [| lia]. unfold ret. cbn [r_success negb].
    eexists _, _. split; [reflexivity |]. cbn [success].
    split; [discriminate |]. intros [_ Hall].
    assert (Hnil : kr :: short = []); [| discriminate Hnil].
    apply Hshort. eapply Forall_impl; [exact Hall |]. intros r. apply Hcov.
Qed.

(** X2.  For an event that is cleared for allocation, states no venue type
    preference and requests each resource once, the feasibility check
    and the allocation agree. *)
Lemma checkAllocationFeasibility_agrees (eventId : string) (event : Event.t) (s : State.t) :
  State.events s !! eventId = Some event →
  Event.approvalStage event = ApprovalStage.HEAD_APPROVED →
  Event.venueTypePreference event = None →
  NoDup (ResourceRequest.resourceId
           <$> filter (λ r, ResourceRequest.eventId r = eventId) (State.resourceRequests s)) →
  ∃ check result s',
    checkAllocationFeasibility eventId s = (Returned check, s) ∧
    allocateEvent eventId s = (Returned result, s') ∧
    success check = success result.
Proof.
  intros Hev Hstage Hpref Hnd.
  destruct (checkAllocationFeasibility_spec eventId event s Hev) as (check & Hc & Hci).
  destruct (allocateEvent_success_iff eventId event s Hev Hstage Hnd)
    as (result & s' & Ha & Hai).
  exists check, result, s'. split; [exact Hc |]. split; [exact Ha |].
  assert (Hvenues :
    Exists (venueFree s event) (candidateVenues s event) ↔
    Exists (venueFree s event) (filter (checkVenue_where event) (State.venues s))).
  { rewrite !Exists_exists. split; intros (v & Hv & Hfree); exists v; (split; [| done]).
    - apply candidateVenues_elem_of in Hv as [(Ha1 & Ha2 & Ha3 & _) Hin].
      apply list_elem_of_filter. by repeat split.
    - apply list_elem_of_filter in Hv as [(Ha1 & Ha2 & Ha3) Hin].
      apply candidateVenues_elem_of. split; [| done].
      repeat split; try done. unfold typeFilter. by rewrite Hpref. }
  cbn [Event.resourceRequests] in Hci, Hai.
  destruct (success check), (success result); try reflexivity.
  - assert (Ht : false = true); [| discriminate Ht].
    apply Hai. rewrite Hvenues. by apply Hci.
  - assert (Ht : false = true); [| discriminate Ht].
    apply Hci. rewrite <- Hvenues. by apply Hai.
Qed.

(** ** The approval state machine *)

Import ApprovalEngine.

(** The row of the fixed table that lets [approver] act on [event]. *)
Lemma validateApprovalPermission_table (approver : User.t) (event : Event.t) :
  validateApprovalPermission (User.role approver) (Event.approvalStage event)
    (User.schoolId approver) (User.departmentId approver)
    (Event.schoolId event) (Event.departmentId event) = true ↔
  (Event.approvalStage event = ApprovalStage.SUBMITTED ∧
   User.role approver = Role.HOD ∧
   User.departmentId approver = Some (Event.departmentId event)) ∨
  (Event.approvalStage event = ApprovalStage.HOD_APPROVED ∧
   User.role approver = Role.DEAN ∧
   User.schoolId approver = Some (Event.schoolId event)) ∨
  (Event.approvalStage event = ApprovalStage.DEAN_APPROVED ∧
   User.role approver = Role.INSTITUTIONAL_HEAD).
Proof.
  unfold validateApprovalPermission.
  destruct (Event.approvalStage event);
    rewrite ?andb_true_iff, ?bool_decide_eq_true; intuition congruence.
Qed.

(** What [processApproval] does once both rows are loaded. *)
Lemma processApproval_loaded (s : State.t) (ctx : ApprovalContext)
    (event : Event.t) (approver : User.t) :
  State.events s !! eventId ctx = Some event →
  State.users s !! approverId ctx = Some approver →
  processApproval ctx s =
    if validateApprovalPermission (User.role approver) (Event.approvalStage event)
         (User.schoolId approver) (User.departmentId approver)
         (Event.schoolId event) (Event.departmentId event)
    then transaction (processApproval_process event approver ctx) s
    else (Returned permissionDenied, s).
Proof.
  intros Hev Hap. unfold processApproval, transaction at 1, bind, gets.
  rewrite Hev, Hap. simpl.
  destruct (validateApprovalPermission _ _ _ _ _ _); reflexivity.
Qed.

(** C9. The stage successor function is the fixed linear chain: Draft,
    Submitted, HodApproved, DeanApproved, HeadApproved, Approved in
    that order; ModificationRequired goes back to Submitted; Approved
    and Rejected are their own successors, so that no number of steps
    leaves them. *)
Theorem getNextApprovalStage_chain :
  getNextApprovalStage ApprovalStage.DRAFT = ApprovalStage.SUBMITTED ∧
  getNextApprovalStage ApprovalStage.SUBMITTED = ApprovalStage.HOD_APPROVED ∧
  getNextApprovalStage ApprovalStage.HOD_APPROVED = ApprovalStage.DEAN_APPROVED ∧
  getNextApprovalStage ApprovalStage.DEAN_APPROVED = ApprovalStage.HEAD_APPROVED ∧
  getNextApprovalStage ApprovalStage.HEAD_APPROVED = ApprovalStage.APPROVED ∧
  getNextApprovalStage ApprovalStage.MODIFICATION_REQUIRED = ApprovalStage.SUBMITTED ∧
  getNextApprovalStage ApprovalStage.APPROVED = ApprovalStage.APPROVED ∧
  getNextApprovalStage ApprovalStage.REJECTED = ApprovalStage.REJECTED ∧
  (∀ n : nat,
     Nat.iter n getNextApprovalStage ApprovalStage.APPROVED = ApprovalStage.APPROVED ∧
     Nat.iter n getNextApprovalStage ApprovalStage.REJECTED = ApprovalStage.REJECTED).
Proof.
  repeat (split; [reflexivity |]).
  induction n as [| n [IHa IHr]]; simpl; [split; reflexivity |].
  rewrite IHa, IHr. split; reflexivity.
Qed.

(** C8. When the role and scope of the approver do not match the row of
    the fixed table for the current stage of the event, [processApproval]
    returns the structured permission failure (it does not throw) and
    leaves the store, hence the event, as it was.  A dean acting on an
    event that is still at Submitted is such a case. *)
Theorem processApproval_permission_denied (s : State.t) (ctx : ApprovalContext)
    (event : Event.t) (approver : User.t) :
  State.events s !! eventId ctx = Some event →
  State.users s !! approverId ctx = Some approver →
  (¬ ((Event.approvalStage event = ApprovalStage.SUBMITTED ∧
       User.role approver = Role.HOD ∧
       User.departmentId approver = Some (Event.departmentId event)) ∨
      (Event.approvalStage event = ApprovalStage.HOD_APPROVED ∧
       User.role approver = Role.DEAN ∧
       User.schoolId approver = Some (Event.schoolId event)) ∨
      (Event.approvalStage event = ApprovalStage.DEAN_APPROVED ∧
       User.role approver = Role.INSTITUTIONAL_HEAD)) →
   processApproval ctx s = (Returned permissionDenied, s)) ∧
  (Event.approvalStage event = ApprovalStage.SUBMITTED →
   User.role approver = Role.DEAN →
   processApproval ctx s = (Returned permissionDenied, s)).
Proof.
  intros Hev Hap.
  assert (Hdenied :
    ¬ ((Event.approvalStage event = ApprovalStage.SUBMITTED ∧
        User.role approver = Role.HOD ∧
        User.departmentId approver = Some (Event.departmentId event)) ∨
       (Event.approvalStage event = ApprovalStage.HOD_APPROVED ∧
        User.role approver = Role.DEAN ∧
        User.schoolId approver = Some (Event.schoolId event)) ∨
       (Event.approvalStage event = ApprovalStage.DEAN_APPROVED ∧
        User.role approver = Role.INSTITUTIONAL_HEAD)) →
    processApproval ctx s = (Returned permissionDenied, s)).
  { intros Hno. rewrite (processApproval_loaded s ctx event approver Hev Hap).
    destruct (validateApprovalPermission _ _ _ _ _ _) eqn:Hv; [| reflexivity].
    apply validateApprovalPermission_table in Hv. contradiction. }
  split; [exact Hdenied |].
  intros Hstage Hrole. apply Hdenied. rewrite Hstage, Hrole.
  intros [(_ & Hr & _) | [(Hs & _) | (Hs & _)]]; discriminate.
Qed.

Lemma processApproval_permission_denied_witness :
  Event.approvalStage (Sample.event "ev-1" ApprovalStage.SUBMITTED)
    = ApprovalStage.SUBMITTED ∧
  User.role Sample.dean = Role.DEAN ∧
  processApproval (Sample.approve "dean-1")
    (Sample.store ApprovalStage.SUBMITTED [] [] [] []) =
  (Returned permissionDenied, Sample.store ApprovalStage.SUBMITTED [] [] [] []).
Proof.
  split; [reflexivity |]. split; [reflexivity |].
  apply (proj2 (processApproval_permission_denied
                  (Sample.store ApprovalStage.SUBMITTED [] [] [] [])
                  (Sample.approve "dean-1")
                  (Sample.event "ev-1" ApprovalStage.SUBMITTED) Sample.dean
                  eq_refl eq_refl));
    reflexivity.
Defined.

(** C10. Whoever the approver is, an event whose stage is Draft,
    HeadApproved, Approved, Rejected or ModificationRequired cannot be
    acted on: [processApproval] returns the permission failure and the
    store is unchanged.  Only Submitted, HodApproved and DeanApproved
    await a human actor. *)
Theorem processApproval_only_awaiting_stages (s : State.t) (ctx : ApprovalContext)
    (event : Event.t) (approver : User.t) :
  State.events s !! eventId ctx = Some event →
  State.users s !! approverId ctx = Some approver →
  Event.approvalStage event ∈
    [ApprovalStage.DRAFT; ApprovalStage.HEAD_APPROVED; ApprovalStage.APPROVED;
     ApprovalStage.REJECTED; ApprovalStage.MODIFICATION_REQUIRED] →
  processApproval ctx s = (Returned permissionDenied, s).
Proof.
  intros Hev Hap Hstage.
  rewrite (processApproval_loaded s ctx event approver Hev Hap).
  unfold validateApprovalPermission.
  repeat (apply elem_of_cons in Hstage as [-> | Hstage]; [reflexivity |]).
  by apply elem_of_nil in Hstage.
Qed.

Lemma processApproval_only_awaiting_stages_witness :
  State.events (Sample.store ApprovalStage.HEAD_APPROVED [] [] [] []) !! "ev-1"
    = Some (Sample.event "ev-1" ApprovalStage.HEAD_APPROVED) ∧
  State.users (Sample.store ApprovalStage.HEAD_APPROVED [] [] [] []) !! "head-1"
    = Some Sample.head ∧
  processApproval (Sample.approve "head-1")
    (Sample.store ApprovalStage.HEAD_APPROVED [] [] [] []) =
  (Returned permissionDenied, Sample.store ApprovalStage.HEAD_APPROVED [] [] [] []).
Proof.
  split; [reflexivity |]. split; [reflexivity |].
  apply (processApproval_only_awaiting_stages
           (Sample.store ApprovalStage.HEAD_APPROVED [] [] [] [])
           (Sample.approve "head-1")
           (Sample.event "ev-1" ApprovalStage.HEAD_APPROVED) Sample.head
           eq_refl eq_refl).
  right; left.
Defined.

(** *** Final approval and allocation *)

#[global] Instance same_allocations_refl : Reflexive same_allocations.
Proof. intros s. repeat split. Qed.

#[global] Instance same_allocations_trans : Transitive same_allocations.
Proof. intros s1 s2 s3 (H1 & H2 & H3) (K1 & K2 & K3). repeat split; congruence. Qed.

(** No stage that the permission check lets through has Approved as its
    successor. *)
Lemma permitted_next_stage_not_final (role : Role.t) (stage : ApprovalStage.t)
    (aSchool aDept : option string) (eSchool eDept : string) :
  validateApprovalPermission role stage aSchool aDept eSchool eDept = true →
  getNextApprovalStage stage ≠ ApprovalStage.APPROVED.
Proof. destruct stage; simpl; intros Hv; (discriminate Hv || discriminate). Qed.

Lemma event_update_same_allocations (id : string) (f : Event.t → Event.t) :
  preserves same_allocations (event_update id f).
Proof. intros s. unfold event_update. destruct (State.events s !! id); repeat split. Qed.

Lemma createNotification_same_allocations userId eventId type title message data :
  preserves same_allocations
    (NotificationService.createNotification userId eventId type title message data).
Proof. apply preserves_modify. intros s. repeat split. Qed.

Lemma notifyEach_same_allocations (event : Event.t) (base : NotificationData.t)
    (approvers : list User.t) :
  preserves same_allocations (notifyEach event base approvers).
Proof.
  induction approvers as [| u rest IH]; cbn [notifyEach].
  - apply preserves_ret; apply _.
  - apply preserves_bind; [apply _ | apply createNotification_same_allocations |].
    intros _. exact IH.
Qed.

Lemma sendApprovalNotifications_same_allocations (event : Event.t)
    (action : ApprovalAction.t) (newStage : ApprovalStage.t) (approver : User.t)
    (comments : option string) :
  preserves same_allocations
    (sendApprovalNotifications event action newStage approver comments).
Proof.
  unfold sendApprovalNotifications. destruct action.
  - apply preserves_bind; [apply _ | apply createNotification_same_allocations |].
    intros _. case_decide; [| apply preserves_ret; apply _].
    destruct (getRequiredApproverRole newStage); [| apply preserves_ret; apply _].
    apply preserves_bind; [apply _ | apply preserves_gets; apply _ |].
    intros us. apply notifyEach_same_allocations.
  - apply createNotification_same_allocations.
  - apply createNotification_same_allocations.
  - apply preserves_ret; apply _.
Qed.

(** Through [processApproval] the allocation engine never runs: no
    call inserts a booking or marks a resource request. *)
Lemma processApproval_same_allocations (ctx : ApprovalContext) :
  preserves same_allocations (processApproval ctx).
Proof.
  unfold processApproval. apply preserves_transaction; [apply _ |].
  apply preserves_bind; [apply _ | apply preserves_gets; apply _ |].
  intros [event |]; [| apply preserves_throw; apply _].
  apply preserves_bind; [apply _ | apply preserves_gets; apply _ |].
  intros [approver |]; [| apply preserves_throw; apply _].
  destruct (validateApprovalPermission _ _ _ _ _ _) eqn:Hv; cbn [negb];
    [| apply preserves_ret; apply _].
  apply permitted_next_stage_not_final in Hv.
  unfold processApproval_process.
  apply preserves_bind; [apply _ | |].
  { unfold processApproval_switch.
    destruct (action ctx); try (apply preserves_ret; apply _).
    case_decide; [contradiction | apply preserves_ret; apply _]. }
  intros [t |]; [| apply preserves_ret; apply _].
  apply preserves_bind; [apply _ | apply event_update_same_allocations |]. intros _.
  apply preserves_bind; [apply _ | |].
  { apply preserves_modify. intros s. repeat split. }
  intros _. apply preserves_bind;
    [apply _ | apply sendApprovalNotifications_same_allocations |].
  intros _. apply preserves_ret; apply _.
Qed.

(** The approval of the institutional head.  For an event at
    DeanApproved and an approver who is the institutional head,
    [processApproval] with action Approved computes HeadApproved as the
    next stage, so the allocation engine is not invoked in this
    transition.  The call succeeds, the event moves to HeadApproved
    with its status unchanged, one Approved step is recorded, and the
    booking tables and resource requests are as before. *)
Lemma processApproval_head_approval (s : State.t) (ctx : ApprovalContext)
    (event : Event.t) (approver : User.t) :
  State.events s !! eventId ctx = Some event →
  State.users s !! approverId ctx = Some approver →
  Event.approvalStage event = ApprovalStage.DEAN_APPROVED →
  User.role approver = Role.INSTITUTIONAL_HEAD →
  action ctx = ApprovalAction.APPROVED →
  ∃ s',
    processApproval ctx s
      = (Returned (mkResult true (Some ApprovalStage.HEAD_APPROVED) None), s') ∧
    State.events s' =
      <[eventId ctx :=
          Event.set_rejectionReason None
            (Event.set_status (Event.status event)
               (Event.set_approvalStage ApprovalStage.HEAD_APPROVED event))]>
        (State.events s) ∧
    State.approvalSteps s' =
      State.approvalSteps s ++
        [ApprovalStep.mk (eventId ctx) (approverId ctx) ApprovalStage.HEAD_APPROVED
           ApprovalAction.APPROVED (comments ctx)] ∧
    same_allocations s s'.
Proof.
  intros Hev Hap Hstage Hrole Haction.
  rewrite (processApproval_loaded s ctx event approver Hev Hap).
  rewrite Hstage, Hrole. cbn [validateApprovalPermission].
  rewrite bool_decide_eq_true_2 by reflexivity.
  unfold transaction, processApproval_process, bind at 1, processApproval_switch.
  rewrite Haction, Hstage. cbn [getNextApprovalStage].
  case_decide; [discriminate |]. unfold ret at 1.
  unfold bind at 1. rewrite (event_update_spec _ _ _ _ Hev).
  unfold bind at 1, modify. cbn [t_action t_nextStage t_comments].
  unfold bind at 1, sendApprovalNotifications.
  unfold bind at 1, NotificationService.createNotification, modify.
  case_decide; [| contradiction]. cbn [getRequiredApproverRole]. unfold ret.
  eexists. split; [reflexivity |]. cbn.
  repeat split; reflexivity.
Qed.

Lemma processApproval_head_approval_witness :
  let s := Sample.store ApprovalStage.DEAN_APPROVED [Sample.hall60] [Sample.wantMics]
             [] [] in
  State.events s !! "ev-1" = Some (Sample.event "ev-1" ApprovalStage.DEAN_APPROVED) ∧
  State.users s !! "head-1" = Some Sample.head ∧
  User.role Sample.head = Role.INSTITUTIONAL_HEAD ∧
  ∃ s',
    processApproval (Sample.approve "head-1") s
      = (Returned (mkResult true (Some ApprovalStage.HEAD_APPROVED) None), s') ∧
    State.events s' =
      <["ev-1" :=
          Event.set_rejectionReason None
            (Event.set_status EventStatus.SUBMITTED
               (Event.set_approvalStage ApprovalStage.HEAD_APPROVED
                  (Sample.event "ev-1" ApprovalStage.DEAN_APPROVED)))]>
        (State.events s) ∧
    State.approvalSteps s' =
      State.approvalSteps s ++
        [ApprovalStep.mk "ev-1" "head-1" ApprovalStage.HEAD_APPROVED
           ApprovalAction.APPROVED (Some "ok")] ∧
    same_allocations s s'.
Proof.
  intros s. split; [reflexivity |]. split; [reflexivity |]. split; [reflexivity |].
  apply (processApproval_head_approval s (Sample.approve "head-1")
           (Sample.event "ev-1" ApprovalStage.DEAN_APPROVED) Sample.head);
    reflexivity.
Defined.

(** C2 (does not hold of the code).  The approval of the institutional
    head at DeanApproved is not the final approval, and no call of
    [processApproval] is: the branch of the code that triggers the
    allocation on the final approval is not reached.  On the sample
    store, with the event at DeanApproved, a free venue and available
    microphones, the Approved action of the head succeeds with next
    stage HeadApproved; afterwards stage and status of the event are
    not both Approved (the stage is HeadApproved, the status still
    Submitted) and no booking exists.  The allocation engine has not
    run: called in the store of the approval it throws, which would
    have made the approval throw; from the store the approval leaves,
    it would succeed.  In that store the successor of the stage is
    Approved, and a further Approved action is refused by the
    permission check, for each of the three approvers, with the store
    unchanged. *)
Theorem processApproval_head_approval_not_final :
  let s := Sample.store ApprovalStage.DEAN_APPROVED [Sample.hall60] [Sample.wantMics]
             [] [] in
  ∃ s',
    processApproval (Sample.approve "head-1") s
      = (Returned (mkResult true (Some ApprovalStage.HEAD_APPROVED) None), s') ∧
    ¬ ((Event.approvalStage <$> State.events s' !! "ev-1")
         = Some ApprovalStage.APPROVED ∧
       (Event.status <$> State.events s' !! "ev-1") = Some EventStatus.APPROVED) ∧
    (Event.approvalStage <$> State.events s' !! "ev-1")
      = Some ApprovalStage.HEAD_APPROVED ∧
    (Event.status <$> State.events s' !! "ev-1") = Some EventStatus.SUBMITTED ∧
    State.venueBookings s' = [] ∧
    State.resourceBookings s' = [] ∧
    AllocationEngine.allocateEvent "ev-1" s
      = (Threw "Event not ready for allocation", s) ∧
    (∃ result s'',
       AllocationEngine.allocateEvent "ev-1" s' = (Returned result, s'') ∧
       AllocationEngine.success result = true ∧
       State.venueBookings s'' ≠ []) ∧
    getNextApprovalStage ApprovalStage.HEAD_APPROVED = ApprovalStage.APPROVED ∧
    processApproval (Sample.approve "head-1") s'
      = (Returned (mkResult false None
                     (Some "Insufficient permissions to approve this event")), s') ∧
    processApproval (Sample.approve "dean-1") s'
      = (Returned (mkResult false None
                     (Some "Insufficient permissions to approve this event")), s') ∧
    processApproval (Sample.approve "hod-1") s'
      = (Returned (mkResult false None
                     (Some "Insufficient permissions to approve this event")), s').
Proof.
  intros s. eexists. split; [vm_compute; reflexivity |].
  split; [intros [Hstage _]; vm_compute in Hstage; discriminate Hstage |].
  do 5 (split; [vm_compute; reflexivity |]).
  split.
  { eexists _, _. split; [vm_compute; reflexivity |]. split; [reflexivity |].
    vm_compute. discriminate. }
  split; [reflexivity |].
  split; [vm_compute; reflexivity |]. split; vm_compute; reflexivity.
Qed.

(** The downgrade branch.  In the part of [processApproval] that
    processes the action, when the action is Approved, the computed
    next stage is the terminal Approved stage and the allocation
    returns a failure, the transition is downgraded: the event keeps
    the stage it had before the transition, its status becomes
    Submitted, and the approval step that is recorded carries the
    action ModificationRequired with the explanation of the allocation
    failure as its comments.  (This is the code of the branch; by
    [permitted_next_stage_not_final] the permission check of a complete
    call lets no such stage through.) *)
Lemma processApproval_allocation_failure_downgrades (s s1 : State.t)
    (ctx : ApprovalContext) (event : Event.t) (approver : User.t)
    (result : AllocationEngine.AllocationResult) :
  State.events s !! eventId ctx = Some event →
  action ctx = ApprovalAction.APPROVED →
  getNextApprovalStage (Event.approvalStage event) = ApprovalStage.APPROVED →
  AllocationEngine.allocateEvent (eventId ctx) s = (Returned result, s1) →
  AllocationEngine.success result = false →
  ∃ s',
    processApproval_process event approver ctx s
      = (Returned (mkResult true (Some (Event.approvalStage event)) None), s') ∧
    (∃ e', State.events s' !! eventId ctx = Some e' ∧
           Event.approvalStage e' = Event.approvalStage event ∧
           Event.status e' = EventStatus.SUBMITTED) ∧
    State.approvalSteps s' =
      State.approvalSteps s ++
        [ApprovalStep.mk (eventId ctx) (approverId ctx) (Event.approvalStage event)
           ApprovalAction.MODIFICATION_REQUIRED
           (Some ("Allocation failed: "
                    +:+ show_undefined (AllocationEngine.explanation result)))].
Proof.
  intros Hev Haction Hnext Halloc Hfail.
  destruct (allocateEvent_failure_frame _ _ _ _ Halloc Hfail)
    as (Hevents & _ & _ & Hsteps & _ & _).
  assert (Hev1 : State.events s1 !! eventId ctx = Some event) by by rewrite Hevents.
  unfold processApproval_process, bind at 1, processApproval_switch.
  rewrite Haction. case_decide; [| contradiction].
  unfold bind at 1. rewrite Halloc, Hfail. unfold ret at 1.
  unfold bind at 1. rewrite (event_update_spec _ _ _ _ Hev1).
  unfold bind at 1, modify. cbn [t_action t_nextStage t_comments].
  unfold bind at 1, sendApprovalNotifications,
    NotificationService.createNotification, modify, ret.
  eexists. split; [reflexivity |]. cbn [State.events State.approvalSteps
    State.with_notifications State.with_approvalSteps State.with_events].
  split.
  - eexists. split; [apply lookup_insert_eq |]. split; reflexivity.
  - by rewrite Hsteps.
Qed.

Lemma processApproval_allocation_failure_downgrades_witness :
  let s := Sample.store ApprovalStage.HEAD_APPROVED [] [] [] [] in
  let event := Sample.event "ev-1" ApprovalStage.HEAD_APPROVED in
  let result :=
    AllocationEngine.mkResult false None None
      (Some [AllocationEngine.mkConflict AllocationEngine.venue_unavailable []
               "No suitable venues available"
               (Some ["Consider reducing participant count";
                      "Choose different time slot"])])
      (Some "Venue allocation failed: No venues found with capacity >= 50") in
  AllocationEngine.allocateEvent "ev-1" s = (Returned result, s) ∧
  ∃ s',
    processApproval_process event Sample.head (Sample.approve "head-1") s
      = (Returned (mkResult true (Some ApprovalStage.HEAD_APPROVED) None), s') ∧
    (∃ e', State.events s' !! "ev-1" = Some e' ∧
           Event.approvalStage e' = ApprovalStage.HEAD_APPROVED ∧
           Event.status e' = EventStatus.SUBMITTED) ∧
    State.approvalSteps s' =
      [ApprovalStep.mk "ev-1" "head-1" ApprovalStage.HEAD_APPROVED
         ApprovalAction.MODIFICATION_REQUIRED
         (Some "Allocation failed: Venue allocation failed: No venues found with capacity >= 50")].
Proof.
  intros s event result.
  assert (Halloc : AllocationEngine.allocateEvent "ev-1" s = (Returned result, s))
    by (vm_compute; reflexivity).
  split; [exact Halloc |].
  apply (processApproval_allocation_failure_downgrades s s
           (Sample.approve "head-1") event Sample.head result);
    [reflexivity | reflexivity | reflexivity | exact Halloc | reflexivity].
Defined.


(** ** More of the approval engine *)

Import ApprovalEngine.

Lemma with_notifications_app (a b : list Notification.t) (s : State.t) :
  State.with_notifications (λ l, l ++ b) (State.with_notifications (λ l, l ++ a) s)
  = State.with_notifications (λ l, l ++ (a ++ b)) s.
Proof. unfold State.with_notifications. cbn. by rewrite app_assoc. Qed.

Lemma with_notifications_nil (s : State.t) :
  State.with_notifications (λ l, l ++ []) s = s.
Proof. destruct s. unfold State.with_notifications. cbn. by rewrite app_nil_r. Qed.

(** A [findMany] on a table kept by primary key returns each matching
    row once: the rows are those at pairwise distinct keys, and a key
    is among them exactly when its row matches. *)
Lemma table_rows {A} (m : gmap string A) (P : A → Prop) `{!∀ x, Decision (P x)} :
  ∃ keys,
    NoDup keys ∧
    (∀ k, k ∈ keys ↔ ∃ x, m !! k = Some x ∧ P x) ∧
    Forall2 (λ k x, m !! k = Some x) keys (filter P (map_to_list m).*2).
Proof.
  assert (Hfilter : ∀ l : list (string * A),
            filter P l.*2 = (filter (λ kx, P kx.2) l).*2).
  { induction l as [| [k x] l IH]; [reflexivity |].
    rewrite fmap_cons, !filter_cons. cbn [snd]. rewrite IH.
    by destruct (decide (P x)). }
  exists (filter (λ kx, P kx.2) (map_to_list m)).*1. split; [| split].
  - apply (sublist_NoDup _ (map_to_list m).*1); [apply NoDup_fst_map_to_list |].
    apply fmap_sublist, sublist_filter.
  - intros k. rewrite list_elem_of_fmap. split.
    + intros ([k' x] & -> & [Hp Hin%elem_of_map_to_list]%list_elem_of_filter). eauto.
    + intros (x & Hk & Hp). exists (k, x). split; [done |].
      apply list_elem_of_filter. split; [done |]. by apply elem_of_map_to_list.
  - rewrite Hfilter. apply Forall2_fmap, Forall_Forall2_diag, Forall_forall.
    intros [k x] [_ Hin%elem_of_map_to_list]%list_elem_of_filter. exact Hin.
Qed.

Lemma notifyEach_run (event : Event.t) (base : NotificationData.t)
    (approvers : list User.t) (s : State.t) :
  ∃ sent,
    notifyEach event base approvers s
      = (Returned tt, State.with_notifications (λ l, l ++ sent) s) ∧
    Notification.userId <$> sent = User.id <$> approvers ∧
    Forall (λ n, Notification.type n = "EVENT_SUBMITTED" ∧
                 Notification.eventId n = Some (Event.id event) ∧
                 Notification.isRead n = false) sent.
Proof.
  revert s. induction approvers as [| u rest IH]; intros s; cbn [notifyEach].
  - exists []. split; [by rewrite with_notifications_nil |]. split; [done | constructor].
  - unfold bind, NotificationService.createNotification, modify.
    match goal with
    | |- context [notifyEach event base rest ?s0] =>
        destruct (IH s0) as (sent & Hrun & Hids & Hall)
    end.
    rewrite Hrun, with_notifications_app. eexists. split; [reflexivity |].
    split; [cbn; by rewrite Hids |]. constructor; [done | exact Hall].
Qed.

(** The users that [sendApprovalNotifications] addresses after the
    coordinator. *)
Lemma sendApprovalNotifications_run (event : Event.t) (action : ApprovalAction.t)
    (newStage : ApprovalStage.t) (approver : User.t) (comments : option string)
    (s : State.t) :
  ∃ sent,
    sendApprovalNotifications event action newStage approver comments s
      = (Returned tt, State.with_notifications (λ l, l ++ sent) s) ∧
    Notification.userId <$> sent =
      match action with
      | ApprovalAction.APPROVED =>
          Event.coordinatorId event ::
          match newStage with
          | ApprovalStage.HOD_APPROVED => User.id <$> nextApprovers s Role.DEAN event
          | ApprovalStage.DEAN_APPROVED =>
              User.id <$> nextApprovers s Role.INSTITUTIONAL_HEAD event
          | ApprovalStage.SUBMITTED => User.id <$> nextApprovers s Role.HOD event
          | _ => []
          end
      | ApprovalAction.REJECTED | ApprovalAction.MODIFICATION_REQUIRED =>
          [Event.coordinatorId event]
      | ApprovalAction.SUBMITTED => []
      end.
Proof.
  unfold sendApprovalNotifications. destruct action.
  - unfold bind at 1, NotificationService.createNotification at 1, modify.
    set (first := Notification.mk _ _ _ _ _ _ _).
    set (base := NotificationData.mk _ _ _ _).
    assert (Hnone : ∃ sent,
              ret tt (State.with_notifications (λ l, l ++ [first]) s)
                = (Returned tt, State.with_notifications (λ l, l ++ sent) s) ∧
              Notification.userId <$> sent = [Event.coordinatorId event]).
    { exists [first]. split; reflexivity. }
    assert (Hsome : ∀ role,
              ∃ sent,
                bind (gets (λ s0, nextApprovers s0 role event))
                     (notifyEach event base)
                     (State.with_notifications (λ l, l ++ [first]) s)
                  = (Returned tt, State.with_notifications (λ l, l ++ sent) s) ∧
                Notification.userId <$> sent =
                  Event.coordinatorId event :: (User.id <$> nextApprovers s role event)).
    { intros role. unfold bind, gets.
      destruct (notifyEach_run event base
                  (nextApprovers (State.with_notifications (λ l, l ++ [first]) s) role event)
                  (State.with_notifications (λ l, l ++ [first]) s))
        as (sent & Hrun & Hids & _).
      rewrite Hrun, with_notifications_app. eexists. split; [reflexivity |].
      rewrite fmap_app, Hids. reflexivity. }
    destruct newStage; cbn [getRequiredApproverRole];
      case_decide as Hfinal; try discriminate Hfinal; try contradiction;
      first [exact Hnone | apply Hsome].
  - unfold NotificationService.createNotification, modify. eexists. split; reflexivity.
  - unfold NotificationService.createNotification, modify. eexists. split; reflexivity.
  - exists []. split; [by rewrite with_notifications_nil | reflexivity].
Qed.

(** A permitted call whose [switch] settles on the transition [t]
    without touching the store: the event is updated, one step is
    appended, the notifications are appended, nothing else changes. *)
Lemma processApproval_run (s : State.t) (ctx : ApprovalContext) (event : Event.t)
    (approver : User.t) (t : Transition) :
  State.events s !! eventId ctx = Some event →
  State.users s !! approverId ctx = Some approver →
  validateApprovalPermission (User.role approver) (Event.approvalStage event)
    (User.schoolId approver) (User.departmentId approver)
    (Event.schoolId event) (Event.departmentId event) = true →
  processApproval_switch event (action ctx) (comments ctx) (eventId ctx) s
    = (Returned (Some t), s) →
  ∃ sent,
    processApproval ctx s =
      (Returned (mkResult true (Some (t_nextStage t)) None),
       State.with_notifications (λ l, l ++ sent)
         (State.with_approvalSteps
            (λ l, l ++ [ApprovalStep.mk (eventId ctx) (approverId ctx) (t_nextStage t)
                          (t_action t) (t_comments t)])
            (State.with_events (<[eventId ctx := approvalUpdate t event]>) s))) ∧
    Notification.userId <$> sent =
      match t_action t with
      | ApprovalAction.APPROVED =>
          Event.coordinatorId event ::
          match t_nextStage t with
          | ApprovalStage.HOD_APPROVED => User.id <$> nextApprovers s Role.DEAN event
          | ApprovalStage.DEAN_APPROVED =>
              User.id <$> nextApprovers s Role.INSTITUTIONAL_HEAD event
          | ApprovalStage.SUBMITTED => User.id <$> nextApprovers s Role.HOD event
          | _ => []
          end
      | ApprovalAction.REJECTED | ApprovalAction.MODIFICATION_REQUIRED =>
          [Event.coordinatorId event]
      | ApprovalAction.SUBMITTED => []
      end.
Proof.
  intros Hev Hap Hv Hswitch.
  rewrite (processApproval_loaded s ctx event approver Hev Hap), Hv.
  unfold transaction, processApproval_process, bind at 1. rewrite Hswitch.
  unfold bind at 1. rewrite (event_update_spec _ _ _ _ Hev).
  unfold bind at 1, modify.
  match goal with
  | |- context [sendApprovalNotifications ?e ?a ?n ?u ?c] =>
      match goal with
      | |- context [bind (sendApprovalNotifications e a n u c) _ ?s0] =>
          destruct (sendApprovalNotifications_run e a n u c s0) as (sent & Hsend & Hids)
      end
  end.
  unfold bind. rewrite Hsend. unfold ret.
  exists sent. split; [reflexivity | exact Hids].
Qed.

(** When the event is not a draft, [submitEventForApproval] refuses,
    whoever calls it, and writes nothing. *)
Lemma submitEventForApproval_not_draft (departmentName : string → string)
    (eventId coordinatorId : string) (event : Event.t) (s : State.t) :
  State.events s !! eventId = Some event →
  Event.status event ≠ EventStatus.DRAFT →
  ∃ err,
    Submission.submitEventForApproval departmentName eventId coordinatorId s
      = (Returned (Submission.mkResult false (Some err)), s).
Proof.
  intros Hev Hst. unfold Submission.submitEventForApproval, transaction, bind, gets.
  rewrite Hev. case_decide; [eexists; reflexivity |].
  case_decide; [eexists; reflexivity | contradiction].
Qed.

Lemma processApproval_closed (s : State.t) (ctx : ApprovalContext) (event : Event.t)
    (approver : User.t) :
  State.events s !! eventId ctx = Some event →
  State.users s !! approverId ctx = Some approver →
  Event.approvalStage event = ApprovalStage.REJECTED ∨
  Event.approvalStage event = ApprovalStage.MODIFICATION_REQUIRED ∨
  Event.approvalStage event = ApprovalStage.HEAD_APPROVED ∨
  Event.approvalStage event = ApprovalStage.APPROVED →
  processApproval ctx s = (Returned permissionDenied, s).
Proof.
  intros Hev Hap Hstage. rewrite (processApproval_loaded s ctx event approver Hev Hap).
  destruct Hstage as [-> | [-> | [-> | ->]]]; reflexivity.
Qed.

Lemma processApproval_approve_run (s : State.t) (ctx : ApprovalContext)
    (event : Event.t) (approver : User.t) :
  State.events s !! eventId ctx = Some event →
  State.users s !! approverId ctx = Some approver →
  validateApprovalPermission (User.role approver) (Event.approvalStage event)
    (User.schoolId approver) (User.departmentId approver)
    (Event.schoolId event) (Event.departmentId event) = true →
  action ctx = ApprovalAction.APPROVED →
  let next := getNextApprovalStage (Event.approvalStage event) in
  ∃ sent,
    processApproval ctx s =
      (Returned (mkResult true (Some next) None),
       State.with_notifications (λ l, l ++ sent)
         (State.with_approvalSteps
            (λ l, l ++ [ApprovalStep.mk (eventId ctx) (approverId ctx) next
                          ApprovalAction.APPROVED (comments ctx)])
            (State.with_events
               (<[eventId ctx :=
                    Event.set_rejectionReason None
                      (Event.set_status (Event.status event)
                         (Event.set_approvalStage next event))]>) s))).
Proof.
  intros Hev Hap Hv Haction next.
  pose proof (permitted_next_stage_not_final _ _ _ _ _ _ Hv) as Hnot.
  destruct (processApproval_run s ctx event approver
              (mkTransition next (Event.status event) ApprovalAction.APPROVED (comments ctx))
              Hev Hap Hv) as (sent & Hrun & _).
  { unfold processApproval_switch. rewrite Haction. fold next.
    case_decide; [contradiction | reflexivity]. }
  exists sent. exact Hrun.
Qed.

(** X3.  A permitted Approved action moves the event exactly one stage
    along the chain, to HodApproved, DeanApproved or HeadApproved; its
    status is kept and its rejection reason cleared; one step with the
    new stage is appended; users, venues, bookings and resource
    requests are untouched. *)
Theorem processApproval_approve_advances (s : State.t) (ctx : ApprovalContext)
    (event : Event.t) (approver : User.t) :
  State.events s !! eventId ctx = Some event →
  State.users s !! approverId ctx = Some approver →
  validateApprovalPermission (User.role approver) (Event.approvalStage event)
    (User.schoolId approver) (User.departmentId approver)
    (Event.schoolId event) (Event.departmentId event) = true →
  action ctx = ApprovalAction.APPROVED →
  let next := getNextApprovalStage (Event.approvalStage event) in
  ∃ s',
    processApproval ctx s = (Returned (mkResult true (Some next) None), s') ∧
    next ∈ [ApprovalStage.HOD_APPROVED; ApprovalStage.DEAN_APPROVED;
            ApprovalStage.HEAD_APPROVED] ∧
    State.events s' =
      <[eventId ctx :=
          Event.mk (Event.id event) (Event.title event) (Event.scheduleStart event)
            (Event.scheduleEnd event) (Event.participantCount event)
            (Event.venueTypePreference event) (Event.schoolId event)
            (Event.departmentId event) (Event.coordinatorId event)
            (Event.status event) next None]> (State.events s) ∧
    State.approvalSteps s' =
      State.approvalSteps s ++
        [ApprovalStep.mk (eventId ctx) (approverId ctx) next ApprovalAction.APPROVED
           (comments ctx)] ∧
    State.users s' = State.users s ∧
    State.venues s' = State.venues s ∧
    same_allocations s s'.
Proof.
  intros Hev Hap Hv Haction next.
  pose proof (permitted_next_stage_not_final _ _ _ _ _ _ Hv) as Hnot.
  destruct (processApproval_run s ctx event approver
              (mkTransition next (Event.status event) ApprovalAction.APPROVED (comments ctx))
              Hev Hap Hv) as (sent & Hrun & _).
  { unfold processApproval_switch. rewrite Haction. fold next.
    case_decide; [contradiction | reflexivity]. }
  eexists. split; [exact Hrun |]. split.
  { unfold validateApprovalPermission in Hv. subst next.
    destruct (Event.approvalStage event); try discriminate Hv; cbn;
      [left | right; left | right; right; left]. }
  repeat split; reflexivity.
Qed.

Lemma processApproval_approve_advances_witness :
  let s := Sample.store ApprovalStage.SUBMITTED [] [Sample.wantMics] [] [] in
  State.events s !! "ev-1" = Some (Sample.event "ev-1" ApprovalStage.SUBMITTED) ∧
  State.users s !! "hod-1" = Some Sample.hod ∧
  validateApprovalPermission Role.HOD ApprovalStage.SUBMITTED (Some "school-1")
    (Some "dept-1") "school-1" "dept-1" = true ∧
  ∃ s',
    processApproval (Sample.approve "hod-1") s
      = (Returned (mkResult true (Some ApprovalStage.HOD_APPROVED) None), s') ∧
    State.events s' !! "ev-1" = Some (Sample.event "ev-1" ApprovalStage.HOD_APPROVED) ∧
    State.approvalSteps s' =
      [ApprovalStep.mk "ev-1" "hod-1" ApprovalStage.HOD_APPROVED ApprovalAction.APPROVED
         (Some "ok")] ∧
    same_allocations s s'.
Proof.
  intros s. split; [reflexivity |]. split; [reflexivity |]. split; [reflexivity |].
  destruct (processApproval_approve_advances s (Sample.approve "hod-1")
              (Sample.event "ev-1" ApprovalStage.SUBMITTED) Sample.hod)
    as (s' & Hrun & _ & Hev & Hsteps & _ & _ & Hsame); try reflexivity.
  exists s'. split; [exact Hrun |]. split; [rewrite Hev; reflexivity |].
  split; [exact Hsteps | exact Hsame].
Defined.

(** X4.  A permitted Rejected action makes the event Rejected (stage and
    status) and records the comments as its rejection reason; without
    comments the reason it had is kept.  From then on the event is
    closed: every further [processApproval] on it is refused and
    [submitEventForApproval] fails, neither writing anything. *)
Theorem processApproval_reject_is_final (s : State.t) (ctx : ApprovalContext)
    (event : Event.t) (approver : User.t) :
  State.events s !! eventId ctx = Some event →
  State.users s !! approverId ctx = Some approver →
  validateApprovalPermission (User.role approver) (Event.approvalStage event)
    (User.schoolId approver) (User.departmentId approver)
    (Event.schoolId event) (Event.departmentId event) = true →
  action ctx = ApprovalAction.REJECTED →
  ∃ s' event',
    processApproval ctx s
      = (Returned (mkResult true (Some ApprovalStage.REJECTED) None), s') ∧
    State.events s' !! eventId ctx = Some event' ∧
    Event.approvalStage event' = ApprovalStage.REJECTED ∧
    Event.status event' = EventStatus.REJECTED ∧
    Event.rejectionReason event' =
      match comments ctx with
      | Some reason => Some reason
      | None => Event.rejectionReason event
      end ∧
    State.approvalSteps s' =
      State.approvalSteps s ++
        [ApprovalStep.mk (eventId ctx) (approverId ctx) ApprovalStage.REJECTED
           ApprovalAction.REJECTED (comments ctx)] ∧
    (∀ ctx' approver',
       eventId ctx' = eventId ctx →
       State.users s' !! approverId ctx' = Some approver' →
       processApproval ctx' s' = (Returned permissionDenied, s')) ∧
    (∀ departmentName coordinatorId,
       ∃ err,
         Submission.submitEventForApproval departmentName (eventId ctx) coordinatorId s'
           = (Returned (Submission.mkResult false (Some err)), s')).
Proof.
  intros Hev Hap Hv Haction.
  destruct (processApproval_run s ctx event approver
              (mkTransition ApprovalStage.REJECTED EventStatus.REJECTED
                 ApprovalAction.REJECTED (comments ctx))
              Hev Hap Hv) as (sent & Hrun & _).
  { unfold processApproval_switch. rewrite Haction. reflexivity. }
  eexists _, _. split; [exact Hrun |].
  split; [cbn; apply lookup_insert_eq |].
  unfold approvalUpdate. cbn [t_action t_comments t_nextStage t_eventStatus].
  case_decide; [| contradiction].
  split; [by destruct (comments ctx) |]. split; [by destruct (comments ctx) |].
  split; [by destruct (comments ctx) |]. split; [reflexivity |]. split.
  - intros ctx' approver' Hid Hap'.
    eapply processApproval_closed; [| exact Hap' |].
    + rewrite Hid. cbn. apply lookup_insert_eq.
    + left. by destruct (comments ctx).
  - intros departmentName coordinatorId.
    eapply submitEventForApproval_not_draft; [cbn; apply lookup_insert_eq |].
    by destruct (comments ctx).
Qed.

Lemma processApproval_reject_is_final_witness :
  let s := Sample.store ApprovalStage.SUBMITTED [] [Sample.wantMics] [] [] in
  let ctx := mkContext "hod-1" ApprovalAction.REJECTED (Some "Clashes with exams") "ev-1" in
  State.events s !! "ev-1" = Some (Sample.event "ev-1" ApprovalStage.SUBMITTED) ∧
  State.users s !! "hod-1" = Some Sample.hod ∧
  validateApprovalPermission Role.HOD ApprovalStage.SUBMITTED (Some "school-1")
    (Some "dept-1") "school-1" "dept-1" = true ∧
  ∃ s' event',
    processApproval ctx s
      = (Returned (mkResult true (Some ApprovalStage.REJECTED) None), s') ∧
    State.events s' !! "ev-1" = Some event' ∧
    Event.approvalStage event' = ApprovalStage.REJECTED ∧
    Event.status event' = EventStatus.REJECTED ∧
    Event.rejectionReason event' = Some "Clashes with exams" ∧
    processApproval (Sample.approve "dean-1") s' = (Returned permissionDenied, s') ∧
    ∃ err,
      Submission.submitEventForApproval (λ d, d) "ev-1" "coord-1" s'
        = (Returned (Submission.mkResult false (Some err)), s').
Proof.
  intros s ctx. split; [reflexivity |]. split; [reflexivity |]. split; [reflexivity |].
  destruct (processApproval_reject_is_final s ctx
              (Sample.event "ev-1" ApprovalStage.SUBMITTED) Sample.hod)
    as (s' & event' & Hrun & Hev & Hstage & Hstatus & Hreason & _ & Hclosed & Hsubmit);
    try reflexivity.
  exists s', event'. repeat (split; [assumption |]). split.
  - apply (Hclosed (Sample.approve "dean-1") Sample.dean); [reflexivity |].
    replace s' with (processApproval ctx s).2 by (rewrite Hrun; reflexivity).
    vm_compute. reflexivity.
  - apply Hsubmit.
Defined.

(** X5.  A permitted ModificationRequired action sets the stage to
    ModificationRequired and the status to Submitted and clears the
    rejection reason.  Neither operation of the engine can then move
    the event: [processApproval] is refused for everyone, and
    [submitEventForApproval] fails because the status is not Draft. *)
Theorem processApproval_modification_has_no_way_back (s : State.t)
    (ctx : ApprovalContext) (event : Event.t) (approver : User.t) :
  State.events s !! eventId ctx = Some event →
  State.users s !! approverId ctx = Some approver →
  validateApprovalPermission (User.role approver) (Event.approvalStage event)
    (User.schoolId approver) (User.departmentId approver)
    (Event.schoolId event) (Event.departmentId event) = true →
  action ctx = ApprovalAction.MODIFICATION_REQUIRED →
  ∃ s' event',
    processApproval ctx s
      = (Returned (mkResult true (Some ApprovalStage.MODIFICATION_REQUIRED) None), s') ∧
    State.events s' !! eventId ctx = Some event' ∧
    Event.approvalStage event' = ApprovalStage.MODIFICATION_REQUIRED ∧
    Event.status event' = EventStatus.SUBMITTED ∧
    Event.rejectionReason event' = None ∧
    State.approvalSteps s' =
      State.approvalSteps s ++
        [ApprovalStep.mk (eventId ctx) (approverId ctx)
           ApprovalStage.MODIFICATION_REQUIRED ApprovalAction.MODIFICATION_REQUIRED
           (comments ctx)] ∧
    (∀ ctx' approver',
       eventId ctx' = eventId ctx →
       State.users s' !! approverId ctx' = Some approver' →
       processApproval ctx' s' = (Returned permissionDenied, s')) ∧
    (∀ departmentName coordinatorId,
       ∃ err,
         Submission.submitEventForApproval departmentName (eventId ctx) coordinatorId s'
           = (Returned (Submission.mkResult false (Some err)), s')).
Proof.
  intros Hev Hap Hv Haction.
  destruct (processApproval_run s ctx event approver
              (mkTransition ApprovalStage.MODIFICATION_REQUIRED EventStatus.SUBMITTED
                 ApprovalAction.MODIFICATION_REQUIRED (comments ctx))
              Hev Hap Hv) as (sent & Hrun & _).
  { unfold processApproval_switch. rewrite Haction. reflexivity. }
  eexists _, _. split; [exact Hrun |].
  split; [cbn; apply lookup_insert_eq |].
  unfold approvalUpdate. cbn [t_action t_comments t_nextStage t_eventStatus].
  case_decide; [discriminate |].
  repeat (split; [reflexivity |]). split.
  - intros ctx' approver' Hid Hap'.
    eapply processApproval_closed; [| exact Hap' |].
    + rewrite Hid. cbn. apply lookup_insert_eq.
    + right. by left.
  - intros departmentName coordinatorId.
    eapply submitEventForApproval_not_draft; [cbn; apply lookup_insert_eq |].
    discriminate.
Qed.

Lemma processApproval_modification_has_no_way_back_witness :
  let s := Sample.store ApprovalStage.HOD_APPROVED [] [Sample.wantMics] [] [] in
  let ctx := mkContext "dean-1" ApprovalAction.MODIFICATION_REQUIRED
               (Some "Shorten the schedule") "ev-1" in
  State.events s !! "ev-1" = Some (Sample.event "ev-1" ApprovalStage.HOD_APPROVED) ∧
  State.users s !! "dean-1" = Some Sample.dean ∧
  validateApprovalPermission Role.DEAN ApprovalStage.HOD_APPROVED (Some "school-1")
    None "school-1" "dept-1" = true ∧
  ∃ s' event',
    processApproval ctx s
      = (Returned (mkResult true (Some ApprovalStage.MODIFICATION_REQUIRED) None), s') ∧
    State.events s' !! "ev-1" = Some event' ∧
    Event.approvalStage event' = ApprovalStage.MODIFICATION_REQUIRED ∧
    Event.status event' = EventStatus.SUBMITTED ∧
    processApproval (Sample.approve "hod-1") s' = (Returned permissionDenied, s') ∧
    ∃ err,
      Submission.submitEventForApproval (λ d, d) "ev-1" "coord-1" s'
        = (Returned (Submission.mkResult false (Some err)), s').
Proof.
  intros s ctx. split; [reflexivity |]. split; [reflexivity |]. split; [reflexivity |].
  destruct (processApproval_modification_has_no_way_back s ctx
              (Sample.event "ev-1" ApprovalStage.HOD_APPROVED) Sample.dean)
    as (s' & event' & Hrun & Hev & Hstage & Hstatus & _ & _ & Hclosed & Hsubmit);
    try reflexivity.
  exists s', event'. repeat (split; [assumption |]). split.
  - apply (Hclosed (Sample.approve "hod-1") Sample.hod); [reflexivity |].
    replace s' with (processApproval ctx s).2 by (rewrite Hrun; reflexivity).
    vm_compute. reflexivity.
  - apply Hsubmit.
Defined.

(** X6.  Who is told about an approval.  After a permitted Approved
    action the coordinator of the event gets one notification, followed
    by exactly one for each next approver: the rows added to the
    notification table are addressed to the coordinator and then to the
    users [next], which are the rows of the user table at the pairwise
    distinct keys [keys], and a key is among them exactly when its user
    is active and is, after the approval of a head of department, a
    dean of the school of the event, or, after the approval of a dean,
    an institutional head.  After the approval of the institutional
    head nobody but the coordinator is told. *)
Theorem processApproval_approve_notifies (s : State.t) (ctx : ApprovalContext)
    (event : Event.t) (approver : User.t) :
  State.events s !! eventId ctx = Some event →
  State.users s !! approverId ctx = Some approver →
  validateApprovalPermission (User.role approver) (Event.approvalStage event)
    (User.schoolId approver) (User.departmentId approver)
    (Event.schoolId event) (Event.departmentId event) = true →
  action ctx = ApprovalAction.APPROVED →
  let isNext (u : User.t) :=
    User.isActive u = true ∧
    ((Event.approvalStage event = ApprovalStage.SUBMITTED ∧
      User.role u = Role.DEAN ∧ User.schoolId u = Some (Event.schoolId event)) ∨
     (Event.approvalStage event = ApprovalStage.HOD_APPROVED ∧
      User.role u = Role.INSTITUTIONAL_HEAD)) in
  ∃ sent keys next,
    State.notifications (processApproval ctx s).2 = State.notifications s ++ sent ∧
    Notification.userId <$> sent = Event.coordinatorId event :: (User.id <$> next) ∧
    length sent = S (length keys) ∧
    NoDup keys ∧
    Forall2 (λ k u, State.users s !! k = Some u) keys next ∧
    (∀ k, k ∈ keys ↔ ∃ u, State.users s !! k = Some u ∧ isNext u) ∧
    (∀ u, u ∈ next ↔ (∃ k, State.users s !! k = Some u) ∧ isNext u).
Proof.
  intros Hev Hap Hv Haction isNext.
  pose proof (permitted_next_stage_not_final _ _ _ _ _ _ Hv) as Hnot.
  destruct (processApproval_run s ctx event approver
              (mkTransition (getNextApprovalStage (Event.approvalStage event))
                 (Event.status event) ApprovalAction.APPROVED (comments ctx))
              Hev Hap Hv) as (sent & Hrun & Hids).
  { unfold processApproval_switch. rewrite Haction.
    case_decide; [contradiction | reflexivity]. }
  rewrite Hrun. cbn [snd State.notifications State.with_notifications
    State.with_approvalSteps State.with_events]. cbn [t_action t_nextStage] in Hids.
  assert (Hrows : ∀ role,
            (∀ u, isNext u ↔
                  User.role u = role ∧ User.isActive u = true ∧
                  (role = Role.HOD → User.departmentId u = Some (Event.departmentId event)) ∧
                  (role = Role.DEAN → User.schoolId u = Some (Event.schoolId event))) →
            Notification.userId <$> sent
              = Event.coordinatorId event :: (User.id <$> nextApprovers s role event) →
            ∃ keys next,
              State.notifications s ++ sent = State.notifications s ++ sent ∧
              Notification.userId <$> sent
                = Event.coordinatorId event :: (User.id <$> next) ∧
              length sent = S (length keys) ∧
              NoDup keys ∧
              Forall2 (λ k u, State.users s !! k = Some u) keys next ∧
              (∀ k, k ∈ keys ↔ ∃ u, State.users s !! k = Some u ∧ isNext u) ∧
              (∀ u, u ∈ next ↔ (∃ k, State.users s !! k = Some u) ∧ isNext u)).
  { intros role Hrole Hsent. unfold nextApprovers in Hsent.
    match type of Hsent with
    | context [filter ?P _] =>
        destruct (table_rows (State.users s) P) as (keys & Hnodup & Hkeys & Hall)
    end.
    eexists keys, _. split; [reflexivity |]. split; [exact Hsent |].
    split.
    { rewrite <- (length_fmap Notification.userId), Hsent. cbn. rewrite length_fmap.
      by rewrite (Forall2_length _ _ _ Hall). }
    split; [exact Hnodup |]. split; [exact Hall |]. split.
    - intros k. rewrite Hkeys. by setoid_rewrite Hrole.
    - intros u. rewrite list_elem_of_filter, list_elem_of_fmap, Hrole. split.
      + intros [Hu ([k u'] & -> & Hin)]. apply elem_of_map_to_list in Hin. eauto.
      + intros [(k & Hk) Hu]. split; [exact Hu |].
        exists (k, u). split; [done |]. by apply elem_of_map_to_list. }
  unfold validateApprovalPermission in Hv.
  destruct (Event.approvalStage event) eqn:Hstage; try discriminate Hv;
    cbn [getNextApprovalStage] in Hids.
  - destruct (Hrows Role.DEAN) as (keys & next & H); [| exact Hids | by exists sent, keys, next].
    intros u. unfold isNext. split.
    + intros (Ha & [(_ & Hr & Hs) | (Hcontra & _)]); [| discriminate].
      repeat split; try done; intros ?; congruence.
    + intros (Hr & Ha & _ & Hs). split; [done |]. left. auto.
  - destruct (Hrows Role.INSTITUTIONAL_HEAD) as (keys & next & H);
      [| exact Hids | by exists sent, keys, next].
    intros u. unfold isNext. split.
    + intros (Ha & [(Hcontra & _) | (_ & Hr)]); [discriminate |].
      repeat split; try done; intros ?; congruence.
    + intros (Hr & Ha & _ & _). split; [done |]. right. auto.
  - exists sent, [], []. split; [reflexivity |]. split; [exact Hids |].
    split; [by rewrite <- (length_fmap Notification.userId), Hids |].
    split; [constructor |]. split; [constructor |]. split.
    + intros k. split; [by intros ?%elem_of_nil |].
      intros (u & _ & _ & [(Hcontra & _) | (Hcontra & _)]); discriminate.
    + intros u. split; [by intros ?%elem_of_nil |].
      intros (_ & _ & [(Hcontra & _) | (Hcontra & _)]); discriminate.
Qed.

Lemma processApproval_approve_notifies_witness :
  let s := Sample.store ApprovalStage.SUBMITTED [] [Sample.wantMics] [] [] in
  State.events s !! "ev-1" = Some (Sample.event "ev-1" ApprovalStage.SUBMITTED) ∧
  State.users s !! "hod-1" = Some Sample.hod ∧
  validateApprovalPermission Role.HOD ApprovalStage.SUBMITTED (Some "school-1")
    (Some "dept-1") "school-1" "dept-1" = true ∧
  ∃ sent keys next,
    State.notifications (processApproval (Sample.approve "hod-1") s).2 = sent ∧
    Notification.userId <$> sent = "coord-1" :: (User.id <$> next) ∧
    length sent = S (length keys) ∧
    NoDup keys ∧
    Forall2 (λ k u, State.users s !! k = Some u) keys next ∧
    "dean-1" ∈ keys ∧ ("head-1" ∉ keys) ∧ ("hod-1" ∉ keys) ∧
    Sample.dean ∈ next ∧ (Sample.head ∉ next) ∧ (Sample.hod ∉ next).
Proof.
  intros s. split; [reflexivity |]. split; [reflexivity |]. split; [reflexivity |].
  destruct (processApproval_approve_notifies s (Sample.approve "hod-1")
              (Sample.event "ev-1" ApprovalStage.SUBMITTED) Sample.hod)
    as (sent & keys & next & Hsent & Hids & Hlen & Hnodup & Hall & Hkeys & Hnext);
    try reflexivity.
  exists sent, keys, next. split; [exact Hsent |]. split; [exact Hids |].
  split; [exact Hlen |]. split; [exact Hnodup |]. split; [exact Hall |].
  split; [| split; [| split; [| split; [| split]]]].
  - apply Hkeys. exists Sample.dean. split; [reflexivity |]. split; [reflexivity |].
    left. repeat split; reflexivity.
  - intros Hin. apply Hkeys in Hin as (u & Hu & _ & [(_ & Hrole & _) | (Hstage & _)]);
      [| discriminate]. injection Hu as <-. discriminate.
  - intros Hin. apply Hkeys in Hin as (u & Hu & _ & [(_ & Hrole & _) | (Hstage & _)]);
      [| discriminate]. injection Hu as <-. discriminate.
  - apply Hnext. split; [exists "dean-1"; reflexivity |]. split; [reflexivity |].
    left. repeat split; reflexivity.
  - intros Hin. apply Hnext in Hin as (_ & _ & [(_ & Hrole & _) | (Hstage & _)]);
      discriminate.
  - intros Hin. apply Hnext in Hin as (_ & _ & [(_ & Hrole & _) | (Hstage & _)]);
      discriminate.
Defined.

(** X7.  What [processApproval] does with a call it cannot process.  An
    unknown event or approver makes it throw; an action other than
    Approved, Rejected and ModificationRequired, from a permitted
    approver, gets a structured failure.  The store is unchanged in all
    three cases. *)
Theorem processApproval_unprocessable (s : State.t) (ctx : ApprovalContext) :
  (State.events s !! eventId ctx = None →
   processApproval ctx s = (Threw "Event not found", s)) ∧
  (∀ event,
     State.events s !! eventId ctx = Some event →
     State.users s !! approverId ctx = None →
     processApproval ctx s = (Threw "Approver not found", s)) ∧
  (∀ event approver,
     State.events s !! eventId ctx = Some event →
     State.users s !! approverId ctx = Some approver →
     validateApprovalPermission (User.role approver) (Event.approvalStage event)
       (User.schoolId approver) (User.departmentId approver)
       (Event.schoolId event) (Event.departmentId event) = true →
     action ctx = ApprovalAction.SUBMITTED →
     processApproval ctx s
       = (Returned (mkResult false None (Some "Invalid approval action")), s)).
Proof.
  split; [| split].
  - intros Hev. unfold processApproval, transaction, bind, gets. by rewrite Hev.
  - intros event Hev Hap. unfold processApproval, transaction, bind, gets.
    by rewrite Hev, Hap.
  - intros event approver Hev Hap Hv Haction.
    rewrite (processApproval_loaded s ctx event approver Hev Hap), Hv.
    unfold transaction, processApproval_process, bind, processApproval_switch.
    rewrite Haction. reflexivity.
Qed.

Lemma processApproval_unprocessable_witness :
  let s := Sample.store ApprovalStage.SUBMITTED [] [] [] [] in
  State.events s !! "ev-9" = None ∧
  State.users s !! "nobody" = None ∧
  processApproval (mkContext "hod-1" ApprovalAction.APPROVED None "ev-9") s
    = (Threw "Event not found", s) ∧
  processApproval (mkContext "nobody" ApprovalAction.APPROVED None "ev-1") s
    = (Threw "Approver not found", s) ∧
  processApproval (mkContext "hod-1" ApprovalAction.SUBMITTED None "ev-1") s
    = (Returned (mkResult false None (Some "Invalid approval action")), s).
Proof.
  intros s. split; [reflexivity |]. split; [reflexivity |]. split; [| split].
  - apply (proj1 (processApproval_unprocessable s
                    (mkContext "hod-1" ApprovalAction.APPROVED None "ev-9"))).
    reflexivity.
  - apply (proj1 (proj2 (processApproval_unprocessable s
                           (mkContext "nobody" ApprovalAction.APPROVED None "ev-1")))
             (Sample.event "ev-1" ApprovalStage.SUBMITTED)); reflexivity.
  - apply (proj2 (proj2 (processApproval_unprocessable s
                           (mkContext "hod-1" ApprovalAction.SUBMITTED None "ev-1")))
             (Sample.event "ev-1" ApprovalStage.SUBMITTED) Sample.hod); reflexivity.
Defined.

Lemma notifyHods_run (event : Event.t) (coordinator : User.t) (departmentName : string)
    (hods : list User.t) (s : State.t) :
  let coordinatorName := User.firstName coordinator +:+ " " +:+ User.lastName coordinator in
  Submission.notifyHods event (Some coordinator) departmentName hods s
    = (Returned tt,
       State.with_notifications
         (λ l, l ++ ((λ hod, Notification.mk (User.id hod) (Some (Event.id event))
                               "EVENT_SUBMITTED" "New Event Awaiting Approval"
                               ("Event " +:+ dquote +:+ Event.title event +:+ dquote
                                  +:+ " has been submitted for approval by "
                                  +:+ coordinatorName)
                               (NotificationData.submission (Event.title event)
                                  coordinatorName departmentName)
                               false) <$> hods)) s).
Proof.
  intros coordinatorName. revert s.
  induction hods as [| hod rest IH]; intros s; cbn [Submission.notifyHods].
  - unfold ret. by rewrite fmap_nil, with_notifications_nil.
  - unfold bind, NotificationService.createNotification, modify.
    rewrite IH, with_notifications_app. reflexivity.
Qed.

Lemma submitEventForApproval_run (departmentName : string → string)
    (eventId : string) (event : Event.t) (coordinator : User.t) (s : State.t) :
  State.events s !! eventId = Some event →
  Event.status event = EventStatus.DRAFT →
  State.users s !! Event.coordinatorId event = Some coordinator →
  let coordinatorName := User.firstName coordinator +:+ " " +:+ User.lastName coordinator in
  Submission.submitEventForApproval departmentName eventId (Event.coordinatorId event) s =
    (Returned (Submission.mkResult true None),
     State.with_notifications
       (λ l, l ++ ((λ hod, Notification.mk (User.id hod) (Some (Event.id event))
                             "EVENT_SUBMITTED" "New Event Awaiting Approval"
                             ("Event " +:+ dquote +:+ Event.title event +:+ dquote
                                +:+ " has been submitted for approval by "
                                +:+ coordinatorName)
                             (NotificationData.submission (Event.title event)
                                coordinatorName (departmentName (Event.departmentId event)))
                             false) <$> Submission.hods s event))
       (State.with_approvalSteps
          (λ l, l ++ [ApprovalStep.mk eventId (Event.coordinatorId event)
                        ApprovalStage.SUBMITTED ApprovalAction.SUBMITTED
                        (Some "Event submitted for approval")])
          (State.with_events
             (<[eventId := Event.set_approvalStage ApprovalStage.SUBMITTED
                             (Event.set_status EventStatus.SUBMITTED event)]>) s))).
Proof.
  intros Hev Hdraft Hco coordinatorName.
  unfold Submission.submitEventForApproval, transaction, bind at 1, gets at 1.
  rewrite Hev. case_decide; [contradiction |]. case_decide; [contradiction |].
  unfold bind at 1, gets at 1. rewrite Hco.
  unfold bind at 1. rewrite (event_update_spec _ _ _ _ Hev).
  unfold bind at 1, modify. unfold bind at 1, gets at 1.
  unfold bind. rewrite notifyHods_run. reflexivity.
Qed.

(** X8.  The coordinator who owns a draft can submit it: the status and
    the stage of the event become Submitted, one Submitted step by the
    coordinator is appended, and one unread notification is appended to
    the notification table for each active head of the department of
    the event, telling the names of the coordinator and of the
    department: the rows go to the users [hods], which are the rows of
    the user table at the pairwise distinct keys [keys], and a key is
    among them exactly when its user is an active head of that
    department.  Nothing else in the store changes. *)
Theorem submitEventForApproval_submits (departmentName : string → string)
    (eventId coordinatorId : string) (event : Event.t) (coordinator : User.t)
    (s : State.t) :
  State.events s !! eventId = Some event →
  Event.coordinatorId event = coordinatorId →
  Event.status event = EventStatus.DRAFT →
  State.users s !! coordinatorId = Some coordinator →
  let coordinatorName := User.firstName coordinator +:+ " " +:+ User.lastName coordinator in
  ∃ keys hods,
    Submission.submitEventForApproval departmentName eventId coordinatorId s =
      (Returned (Submission.mkResult true None),
       State.with_notifications
         (λ l, l ++ ((λ hod, Notification.mk (User.id hod) (Some (Event.id event))
                               "EVENT_SUBMITTED" "New Event Awaiting Approval"
                               ("Event " +:+ dquote +:+ Event.title event +:+ dquote
                                  +:+ " has been submitted for approval by "
                                  +:+ coordinatorName)
                               (NotificationData.submission (Event.title event)
                                  coordinatorName
                                  (departmentName (Event.departmentId event)))
                               false) <$> hods))
         (State.with_approvalSteps
            (λ l, l ++ [ApprovalStep.mk eventId coordinatorId ApprovalStage.SUBMITTED
                          ApprovalAction.SUBMITTED (Some "Event submitted for approval")])
            (State.with_events
               (<[eventId :=
                    Event.mk (Event.id event) (Event.title event) (Event.scheduleStart event)
                      (Event.scheduleEnd event) (Event.participantCount event)
                      (Event.venueTypePreference event) (Event.schoolId event)
                      (Event.departmentId event) (Event.coordinatorId event)
                      EventStatus.SUBMITTED ApprovalStage.SUBMITTED
                      (Event.rejectionReason event)]>) s))) ∧
    NoDup keys ∧
    Forall2 (λ k u, State.users s !! k = Some u) keys hods ∧
    (∀ k, k ∈ keys ↔
          ∃ u, State.users s !! k = Some u ∧ User.role u = Role.HOD ∧
               User.isActive u = true ∧
               User.departmentId u = Some (Event.departmentId event)) ∧
    (∀ id, id ∈ User.id <$> hods ↔
           ∃ k u, State.users s !! k = Some u ∧ User.id u = id ∧
                  User.role u = Role.HOD ∧ User.isActive u = true ∧
                  User.departmentId u = Some (Event.departmentId event)).
Proof.
  intros Hev Hown Hdraft Hco coordinatorName. subst coordinatorId.
  pose proof (submitEventForApproval_run departmentName eventId event coordinator s
                Hev Hdraft Hco) as Hrun.
  unfold Submission.hods in Hrun.
  match type of Hrun with
  | context [filter ?P _] =>
      destruct (table_rows (State.users s) P) as (keys & Hnodup & Hkeys & Hall)
  end.
  eexists keys, _. split; [exact Hrun |]. split; [exact Hnodup |].
  split; [exact Hall |]. split.
  - intros k. rewrite Hkeys. split.
    + intros (u & Hu & Hr & Hd & Ha). eauto 10.
    + intros (u & Hu & Hr & Ha & Hd). eauto 10.
  - intros id. rewrite list_elem_of_fmap. split.
    + intros (u & -> & [(Hr & Hd & Ha) ([k u'] & -> & Hin)%list_elem_of_fmap]%list_elem_of_filter).
      apply elem_of_map_to_list in Hin. exists k, u'. cbn in *. auto.
    + intros (k & u & Hk & <- & Hr & Ha & Hd). exists u. split; [done |].
      apply list_elem_of_filter. split; [done |]. apply list_elem_of_fmap.
      exists (k, u). split; [done |]. by apply elem_of_map_to_list.
Qed.

Lemma submitEventForApproval_submits_witness :
  let s := Campus.drafts in
  State.events s !! "ev-1" = Some Campus.draft ∧
  Event.coordinatorId Campus.draft = "coord-1" ∧
  Event.status Campus.draft = EventStatus.DRAFT ∧
  State.users s !! "coord-1" = Some Campus.coordinator ∧
  ∃ keys hods s',
    Submission.submitEventForApproval Campus.departmentName "ev-1" "coord-1" s
      = (Returned (Submission.mkResult true None), s') ∧
    State.events s' !! "ev-1" = Some (Sample.event "ev-1" ApprovalStage.SUBMITTED) ∧
    State.approvalSteps s' =
      [ApprovalStep.mk "ev-1" "coord-1" ApprovalStage.SUBMITTED ApprovalAction.SUBMITTED
         (Some "Event submitted for approval")] ∧
    State.notifications s' =
      (λ hod, Notification.mk (User.id hod) (Some "ev-1") "EVENT_SUBMITTED"
                "New Event Awaiting Approval"
                ("Event " +:+ dquote +:+ "Tech fest" +:+ dquote
                   +:+ " has been submitted for approval by Kiran Das")
                (NotificationData.submission "Tech fest" "Kiran Das" "Computer Science")
                false) <$> hods ∧
    NoDup keys ∧
    Forall2 (λ k u, State.users s !! k = Some u) keys hods ∧
    "hod-1" ∈ keys ∧ ("hod-2" ∉ keys) ∧ ("hod-3" ∉ keys) ∧ ("coord-1" ∉ keys).
Proof.
  intros s. split; [reflexivity |]. split; [reflexivity |]. split; [reflexivity |].
  split; [reflexivity |].
  destruct (submitEventForApproval_submits Campus.departmentName "ev-1" "coord-1"
              Campus.draft Campus.coordinator s)
    as (keys & hods & Hrun & Hnodup & Hall & Hkeys & _); try reflexivity.
  eexists keys, hods, _. split; [exact Hrun |]. split; [reflexivity |].
  split; [reflexivity |]. split; [reflexivity |]. split; [exact Hnodup |].
  split; [exact Hall |]. split; [| split; [| split]].
  - apply Hkeys. exists Sample.hod. repeat split; reflexivity.
  - intros Hin. apply Hkeys in Hin as (u & Hu & Hr & Ha & Hd).
    injection Hu as <-. discriminate.
  - intros Hin. apply Hkeys in Hin as (u & Hu & Hr & Ha & Hd).
    injection Hu as <-. discriminate.
  - intros Hin. apply Hkeys in Hin as (u & Hu & Hr & Ha & Hd).
    injection Hu as <-. discriminate.
Defined.

(** X9.  When [submitEventForApproval] refuses.  An unknown event, a
    caller who is not the coordinator of the event, and an event that
    is not a draft each get their own structured failure; nothing is
    thrown, nothing is written and nobody is notified. *)
Theorem submitEventForApproval_refuses (departmentName : string → string)
    (eventId coordinatorId : string) (s : State.t) :
  (State.events s !! eventId = None →
   Submission.submitEventForApproval departmentName eventId coordinatorId s
     = (Returned (Submission.mkResult false (Some "Event not found")), s)) ∧
  (∀ event,
     State.events s !! eventId = Some event →
     Event.coordinatorId event ≠ coordinatorId →
     Submission.submitEventForApproval departmentName eventId coordinatorId s
       = (Returned (Submission.mkResult false (Some "Unauthorized")), s)) ∧
  (∀ event,
     State.events s !! eventId = Some event →
     Event.coordinatorId event = coordinatorId →
     Event.status event ≠ EventStatus.DRAFT →
     Submission.submitEventForApproval departmentName eventId coordinatorId s
       = (Returned (Submission.mkResult false (Some "Event is not in draft status")),
          s)).
Proof.
  unfold Submission.submitEventForApproval, transaction, bind, gets.
  split; [| split].
  - intros Hev. by rewrite Hev.
  - intros event Hev Hown. rewrite Hev. case_decide; [reflexivity | contradiction].
  - intros event Hev Hown Hst. rewrite Hev. case_decide; [contradiction |].
    case_decide; [reflexivity | contradiction].
Qed.

Lemma submitEventForApproval_refuses_witness :
  let s := Sample.store ApprovalStage.SUBMITTED [] [] [] [] in
  State.events s !! "ev-9" = None ∧
  Event.coordinatorId (Sample.event "ev-1" ApprovalStage.SUBMITTED) ≠ "hod-1" ∧
  Event.status (Sample.event "ev-1" ApprovalStage.SUBMITTED) ≠ EventStatus.DRAFT ∧
  Submission.submitEventForApproval (λ d, d) "ev-9" "coord-1" s
    = (Returned (Submission.mkResult false (Some "Event not found")), s) ∧
  Submission.submitEventForApproval (λ d, d) "ev-1" "hod-1" s
    = (Returned (Submission.mkResult false (Some "Unauthorized")), s) ∧
  Submission.submitEventForApproval (λ d, d) "ev-1" "coord-1" s
    = (Returned (Submission.mkResult false (Some "Event is not in draft status")), s).
Proof.
  intros s. split; [reflexivity |]. split; [discriminate |]. split; [discriminate |].
  split; [| split].
  - apply (proj1 (submitEventForApproval_refuses (λ d, d) "ev-9" "coord-1" s)).
    reflexivity.
  - apply (proj1 (proj2 (submitEventForApproval_refuses (λ d, d) "ev-1" "hod-1" s))
             (Sample.event "ev-1" ApprovalStage.SUBMITTED)); [reflexivity | discriminate].
  - apply (proj2 (proj2 (submitEventForApproval_refuses (λ d, d) "ev-1" "coord-1" s))
             (Sample.event "ev-1" ApprovalStage.SUBMITTED));
      [reflexivity | reflexivity | discriminate].
Defined.

#[global] Instance createdBefore_total createdAt : Total (Submission.createdBefore createdAt).
Proof. intros e1 e2. unfold Submission.createdBefore. lia. Qed.

#[global] Instance createdBefore_trans createdAt :
  Transitive (Submission.createdBefore createdAt).
Proof. intros e1 e2 e3. unfold Submission.createdBefore. lia. Qed.

Lemma pendingQuery_spec (createdAt : string → Z) (P : Event.t → Prop)
    `{!∀ e, Decision (P e)} (s : State.t) :
  ∃ rows,
    Submission.pendingQuery createdAt P s = (Returned rows, s) ∧
    (∀ e, e ∈ Event.row <$> rows ↔ (∃ k, State.events s !! k = Some e) ∧ P e) ∧
    StronglySorted (Submission.createdBefore createdAt) (Event.row <$> rows) ∧
    Forall (λ r, Event.resourceRequests r
                 = filter (λ q, ResourceRequest.eventId q = Event.id (Event.row r))
                          (State.resourceRequests s)) rows.
Proof.
  unfold Submission.pendingQuery, gets. eexists. split; [reflexivity |].
  rewrite <- list_fmap_compose.
  assert (Hid : ∀ l : list Event.t,
            (Event.row ∘ (λ e, Event.Loaded e
                                 (filter (λ r, ResourceRequest.eventId r = Event.id e)
                                         (State.resourceRequests s)))) <$> l = l).
  { intros l. rewrite <- (list_fmap_id l) at 2. by apply list_fmap_ext. }
  rewrite Hid. split; [| split].
  - intros e. rewrite merge_sort_Permutation, list_elem_of_filter, list_elem_of_fmap.
    split.
    + intros [HP ([k e'] & -> & Hin)]. apply elem_of_map_to_list in Hin. eauto.
    + intros [(k & Hk) HP]. split; [done |]. exists (k, e). split; [done |].
      by apply elem_of_map_to_list.
  - apply StronglySorted_merge_sort; apply _.
  - apply Forall_fmap, Forall_forall. intros e _. reflexivity.
Qed.

(** X10.  The list of pending approvals of a user holds exactly the
    events with status Submitted on which [validateApprovalPermission]
    lets that user act, oldest first, each with its resource requests;
    the call writes nothing.  For a user whose role is none of the
    three approving roles the list is empty. *)
Theorem getPendingApprovals_lists_permitted (createdAt : string → Z) (userId : string)
    (user : User.t) (s : State.t) :
  State.users s !! userId = Some user →
  ∃ rows,
    Submission.getPendingApprovals createdAt userId s = (Returned rows, s) ∧
    (∀ e, e ∈ Event.row <$> rows ↔
          (∃ k, State.events s !! k = Some e) ∧
          Event.status e = EventStatus.SUBMITTED ∧
          validateApprovalPermission (User.role user) (Event.approvalStage e)
            (User.schoolId user) (User.departmentId user)
            (Event.schoolId e) (Event.departmentId e) = true) ∧
    StronglySorted (λ e1 e2, (createdAt (Event.id e1) ≤ createdAt (Event.id e2))%Z)
      (Event.row <$> rows) ∧
    Forall (λ r, Event.resourceRequests r
                 = filter (λ q, ResourceRequest.eventId q = Event.id (Event.row r))
                          (State.resourceRequests s)) rows.
Proof.
  intros Hu. unfold Submission.getPendingApprovals, bind, gets. rewrite Hu.
  setoid_rewrite validateApprovalPermission_table.
  destruct (User.role user) eqn:Hrole.
  - exists []. split; [reflexivity |]. split; [| split; constructor].
    intros e. split; [by intros ?%elem_of_nil |].
    intros (_ & _ & [(_ & ? & _) | [(_ & ? & _) | (_ & ?)]]); discriminate.
  - match goal with
    | |- context [Submission.pendingQuery createdAt ?P s] =>
        destruct (pendingQuery_spec createdAt P s) as (rows & Hq & Hmem & Hsort & Hreq)
    end.
    exists rows. split; [exact Hq |]. split; [| split; assumption].
    intros e. rewrite Hmem. split.
    + intros (Hk & Hst & Hstage & Hd). repeat split; try done. left. auto.
    + intros (Hk & Hst & [(Hstage & _ & Hd) | [(_ & ? & _) | (_ & ?)]]);
        try discriminate. auto.
  - match goal with
    | |- context [Submission.pendingQuery createdAt ?P s] =>
        destruct (pendingQuery_spec createdAt P s) as (rows & Hq & Hmem & Hsort & Hreq)
    end.
    exists rows. split; [exact Hq |]. split; [| split; assumption].
    intros e. rewrite Hmem. split.
    + intros (Hk & Hst & Hstage & Hd). repeat split; try done. right. left. auto.
    + intros (Hk & Hst & [(_ & ? & _) | [(Hstage & _ & Hd) | (_ & ?)]]);
        try discriminate. auto.
  - match goal with
    | |- context [Submission.pendingQuery createdAt ?P s] =>
        destruct (pendingQuery_spec createdAt P s) as (rows & Hq & Hmem & Hsort & Hreq)
    end.
    exists rows. split; [exact Hq |]. split; [| split; assumption].
    intros e. rewrite Hmem. split.
    + intros (Hk & Hst & Hstage). repeat split; try done. right. right. auto.
    + intros (Hk & Hst & [(_ & ? & _) | [(_ & ? & _) | (Hstage & _)]]);
        try discriminate. auto.
  - exists []. split; [reflexivity |]. split; [| split; constructor].
    intros e. split; [by intros ?%elem_of_nil |].
    intros (_ & _ & [(_ & ? & _) | [(_ & ? & _) | (_ & ?)]]); discriminate.
Qed.

Lemma getPendingApprovals_lists_permitted_witness :
  let s := Campus.submitted in
  State.users s !! "hod-1" = Some Sample.hod ∧
  ∃ rows,
    Submission.getPendingApprovals Campus.createdAt "hod-1" s = (Returned rows, s) ∧
    Campus.quiz ∈ Event.row <$> rows ∧
    Sample.event "ev-1" ApprovalStage.SUBMITTED ∈ Event.row <$> rows ∧
    (Campus.hackathon ∉ Event.row <$> rows) ∧
    (Campus.recital ∉ Event.row <$> rows) ∧
    StronglySorted
      (λ e1 e2, (Campus.createdAt (Event.id e1) ≤ Campus.createdAt (Event.id e2))%Z)
      (Event.row <$> rows).
Proof.
  intros s. split; [reflexivity |].
  destruct (getPendingApprovals_lists_permitted Campus.createdAt "hod-1" Sample.hod s)
    as (rows & Hrun & Hmem & Hsorted & _); [reflexivity |].
  exists rows. split; [exact Hrun |].
  split; [apply Hmem; split; [exists "ev-2"; reflexivity | split; reflexivity] |].
  split; [apply Hmem; split; [exists "ev-1"; reflexivity | split; reflexivity] |].
  split; [intros Hin; apply Hmem in Hin as (_ & _ & Hv); discriminate Hv |].
  split; [intros Hin; apply Hmem in Hin as (_ & _ & Hv); discriminate Hv |].
  exact Hsorted.
Defined.

(** ** The permission tables *)

(** X11.  The three permission tables of the code agree.
    [RBAC.canApproveEvent] accepts a role at a stage exactly when
    [getRequiredApproverRole] names that role for the stage;
    [validateApprovalPermission] accepts an approver exactly when
    [RBAC.canApproveEvent] accepts the role and the department of the
    approver (for a head of department) or the school (for a dean) is
    the one of the event; whoever may approve an event may view it; and
    a role that may create events may approve none. *)
Theorem approval_permission_tables_agree (role : Role.t) (stage : ApprovalStage.t)
    (approverSchoolId approverDepartmentId : option string)
    (eventSchoolId eventDepartmentId : string) :
  (RBAC.canApproveEvent role (ApprovalStage.show stage) = true ↔
   getRequiredApproverRole stage = Some role) ∧
  (validateApprovalPermission role stage approverSchoolId approverDepartmentId
     eventSchoolId eventDepartmentId = true ↔
   RBAC.canApproveEvent role (ApprovalStage.show stage) = true ∧
   match role with
   | Role.HOD => approverDepartmentId = Some eventDepartmentId
   | Role.DEAN => approverSchoolId = Some eventSchoolId
   | _ => True
   end) ∧
  (validateApprovalPermission role stage approverSchoolId approverDepartmentId
     eventSchoolId eventDepartmentId = true →
   RBAC.canViewEvent role approverSchoolId approverDepartmentId
     (Some eventSchoolId) (Some eventDepartmentId) = true) ∧
  (RBAC.canCreateEvent role = true →
   validateApprovalPermission role stage approverSchoolId approverDepartmentId
     eventSchoolId eventDepartmentId = false).
Proof.
  unfold validateApprovalPermission, RBAC.canApproveEvent, RBAC.canViewEvent,
    RBAC.canCreateEvent, getRequiredApproverRole.
  destruct role, stage; cbn; repeat case_bool_decide; cbn; intuition congruence.
Qed.

Lemma approval_permission_tables_agree_witness :
  validateApprovalPermission Role.DEAN ApprovalStage.HOD_APPROVED (Some "school-1") None
    "school-1" "dept-1" = true ∧
  RBAC.canCreateEvent Role.EVENT_COORDINATOR = true ∧
  RBAC.canViewEvent Role.DEAN (Some "school-1") None (Some "school-1") (Some "dept-1")
    = true ∧
  validateApprovalPermission Role.EVENT_COORDINATOR ApprovalStage.SUBMITTED
    (Some "school-1") (Some "dept-1") "school-1" "dept-1" = false.
Proof.
  split; [reflexivity |]. split; [reflexivity |]. split.
  - apply (proj1 (proj2 (proj2 (approval_permission_tables_agree Role.DEAN
             ApprovalStage.HOD_APPROVED (Some "school-1") None "school-1" "dept-1")))).
    reflexivity.
  - apply (proj2 (proj2 (proj2 (approval_permission_tables_agree Role.EVENT_COORDINATOR
             ApprovalStage.SUBMITTED (Some "school-1") (Some "dept-1") "school-1"
             "dept-1")))).
    reflexivity.
Defined.

(** X12.  The approval chain as a whole.  A draft submitted by its
    coordinator and then approved in turn by a head of its department,
    a dean of its school and an institutional head ends at stage
    HeadApproved with status Submitted; the four steps are recorded in
    that order; no booking is made on the way; and at that point
    [processApproval] is refused for everyone, so that only the
    allocation engine can move the event on. *)
Theorem approval_chain_reaches_head_approved (departmentName : string → string)
    (eventId hodId deanId headId : string) (c1 c2 c3 : option string)
    (event : Event.t) (coordinator hod dean head : User.t) (s : State.t) :
  State.events s !! eventId = Some event →
  Event.status event = EventStatus.DRAFT →
  State.users s !! Event.coordinatorId event = Some coordinator →
  State.users s !! hodId = Some hod →
  User.role hod = Role.HOD →
  User.departmentId hod = Some (Event.departmentId event) →
  State.users s !! deanId = Some dean →
  User.role dean = Role.DEAN →
  User.schoolId dean = Some (Event.schoolId event) →
  State.users s !! headId = Some head →
  User.role head = Role.INSTITUTIONAL_HEAD →
  ∃ s1 s2 s3 s4,
    Submission.submitEventForApproval departmentName eventId
      (Event.coordinatorId event) s
      = (Returned (Submission.mkResult true None), s1) ∧
    processApproval (mkContext hodId ApprovalAction.APPROVED c1 eventId) s1
      = (Returned (mkResult true (Some ApprovalStage.HOD_APPROVED) None), s2) ∧
    processApproval (mkContext deanId ApprovalAction.APPROVED c2 eventId) s2
      = (Returned (mkResult true (Some ApprovalStage.DEAN_APPROVED) None), s3) ∧
    processApproval (mkContext headId ApprovalAction.APPROVED c3 eventId) s3
      = (Returned (mkResult true (Some ApprovalStage.HEAD_APPROVED) None), s4) ∧
    State.events s4 =
      <[eventId :=
          Event.mk (Event.id event) (Event.title event) (Event.scheduleStart event)
            (Event.scheduleEnd event) (Event.participantCount event)
            (Event.venueTypePreference event) (Event.schoolId event)
            (Event.departmentId event) (Event.coordinatorId event)
            EventStatus.SUBMITTED ApprovalStage.HEAD_APPROVED None]> (State.events s) ∧
    State.approvalSteps s4 =
      State.approvalSteps s ++
        [ApprovalStep.mk eventId (Event.coordinatorId event) ApprovalStage.SUBMITTED
           ApprovalAction.SUBMITTED (Some "Event submitted for approval");
         ApprovalStep.mk eventId hodId ApprovalStage.HOD_APPROVED
           ApprovalAction.APPROVED c1;
         ApprovalStep.mk eventId deanId ApprovalStage.DEAN_APPROVED
           ApprovalAction.APPROVED c2;
         ApprovalStep.mk eventId headId ApprovalStage.HEAD_APPROVED
           ApprovalAction.APPROVED c3] ∧
    same_allocations s s4 ∧
    (∀ ctx approver,
       ApprovalEngine.eventId ctx = eventId →
       State.users s4 !! approverId ctx = Some approver →
       processApproval ctx s4 = (Returned permissionDenied, s4)).
Proof.
  intros Hev Hdraft Hco Hhod Hhr Hhd Hdean Hdr Hds Hhead Hher.
  pose proof (submitEventForApproval_run departmentName eventId event coordinator s
                Hev Hdraft Hco) as Hrun0.
  cbv zeta in Hrun0.
  match type of Hrun0 with _ = (_, ?st) => set (s1 := st) in * end.
  destruct (processApproval_approve_run s1
              (mkContext hodId ApprovalAction.APPROVED c1 eventId)
              (Event.set_approvalStage ApprovalStage.SUBMITTED
                 (Event.set_status EventStatus.SUBMITTED event)) hod)
    as (sent1 & Hrun1); [apply lookup_insert_eq | exact Hhod | | reflexivity |].
  { apply (proj2 (validateApprovalPermission_table _ _)). left. repeat split; assumption. }
  match type of Hrun1 with _ = (_, ?st) => set (s2 := st) in * end.
  destruct (processApproval_approve_run s2
              (mkContext deanId ApprovalAction.APPROVED c2 eventId)
              (Event.set_rejectionReason None
                 (Event.set_status EventStatus.SUBMITTED
                    (Event.set_approvalStage ApprovalStage.HOD_APPROVED
                       (Event.set_approvalStage ApprovalStage.SUBMITTED
                          (Event.set_status EventStatus.SUBMITTED event))))) dean)
    as (sent2 & Hrun2); [apply lookup_insert_eq | exact Hdean | | reflexivity |].
  { apply (proj2 (validateApprovalPermission_table _ _)). right. left.
    repeat split; assumption. }
  match type of Hrun2 with _ = (_, ?st) => set (s3 := st) in * end.
  destruct (processApproval_approve_run s3
              (mkContext headId ApprovalAction.APPROVED c3 eventId)
              (Event.set_rejectionReason None
                 (Event.set_status EventStatus.SUBMITTED
                    (Event.set_approvalStage ApprovalStage.DEAN_APPROVED
                       (Event.set_rejectionReason None
                          (Event.set_status EventStatus.SUBMITTED
                             (Event.set_approvalStage ApprovalStage.HOD_APPROVED
                                (Event.set_approvalStage ApprovalStage.SUBMITTED
                                   (Event.set_status EventStatus.SUBMITTED event))))))))
              head)
    as (sent3 & Hrun3); [apply lookup_insert_eq | exact Hhead | | reflexivity |].
  { apply (proj2 (validateApprovalPermission_table _ _)). right. right.
    repeat split; assumption. }
  match type of Hrun3 with _ = (_, ?st) => set (s4 := st) in * end.
  exists s1, s2, s3, s4.
  split; [exact Hrun0 |]. split; [exact Hrun1 |]. split; [exact Hrun2 |].
  split; [exact Hrun3 |]. split.
  { cbn. by rewrite !insert_insert_eq. }
  split.
  { cbn. by rewrite <- !(assoc_L (++)). }
  split; [repeat split |].
  intros ctx approver Hid Hap.
  eapply processApproval_closed; [| exact Hap |].
  - rewrite Hid. apply lookup_insert_eq.
  - cbn. auto.
Qed.

Lemma approval_chain_reaches_head_approved_witness :
  let s := Campus.drafts in
  State.events s !! "ev-1" = Some Campus.draft ∧
  Event.status Campus.draft = EventStatus.DRAFT ∧
  State.users s !! "coord-1" = Some Campus.coordinator ∧
  State.users s !! "hod-1" = Some Sample.hod ∧
  State.users s !! "dean-1" = Some Sample.dean ∧
  State.users s !! "head-1" = Some Sample.head ∧
  ∃ s1 s2 s3 s4,
    Submission.submitEventForApproval Campus.departmentName "ev-1" "coord-1" s
      = (Returned (Submission.mkResult true None), s1) ∧
    processApproval (Sample.approve "hod-1") s1
      = (Returned (mkResult true (Some ApprovalStage.HOD_APPROVED) None), s2) ∧
    processApproval (Sample.approve "dean-1") s2
      = (Returned (mkResult true (Some ApprovalStage.DEAN_APPROVED) None), s3) ∧
    processApproval (Sample.approve "head-1") s3
      = (Returned (mkResult true (Some ApprovalStage.HEAD_APPROVED) None), s4) ∧
    State.events s4 !! "ev-1" = Some (Sample.event "ev-1" ApprovalStage.HEAD_APPROVED) ∧
    ApprovalStep.approverId <$> State.approvalSteps s4
      = ["coord-1"; "hod-1"; "dean-1"; "head-1"] ∧
    same_allocations s s4.
Proof.
  intros s. do 6 (split; [reflexivity |]).
  destruct (approval_chain_reaches_head_approved Campus.departmentName "ev-1" "hod-1"
              "dean-1" "head-1" (Some "ok") (Some "ok") (Some "ok") Campus.draft
              Campus.coordinator Sample.hod Sample.dean Sample.head s)
    as (s1 & s2 & s3 & s4 & H0 & H1 & H2 & H3 & Hev & Hsteps & Hsame & _);
    try reflexivity.
  exists s1, s2, s3, s4.
  split; [exact H0 |]. split; [exact H1 |]. split; [exact H2 |]. split; [exact H3 |].
  split; [rewrite Hev; reflexivity |]. split; [rewrite Hsteps; reflexivity |].
  exact Hsame.
Defined.

(** X13.  [processApproval] is all or nothing, and what it writes is
    confined to the workflow.  Unless the call returns success the
    store is left as it was.  When it returns success, the row of its
    event has been rewritten in the columns [approvalStage], [status]
    and [rejectionReason] only, exactly one step has been appended, the
    one of this approver with this action and these comments at the new
    stage, notifications have been appended, and every other table and
    every other event row is as before. *)
Theorem processApproval_writes (ctx : ApprovalContext) (s : State.t) :
  ((processApproval ctx s).2 = s ∧
   ∀ r, (processApproval ctx s).1 = Returned r → success r = false) ∨
  ∃ event event' next sent,
    State.events s !! eventId ctx = Some event ∧
    processApproval ctx s =
      (Returned (mkResult true (Some next) None),
       State.mk (<[eventId ctx := event']> (State.events s)) (State.users s)
         (State.venues s) (State.venueBookings s) (State.resourceRequests s)
         (State.resourceBookings s)
         (State.approvalSteps s ++
            [ApprovalStep.mk (eventId ctx) (approverId ctx) next (action ctx)
               (comments ctx)])
         (State.notifications s ++ sent)) ∧
    Event.approvalStage event' = next ∧
    Event.id event' = Event.id event ∧
    Event.title event' = Event.title event ∧
    Event.scheduleStart event' = Event.scheduleStart event ∧
    Event.scheduleEnd event' = Event.scheduleEnd event ∧
    Event.participantCount event' = Event.participantCount event ∧
    Event.venueTypePreference event' = Event.venueTypePreference event ∧
    Event.schoolId event' = Event.schoolId event ∧
    Event.departmentId event' = Event.departmentId event ∧
    Event.coordinatorId event' = Event.coordinatorId event.
Proof.
  destruct (State.events s !! eventId ctx) as [event |] eqn:Hev.
  2: { left. unfold processApproval, transaction, bind, gets. rewrite Hev.
       split; [reflexivity | intros r [=]]. }
  destruct (State.users s !! approverId ctx) as [approver |] eqn:Hap.
  2: { left. unfold processApproval, transaction, bind, gets. rewrite Hev, Hap.
       split; [reflexivity | intros r [=]]. }
  destruct (validateApprovalPermission (User.role approver) (Event.approvalStage event)
              (User.schoolId approver) (User.departmentId approver)
              (Event.schoolId event) (Event.departmentId event)) eqn:Hv.
  2: { left. rewrite (processApproval_loaded s ctx event approver Hev Hap), Hv.
       split; [reflexivity | intros r [= <-]; reflexivity]. }
  pose proof (permitted_next_stage_not_final _ _ _ _ _ _ Hv) as Hnot.
  assert (Hsome : ∀ t,
            processApproval_switch event (action ctx) (comments ctx) (eventId ctx) s
              = (Returned (Some t), s) →
            t_action t = action ctx → t_comments t = comments ctx →
            ∃ event' next sent,
              processApproval ctx s =
                (Returned (mkResult true (Some next) None),
                 State.mk (<[eventId ctx := event']> (State.events s)) (State.users s)
                   (State.venues s) (State.venueBookings s) (State.resourceRequests s)
                   (State.resourceBookings s)
                   (State.approvalSteps s ++
                      [ApprovalStep.mk (eventId ctx) (approverId ctx) next (action ctx)
                         (comments ctx)])
                   (State.notifications s ++ sent)) ∧
              Event.approvalStage event' = next ∧
              Event.id event' = Event.id event ∧
              Event.title event' = Event.title event ∧
              Event.scheduleStart event' = Event.scheduleStart event ∧
              Event.scheduleEnd event' = Event.scheduleEnd event ∧
              Event.participantCount event' = Event.participantCount event ∧
              Event.venueTypePreference event' = Event.venueTypePreference event ∧
              Event.schoolId event' = Event.schoolId event ∧
              Event.departmentId event' = Event.departmentId event ∧
              Event.coordinatorId event' = Event.coordinatorId event).
  { intros t Hswitch Hact Hcom.
    destruct (processApproval_run s ctx event approver t Hev Hap Hv Hswitch)
      as (sent & Hrun & _).
    exists (approvalUpdate t event), (t_nextStage t), sent.
    split; [rewrite Hrun, Hact, Hcom; reflexivity |].
    unfold approvalUpdate. case_decide; [destruct (t_comments t) |]; repeat split. }
  destruct (action ctx) eqn:Haction.
  - right. exists event.
    destruct (Hsome (mkTransition (getNextApprovalStage (Event.approvalStage event))
                       (Event.status event) ApprovalAction.APPROVED (comments ctx)))
      as (event' & next & sent & Hrun); [| reflexivity | reflexivity |].
    { unfold processApproval_switch. case_decide; [contradiction | reflexivity]. }
    exists event', next, sent. split; [reflexivity | exact Hrun].
  - right. exists event.
    destruct (Hsome (mkTransition ApprovalStage.REJECTED EventStatus.REJECTED
                       ApprovalAction.REJECTED (comments ctx)))
      as (event' & next & sent & Hrun); [reflexivity | reflexivity | reflexivity |].
    exists event', next, sent. split; [reflexivity | exact Hrun].
  - right. exists event.
    destruct (Hsome (mkTransition ApprovalStage.MODIFICATION_REQUIRED
                       EventStatus.SUBMITTED ApprovalAction.MODIFICATION_REQUIRED
                       (comments ctx)))
      as (event' & next & sent & Hrun); [reflexivity | reflexivity | reflexivity |].
    exists event', next, sent. split; [reflexivity | exact Hrun].
  - left. rewrite (processApproval_loaded s ctx event approver Hev Hap), Hv.
    unfold transaction, processApproval_process, bind, processApproval_switch.
    rewrite Haction. split; [reflexivity | intros r [= <-]; reflexivity].
Qed.

(** ** More of the allocation engine *)

Import AllocationEngine.

(** X14.  [allocateEvent] throws, and leaves the store as it was, for an
    unknown event and for an event whose stage is not HeadApproved. *)
Theorem allocateEvent_preconditions (eventId : string) (s : State.t) :
  (State.events s !! eventId = None →
   allocateEvent eventId s = (Threw "Event not found", s)) ∧
  (∀ event,
     State.events s !! eventId = Some event →
     Event.approvalStage event ≠ ApprovalStage.HEAD_APPROVED →
     allocateEvent eventId s = (Threw "Event not ready for allocation", s)).
Proof.
  unfold allocateEvent, transaction, bind, event_findUnique_loaded, gets. split.
  - intros Hev. by rewrite Hev.
  - intros event Hev Hstage. rewrite Hev. cbn [fmap option_fmap option_map].
    case_decide as Hd; [reflexivity |]. cbn in Hd. contradiction.
Qed.

Lemma allocateEvent_preconditions_witness :
  let s := Sample.store ApprovalStage.DEAN_APPROVED [Sample.hall60] [] [] [] in
  State.events s !! "ev-9" = None ∧
  State.events s !! "ev-1" = Some (Sample.event "ev-1" ApprovalStage.DEAN_APPROVED) ∧
  allocateEvent "ev-9" s = (Threw "Event not found", s) ∧
  allocateEvent "ev-1" s = (Threw "Event not ready for allocation", s).
Proof.
  intros s. split; [reflexivity |]. split; [reflexivity |]. split.
  - apply (proj1 (allocateEvent_preconditions "ev-9" s)). reflexivity.
  - apply (proj2 (allocateEvent_preconditions "ev-1" s)
             (Sample.event "ev-1" ApprovalStage.DEAN_APPROVED));
      [reflexivity | discriminate].
Defined.

(** The venue phase either leaves the store alone or appends the
    booking of a candidate that was free. *)
Lemma allocateVenue_outcome (event : Event.loaded) (s : State.t) :
  ∃ r s1,
    allocateVenue event s = (Returned r, s1) ∧
    ((v_success r = false ∧ s1 = s) ∨
     (v_success r = true ∧
      ∃ v, v ∈ candidateVenues s event ∧ venueFree s event v ∧
           v_venueId r = Some (Venue.id v) ∧
           s1 = State.with_venueBookings (λ bs, bs ++ [newVenueBooking v event]) s)).
Proof.
  assert (Hloop : ∀ candidates,
            ∃ r s1,
              allocateVenue_loop event candidates s = (Returned r, s1) ∧
              match r with
              | None => s1 = s ∧ Forall (λ v, ¬ venueFree s event v) candidates
              | Some result =>
                  v_success result = true ∧
                  ∃ v, v ∈ candidates ∧ venueFree s event v ∧
                       v_venueId result = Some (Venue.id v) ∧
                       s1 = State.with_venueBookings
                              (λ bs, bs ++ [newVenueBooking v event]) s
              end).
  { induction candidates as [| u rest IH]; cbn [allocateVenue_loop].
    - eexists _, _. split; [reflexivity |]. split; [reflexivity | constructor].
    - unfold bind at 1, gets. case_decide as Hfree.
      + eexists _, _. split; [reflexivity |]. split; [reflexivity |].
        exists u. split; [left |]. split; [exact Hfree |]. split; reflexivity.
      + destruct IH as (r & s1 & Hrun & Hr). exists r, s1. split; [exact Hrun |].
        destruct r as [result |].
        * destruct Hr as (Hsucc & v & Hv & Hrest). split; [exact Hsucc |].
          exists v. split; [by right | exact Hrest].
        * destruct Hr as [-> Hall]. split; [reflexivity |]. by constructor. }
  unfold allocateVenue, bind at 1, gets at 1. case_decide.
  { eexists _, _. split; [reflexivity |]. left. split; reflexivity. }
  destruct (Hloop (candidateVenues s event)) as (r & s1 & Hrun & Hr).
  unfold bind at 1. rewrite Hrun. destruct r as [result |].
  - eexists _, _. split; [reflexivity |]. right. exact Hr.
  - destruct Hr as [-> _]. unfold bind, gets, ret.
    eexists _, _. split; [reflexivity |]. left. split; reflexivity.
Qed.

(** X15.  The two ways [allocateVenue] fails.  Without any candidate
    venue the conflict names no event; when every candidate has a
    confirmed booking overlapping the window, the conflict names the
    events of all those bookings, over all candidates.  In both cases
    nothing is booked: the store is unchanged. *)
Theorem allocateVenue_unavailable (event : Event.loaded) (s : State.t) :
  (candidateVenues s event = [] →
   allocateVenue event s =
     (Returned (mkVenueResult false None
                  (Some [mkConflict venue_unavailable [] "No suitable venues available"
                           (Some ["Consider reducing participant count";
                                  "Choose different time slot"])])
                  (Some ("No venues found with capacity >= "
                           +:+ pretty (Event.participantCount event)))), s)) ∧
  (candidateVenues s event ≠ [] →
   (∀ v, v ∈ candidateVenues s event →
      ∃ b, b ∈ State.venueBookings s ∧ VenueBooking.venueId b = Venue.id v ∧
           VenueBooking.status b = "confirmed" ∧
           VenueBooking.startTime b < Event.scheduleEnd event ∧
           VenueBooking.endTime b > Event.scheduleStart event) →
   ∃ ids,
     allocateVenue event s =
       (Returned (mkVenueResult false None
                    (Some [mkConflict venue_unavailable ids
                             "Time slot conflicts with existing bookings"
                             (Some ["Choose different time slot";
                                    "Consider smaller venue capacity requirement";
                                    "Contact conflicting events for rescheduling"])])
                    (Some "All suitable venues are booked during requested time")), s) ∧
     ∀ id, id ∈ ids ↔
           ∃ v b, v ∈ candidateVenues s event ∧ b ∈ State.venueBookings s ∧
                  VenueBooking.venueId b = Venue.id v ∧
                  VenueBooking.status b = "confirmed" ∧
                  VenueBooking.startTime b < Event.scheduleEnd event ∧
                  VenueBooking.endTime b > Event.scheduleStart event ∧
                  VenueBooking.eventId b = id).
Proof.
  split.
  - intros Hnil. unfold allocateVenue, bind, gets. rewrite Hnil. reflexivity.
  - intros Hne Hall. unfold allocateVenue, bind at 1, gets at 1.
    case_decide as Hlen; [apply nil_length_inv in Hlen; contradiction |].
    unfold bind at 1. rewrite allocateVenue_loop_all_taken.
    + unfold bind, gets, ret. eexists. split; [reflexivity |].
      intros id. rewrite list_elem_of_In, in_concat.
      setoid_rewrite <- list_elem_of_In. split.
      * intros (ids & Hids & Hid). apply list_elem_of_fmap in Hids as (v & -> & Hv).
        apply list_elem_of_fmap in Hid as (b & -> & Hb).
        apply list_elem_of_filter in Hb as [(Hvid & Hst & Hs & He) Hb].
        exists v, b. auto 10.
      * intros (v & b & Hv & Hb & Hvid & Hst & Hs & He & <-).
        exists (VenueBooking.eventId <$> conflictingVenueBookings s v event). split.
        -- apply list_elem_of_fmap. exists v. done.
        -- apply list_elem_of_fmap. exists b. split; [done |].
           apply list_elem_of_filter. split; [| done]. repeat split; done.
    + intros u Hu. apply conflictingVenueBookings_cons. apply Hall, Hu.
Qed.

Lemma allocateVenue_unavailable_witness :
  let event := Event.Loaded (Sample.event "ev-1" ApprovalStage.HEAD_APPROVED) [] in
  let empty := Sample.store ApprovalStage.HEAD_APPROVED [] [] [] [] in
  let taken := Sample.store ApprovalStage.HEAD_APPROVED [Sample.hall60] []
                 [Campus.hall60Taken] [] in
  candidateVenues empty event = [] ∧
  candidateVenues taken event = [Sample.hall60] ∧
  allocateVenue event empty =
    (Returned (mkVenueResult false None
                 (Some [mkConflict venue_unavailable [] "No suitable venues available"
                          (Some ["Consider reducing participant count";
                                 "Choose different time slot"])])
                 (Some "No venues found with capacity >= 50")), empty) ∧
  ∃ ids,
    allocateVenue event taken =
      (Returned (mkVenueResult false None
                   (Some [mkConflict venue_unavailable ids
                            "Time slot conflicts with existing bookings"
                            (Some ["Choose different time slot";
                                   "Consider smaller venue capacity requirement";
                                   "Contact conflicting events for rescheduling"])])
                   (Some "All suitable venues are booked during requested time")),
       taken) ∧
    "ev-0" ∈ ids.
Proof.
  intros event empty taken. split; [reflexivity |]. split; [reflexivity |]. split.
  - apply (proj1 (allocateVenue_unavailable event empty)). reflexivity.
  - destruct (proj2 (allocateVenue_unavailable event taken)) as (ids & Hrun & Hids).
    + discriminate.
    + intros v Hv. change (v ∈ [Sample.hall60]) in Hv.
      apply list_elem_of_singleton in Hv as ->.
      exists Campus.hall60Taken. split; [left |]. repeat split; reflexivity.
    + exists ids. split; [exact Hrun |]. apply Hids.
      exists Sample.hall60, Campus.hall60Taken. split; [left |]. split; [left |].
      repeat split; reflexivity.
Defined.

Lemma noDoubleBooking_snoc (bookings : list VenueBooking.t) (b : VenueBooking.t) :
  noDoubleBooking bookings →
  (∀ b', b' ∈ bookings →
     VenueBooking.venueId b' = VenueBooking.venueId b →
     VenueBooking.status b' = "confirmed" →
     ¬ (VenueBooking.startTime b' < VenueBooking.endTime b ∧
        VenueBooking.endTime b' > VenueBooking.startTime b)) →
  noDoubleBooking (bookings ++ [b]).
Proof.
  intros Hold Hnew i j b1 b2 Hij H1 H2 Hv Hs1 Hs2 Hover.
  apply lookup_snoc_Some in H1 as [[Hi H1] | [Hi <-]];
    apply lookup_snoc_Some in H2 as [[Hj H2] | [Hj <-]].
  - by eapply (Hold i j b1 b2).
  - eapply (Hnew b1); [by eapply list_elem_of_lookup_2 | done | done | done].
  - eapply (Hnew b2); [by eapply list_elem_of_lookup_2 | done | done | lia].
  - lia.
Qed.

(** The venue bookings after [allocateEvent]: those before it, with at
    most the booking of one venue that was free for the window. *)
Lemma allocateEvent_venueBookings (eventId : string) (s s' : State.t)
    (out : Outcome AllocationResult) :
  allocateEvent eventId s = (out, s') →
  State.venueBookings s' = State.venueBookings s ∨
  ∃ event v,
    State.events s !! eventId = Some event ∧ venueFree s event v ∧
    State.venueBookings s' = State.venueBookings s ++ [newVenueBooking v event].
Proof.
  unfold allocateEvent, transaction, bind at 1, event_findUnique_loaded, gets.
  destruct (State.events s !! eventId) as [event |] eqn:Hev;
    cbn [fmap option_fmap option_map]; [| intros [= <- <-]; by left].
  case_decide; [intros [= <- <-]; by left |].
  set (loaded := Event.Loaded event _).
  destruct (allocateVenue_outcome loaded s) as (vr & s1 & Hv & Hcases).
  unfold bind at 1. rewrite Hv.
  destruct Hcases as [[Hf ->] | [Ht (v & _ & Hfree & _ & ->)]].
  { rewrite Hf. intros [= <- <-]. by left. }
  rewrite Ht. cbn [negb].
  pose proof (allocateResources_venueBookings loaded
                (State.with_venueBookings (λ bs, bs ++ [newVenueBooking v loaded]) s))
    as Hkeep.
  unfold same_on in Hkeep. unfold bind at 1.
  destruct (allocateResources loaded _) as [[rr | msg] s2]; cbn [snd] in Hkeep;
    [| intros [= <- <-]; by left].
  destruct (r_success rr); cbn [negb].
  - unfold bind at 1, event_update.
    destruct (State.events s2 !! eventId); [| intros [= <- <-]; by left].
    unfold bind, modify, ret. intros [= <- <-].
    right. exists event, v. split; [done |]. split; [exact Hfree |]. exact Hkeep.
  - intros [= <- <-].
    right. exists event, v. split; [done |]. split; [exact Hfree |]. exact Hkeep.
Qed.

(** X16.  [allocateEvent] never double-books a venue: if no two confirmed
    bookings of one venue overlap before the call, none do after it,
    whatever the call returns or throws. *)
Theorem allocateEvent_no_double_booking (eventId : string) (s : State.t) :
  noDoubleBooking (State.venueBookings s) →
  noDoubleBooking (State.venueBookings (allocateEvent eventId s).2).
Proof.
  intros Hinv.
  destruct (allocateEvent eventId s) as [out s'] eqn:Hrun. cbn [snd].
  destruct (allocateEvent_venueBookings eventId s s' out Hrun)
    as [-> | (event & v & _ & Hfree & ->)]; [exact Hinv |].
  apply noDoubleBooking_snoc; [exact Hinv |].
  intros b' Hb' Hvid Hst Hover. cbn in Hvid, Hover.
  unfold venueFree in Hfree. apply nil_length_inv in Hfree.
  pose proof (proj1 (conflictingVenueBookings_nil s v event) Hfree b' Hb' Hvid Hst) as Hno.
  apply Hno. unfold overlaps. lia.
Qed.

Lemma allocateEvent_no_double_booking_witness :
  let s := Sample.store ApprovalStage.HEAD_APPROVED [Sample.hall60; Sample.hall100] []
             [Campus.hall60Taken] [] in
  noDoubleBooking (State.venueBookings s) ∧
  State.venueBookings (allocateEvent "ev-1" s).2 =
    [Campus.hall60Taken; VenueBooking.mk "venue-100" "ev-1" 1000 1200 "confirmed"] ∧
  noDoubleBooking (State.venueBookings (allocateEvent "ev-1" s).2).
Proof.
  intros s.
  assert (Hinv : noDoubleBooking (State.venueBookings s)).
  { intros [| i] [| j] b1 b2 Hij Hi Hj; try done; cbn in Hi, Hj;
      rewrite ?lookup_nil in Hi, Hj; discriminate. }
  split; [exact Hinv |]. split; [reflexivity |].
  apply (allocateEvent_no_double_booking "ev-1" s Hinv).
Defined.

Lemma committedAt_snoc (bookings : list ResourceBooking.t) (b : ResourceBooking.t)
    (resourceId : string) (t : Z) :
  committedAt (bookings ++ [b]) resourceId t =
  committedAt bookings resourceId t +
  (if decide (ResourceBooking.resourceId b = resourceId ∧
              ResourceBooking.status b = "confirmed" ∧
              (ResourceBooking.startTime b ≤ t)%Z ∧ t < ResourceBooking.endTime b)
   then ResourceBooking.quantity b else 0).
Proof.
  unfold committedAt. rewrite filter_app, fmap_app, foldr_app.
  rewrite filter_cons, filter_nil.
  assert (Hacc : ∀ (l : list Z) a, foldr Z.add a l = foldr Z.add 0 l + a).
  { induction l as [| x l IH]; intros a; cbn; [lia |]. rewrite IH. lia. }
  rewrite Hacc. f_equal. case_decide; cbn; lia.
Qed.

(** At an instant of the window of the event, the bookings in force
    are among those that overlap the window. *)
Lemma committedAt_le_booked (s : State.t) (event : Event.t) (resourceId : string) (t : Z) :
  Forall (λ b, (0 ≤ ResourceBooking.quantity b)%Z) (State.resourceBookings s) →
  (Event.scheduleStart event ≤ t)%Z → t < Event.scheduleEnd event →
  (committedAt (State.resourceBookings s) resourceId t
   ≤ bookedQuantity (overlappingResourceBookings s resourceId event))%Z.
Proof.
  intros Hpos Hs He. rewrite bookedQuantity_sum.
  unfold committedAt, overlappingResourceBookings.
  induction (State.resourceBookings s) as [| b bs IH]; [done |].
  apply Forall_cons in Hpos as [Hb Hpos]. specialize (IH Hpos). cbn beta in Hb.
  rewrite !filter_cons. unfold overlaps in IH |- *.
  destruct (decide (ResourceBooking.resourceId b = resourceId ∧
                    ResourceBooking.status b = "confirmed" ∧
                    (ResourceBooking.startTime b ≤ t)%Z ∧ t < ResourceBooking.endTime b))
    as [(Hid & Hst & Hbs & Hbe) | Hout];
    destruct (decide (ResourceBooking.resourceId b = resourceId ∧
                      ResourceBooking.status b = "confirmed" ∧
                      ResourceBooking.startTime b < Event.scheduleEnd event ∧
                      ResourceBooking.endTime b > Event.scheduleStart event))
      as [Hin | Hno]; csimpl;
    first [lia | exfalso; apply Hno; repeat split; (done || lia)].
Qed.

(** One more booking that fits what is left keeps the bookings within
    capacity. *)
Lemma withinCapacity_book (total : string → Z) (event : Event.loaded) (s : State.t)
    (request : ResourceRequest.t) :
  withinCapacity total (State.resourceBookings s) →
  Resource.totalQuantity (ResourceRequest.resource request)
    = total (Resource.id (ResourceRequest.resource request)) →
  (0 ≤ ResourceRequest.quantityNeeded request)%Z →
  availableIn event s request >= ResourceRequest.quantityNeeded request →
  withinCapacity total (State.resourceBookings s ++ [newResourceBooking request event]).
Proof.
  intros [Hpos Hcap] Htotal Hneeded Havail. split.
  - apply Forall_app. split; [exact Hpos |]. by constructor.
  - intros rid t. rewrite committedAt_snoc. case_decide as Hcover; [| specialize (Hcap rid t); lia].
    cbn in Hcover. destruct Hcover as (<- & _ & Hs & He).
    pose proof (committedAt_le_booked s event
                  (Resource.id (ResourceRequest.resource request)) t Hpos Hs He) as Hle.
    unfold availableIn in Havail. cbn. lia.
Qed.

Lemma allocateResources_loop_withinCapacity (total : string → Z) (event : Event.loaded)
    (requests : list ResourceRequest.t) allocations conflicts (s : State.t) :
  Forall (λ r, Resource.totalQuantity (ResourceRequest.resource r)
                 = total (Resource.id (ResourceRequest.resource r)) ∧
               (0 ≤ ResourceRequest.quantityNeeded r)%Z) requests →
  withinCapacity total (State.resourceBookings s) →
  withinCapacity total
    (State.resourceBookings
       (allocateResources_loop event requests allocations conflicts s).2).
Proof.
  revert allocations conflicts s.
  induction requests as [| r rest IH]; intros allocations conflicts s Hreqs Hinv;
    [exact Hinv |].
  apply Forall_cons in Hreqs as [[Htotal Hneeded] Hreqs].
  cbn [allocateResources_loop]. unfold bind at 1, gets at 1. case_decide as Hfit.
  - assert (Hinv' : withinCapacity total
                      (State.resourceBookings s ++ [newResourceBooking r event])).
    { apply withinCapacity_book; try done. }
    unfold bind at 1, modify. unfold bind at 1, resourceRequest_update at 1.
    cbn [State.resourceRequests State.with_resourceBookings].
    case_decide; [| exact Hinv'].
    apply IH; [exact Hreqs | exact Hinv'].
  - unfold bind at 1, gets at 1. apply IH; [exact Hreqs | exact Hinv].
Qed.

(** X17.  [allocateEvent] never overbooks a resource.  Suppose every
    resource request carries the total of its resource and asks for a
    quantity that is not negative.  If no booking is negative and at no
    instant the confirmed bookings of a resource exceed its total, the
    same holds after the call, whatever it returns or throws. *)
Theorem allocateEvent_within_capacity (total : string → Z) (eventId : string)
    (s : State.t) :
  Forall (λ r, Resource.totalQuantity (ResourceRequest.resource r)
                 = total (Resource.id (ResourceRequest.resource r)) ∧
               (0 ≤ ResourceRequest.quantityNeeded r)%Z) (State.resourceRequests s) →
  withinCapacity total (State.resourceBookings s) →
  withinCapacity total (State.resourceBookings (allocateEvent eventId s).2).
Proof.
  intros Hreqs Hinv.
  destruct (allocateEvent eventId s) as [out s'] eqn:Hrun. cbn [snd]. revert Hrun.
  unfold allocateEvent, transaction, bind at 1, event_findUnique_loaded, gets.
  destruct (State.events s !! eventId) as [event |];
    cbn [fmap option_fmap option_map]; [| by intros [= <- <-]].
  case_decide; [by intros [= <- <-] |].
  set (loaded := Event.Loaded event _).
  destruct (allocateVenue_outcome loaded s) as (vr & s1 & Hv & Hcases).
  unfold bind at 1. rewrite Hv.
  assert (Hs1 : State.resourceBookings s1 = State.resourceBookings s).
  { destruct Hcases as [[_ ->] | [_ (v & _ & _ & _ & ->)]]; reflexivity. }
  destruct (v_success vr); cbn [negb]; [| intros [= <- <-]; by rewrite Hs1].
  pose proof (allocateResources_loop_withinCapacity total loaded
                (Event.resourceRequests loaded) [] [] s1) as Hloop.
  unfold bind at 1, allocateResources, bind at 1.
  destruct (allocateResources_loop loaded (Event.resourceRequests loaded) [] [] s1)
    as [[[allocations conflicts] | msg] s2]; cbn [snd fst] in *;
    [| by intros [= <- <-]].
  assert (Hinv2 : withinCapacity total (State.resourceBookings s2)).
  { apply Hloop; [| by rewrite Hs1].
    apply Forall_forall. intros r [_ Hr]%list_elem_of_filter.
    rewrite Forall_forall in Hreqs. by apply Hreqs. }
  case_decide; unfold ret at 1; cbn [r_success negb]; [by intros [= <- <-] |].
  unfold bind at 1, event_update.
  destruct (State.events s2 !! eventId); [| by intros [= <- <-]].
  unfold bind, modify, ret. by intros [= <- <-].
Qed.

Lemma allocateEvent_within_capacity_witness :
  let s := Sample.store ApprovalStage.HEAD_APPROVED [Sample.hall60]
             [Sample.wantMics; Sample.wantChairs] [] [Sample.chairsBooked] in
  Forall (λ r, Resource.totalQuantity (ResourceRequest.resource r)
                 = Campus.total (Resource.id (ResourceRequest.resource r)) ∧
               (0 ≤ ResourceRequest.quantityNeeded r)%Z) (State.resourceRequests s) ∧
  withinCapacity Campus.total (State.resourceBookings s) ∧
  State.resourceBookings (allocateEvent "ev-1" s).2 =
    [Sample.chairsBooked; ResourceBooking.mk "res-mics" "ev-1" 2 1000 1200 "confirmed"] ∧
  withinCapacity Campus.total (State.resourceBookings (allocateEvent "ev-1" s).2).
Proof.
  intros s.
  assert (Hreqs : Forall (λ r, Resource.totalQuantity (ResourceRequest.resource r)
                                 = Campus.total (Resource.id (ResourceRequest.resource r)) ∧
                               (0 ≤ ResourceRequest.quantityNeeded r)%Z)
                         (State.resourceRequests s)).
  { repeat constructor; discriminate. }
  assert (Hinv : withinCapacity Campus.total (State.resourceBookings s)).
  { split; [repeat constructor; discriminate |].
    intros resourceId t. unfold committedAt. cbn [s Sample.store Sample.storeOf
      State.resourceBookings]. rewrite filter_cons, filter_nil.
    case_decide as Hb; cbn; [destruct Hb as [<- _]; vm_compute; discriminate |].
    unfold Campus.total. case_decide; lia. }
  split; [exact Hreqs |]. split; [exact Hinv |]. split; [reflexivity |].
  apply (allocateEvent_within_capacity Campus.total "ev-1" s Hreqs Hinv).
Defined.

Lemma allocateResources_loop_conflicts_grow (event : Event.loaded)
    (requests : list ResourceRequest.t) allocations conflicts (s s' : State.t)
    allocations' conflicts' :
  allocateResources_loop event requests allocations conflicts s
    = (Returned (allocations', conflicts'), s') →
  (length conflicts ≤ length conflicts')%nat.
Proof.
  revert allocations conflicts s.
  induction requests as [| r rest IH]; intros allocations conflicts s;
    cbn [allocateResources_loop].
  - intros [= <- <- <-]. lia.
  - unfold bind at 1, gets at 1. case_decide.
    + unfold bind at 1, modify. unfold bind at 1.
      destruct (resourceRequest_update _ _ _) as [[[] | msg] s1]; [| discriminate].
      apply IH.
    + unfold bind at 1, gets at 1. intros Hrun. apply IH in Hrun.
      rewrite length_app in Hrun. cbn in Hrun. lia.
Qed.

(** A run of the loop that adds no conflict has booked every request
    it walked, for the requested quantity, and marked its row. *)
Lemma allocateResources_loop_all_booked (event : Event.loaded)
    (requests : list ResourceRequest.t) allocations conflicts (s s' : State.t)
    allocations' conflicts' :
  allocateResources_loop event requests allocations conflicts s
    = (Returned (allocations', conflicts'), s') →
  (length conflicts' ≤ length conflicts)%nat →
  conflicts' = conflicts ∧
  allocations' =
    allocations ++
      ((λ r, mkAllocation (Resource.id (ResourceRequest.resource r))
               (ResourceRequest.quantityNeeded r)) <$> requests) ∧
  State.resourceBookings s' =
    State.resourceBookings s ++ ((λ r, newResourceBooking r event) <$> requests) ∧
  ∃ g, State.resourceRequests s' = g <$> State.resourceRequests s ∧
       ∀ row,
         ((ResourceRequest.id row ∉ ResourceRequest.id <$> requests) ∧ g row = row) ∨
         (∃ r, r ∈ requests ∧ ResourceRequest.id r = ResourceRequest.id row ∧
               g row = ResourceRequest.set_allocation true
                         (Some (ResourceRequest.quantityNeeded r)) row).
Proof.
  revert allocations conflicts s.
  induction requests as [| r rest IH]; intros allocations conflicts s;
    cbn [allocateResources_loop].
  - intros [= <- <- <-] _. rewrite !app_nil_r. repeat split.
    exists id. split; [by rewrite list_fmap_id |]. intros row. left.
    split; [by intros ?%elem_of_nil | done].
  - unfold bind at 1, gets at 1. case_decide.
    + unfold bind at 1, modify. unfold bind at 1, resourceRequest_update at 1.
      cbn [State.resourceRequests State.with_resourceBookings].
      case_decide; [| discriminate].
      intros Hrun Hlen.
      destruct (IH _ _ _ Hrun Hlen) as (-> & -> & Hb & g & Hg & Hmark).
      split; [reflexivity |]. split; [by rewrite <- app_assoc |].
      split; [rewrite Hb; cbn; by rewrite <- app_assoc |].
      eexists (g ∘ _). split; [rewrite Hg; cbn; by rewrite <- list_fmap_compose |].
      intros row. cbn. case_decide as Hid.
      * right. destruct (Hmark (ResourceRequest.set_allocation true
                                  (Some (ResourceRequest.quantityNeeded r)) row))
          as [[_ ->] | (r' & Hr' & Hid' & ->)].
        -- exists r. split; [left | done].
        -- exists r'. split; [by right | done].
      * destruct (Hmark row) as [[Hnot ->] | (r' & Hr' & Hid' & ->)].
        -- left. split; [| done]. rewrite ?fmap_cons. apply not_elem_of_cons. done.
        -- right. exists r'. split; [by right | done].
    + unfold bind at 1, gets at 1. intros Hrun Hlen.
      apply allocateResources_loop_conflicts_grow in Hrun.
      rewrite length_app in Hrun. cbn in Hrun. lia.
Qed.

(** X18.  What a successful [allocateEvent] has done.  One candidate venue
    that was free has a confirmed booking for the window of the event;
    every resource request of the event has one confirmed booking for
    exactly the quantity it asked for and is marked allocated with that
    quantity; the result lists the venue and the quantities; the event
    is Approved in status and stage; one system step is appended.  A
    second call for the event then throws and changes nothing. *)
Theorem allocateEvent_success_effects (eventId : string) (event : Event.t)
    (s s' : State.t) (result : AllocationResult) :
  State.events s !! eventId = Some event →
  NoDup (ResourceRequest.id <$> State.resourceRequests s) →
  allocateEvent eventId s = (Returned result, s') →
  success result = true →
  let requests :=
    filter (λ r, ResourceRequest.eventId r = eventId) (State.resourceRequests s) in
  ∃ v,
    v ∈ candidateVenues s event ∧
    (∀ b, b ∈ State.venueBookings s → VenueBooking.venueId b = Venue.id v →
          VenueBooking.status b = "confirmed" →
          ¬ (VenueBooking.startTime b < Event.scheduleEnd event ∧
             VenueBooking.endTime b > Event.scheduleStart event)) ∧
    venueId result = Some (Venue.id v) ∧
    State.venueBookings s' =
      State.venueBookings s ++
        [VenueBooking.mk (Venue.id v) (Event.id event) (Event.scheduleStart event)
           (Event.scheduleEnd event) "confirmed"] ∧
    State.resourceBookings s' =
      State.resourceBookings s ++
        ((λ r, ResourceBooking.mk (Resource.id (ResourceRequest.resource r))
                 (Event.id event) (ResourceRequest.quantityNeeded r)
                 (Event.scheduleStart event) (Event.scheduleEnd event) "confirmed")
         <$> requests) ∧
    resourceAllocations result =
      Some ((λ r, mkAllocation (Resource.id (ResourceRequest.resource r))
                    (ResourceRequest.quantityNeeded r)) <$> requests) ∧
    Forall (λ row, ResourceRequest.eventId row = eventId →
                   ResourceRequest.isAllocated row = true ∧
                   ResourceRequest.allocatedQuantity row
                     = Some (ResourceRequest.quantityNeeded row))
           (State.resourceRequests s') ∧
    State.events s' =
      <[eventId := Event.set_approvalStage ApprovalStage.APPROVED
                     (Event.set_status EventStatus.APPROVED event)]> (State.events s) ∧
    State.approvalSteps s' =
      State.approvalSteps s ++
        [ApprovalStep.mk eventId "system" ApprovalStage.APPROVED ApprovalAction.APPROVED
           (Some "Automatic allocation completed successfully")] ∧
    allocateEvent eventId s' = (Threw "Event not ready for allocation", s').
Proof.
  intros Hev Hnd Hrun Hsucc requests. revert Hrun.
  unfold allocateEvent, transaction, bind at 1, event_findUnique_loaded, gets.
  rewrite Hev. cbn [fmap option_fmap option_map]. fold requests.
  case_decide; [discriminate |].
  set (loaded := Event.Loaded event requests).
  destruct (allocateVenue_outcome loaded s) as (vr & s1 & Hv & Hcases).
  unfold bind at 1. rewrite Hv.
  destruct Hcases as [[Hf ->] | [Ht (v & Hcand & Hfree & Hvid & ->)]].
  { rewrite Hf. cbn [negb]. intros [= <- <-]. discriminate Hsucc. }
  rewrite Ht. cbn [negb].
  set (s1 := State.with_venueBookings _ s).
  pose proof (allocateResources_venueBookings loaded s1) as Hkeep.
  pose proof (allocateResources_frame loaded s1) as Hframe.
  unfold same_on in Hkeep.
  unfold allocateResources in Hkeep, Hframe |- *.
  unfold bind in Hkeep, Hframe. unfold bind at 1 2.
  change (Event.resourceRequests loaded) with requests in *.
  destruct (allocateResources_loop loaded requests [] [] s1)
    as [[[allocations conflicts] | msg] s2] eqn:Hloop; cbn [fst snd] in *;
    [| discriminate].
  destruct (decide (0 < length conflicts)%nat) as [Hpos | Hzero].
  { unfold ret at 1. cbn [r_success negb]. intros [= <- <-]. discriminate Hsucc. }
  unfold ret in Hkeep, Hframe. unfold ret at 1.
  cbn [r_success negb r_allocations fst snd] in *.
  destruct (allocateResources_loop_all_booked loaded requests [] [] s1 s2
              allocations conflicts Hloop) as (-> & -> & Hb & g & Hg & Hmark).
  { cbn. lia. }
  destruct Hframe as (Hevents & _ & _ & Hsteps & _ & _).
  assert (Hev2 : State.events s2 !! eventId = Some event) by by rewrite Hevents.
  unfold bind at 1. rewrite (event_update_spec _ _ _ _ Hev2).
  unfold bind, modify, ret. intros [= <- <-].
  exists v. split; [exact Hcand |]. split.
  { unfold venueFree in Hfree. apply nil_length_inv in Hfree.
    exact (proj1 (conflictingVenueBookings_nil s v event) Hfree). }
  split; [exact Hvid |]. split; [exact Hkeep |]. split; [exact Hb |].
  split; [reflexivity |]. split.
  - cbn [State.resourceRequests State.with_approvalSteps State.with_events].
    rewrite Hg. apply Forall_fmap, Forall_forall. intros row Hrow. cbn. intros Heid.
    change (row ∈ State.resourceRequests s) in Hrow.
    destruct (Hmark row) as [[Hnot Hrow'] | (r & Hr & Hid & Hrow')].
    + exfalso. rewrite Hrow' in Heid. apply Hnot. apply list_elem_of_fmap_2.
      apply list_elem_of_filter. done.
    + rewrite Hrow'. cbn. split; [reflexivity |].
      assert (r = row) as ->; [| reflexivity].
      apply list_elem_of_filter in Hr as [_ Hr].
      apply list_elem_of_lookup in Hr as [i Hi]. apply list_elem_of_lookup in Hrow as [j Hj].
      assert (i = j) as ->.
      { eapply NoDup_lookup; [exact Hnd | |];
          rewrite list_lookup_fmap; [by rewrite Hi | by rewrite Hj, Hid]. }
      congruence.
  - cbn. split; [by rewrite Hevents |]. split; [by rewrite Hsteps |].
    unfold allocateEvent, transaction, bind, event_findUnique_loaded, gets.
    cbn [State.events State.with_approvalSteps State.with_events].
    rewrite lookup_insert_eq. cbn [fmap option_fmap option_map].
    case_decide as Hd; [reflexivity |]. cbn in Hd. congruence.
Qed.

Lemma allocateEvent_success_effects_witness :
  let s := Sample.store ApprovalStage.HEAD_APPROVED [Sample.hall100; Sample.hall60]
             [Sample.wantMics; Sample.wantChairs] [] [] in
  let event := Sample.event "ev-1" ApprovalStage.HEAD_APPROVED in
  State.events s !! "ev-1" = Some event ∧
  NoDup (ResourceRequest.id <$> State.resourceRequests s) ∧
  ∃ result s',
    allocateEvent "ev-1" s = (Returned result, s') ∧
    success result = true ∧
    venueId result = Some "venue-60" ∧
    State.venueBookings s' = [VenueBooking.mk "venue-60" "ev-1" 1000 1200 "confirmed"] ∧
    State.resourceBookings s' =
      [ResourceBooking.mk "res-mics" "ev-1" 2 1000 1200 "confirmed";
       ResourceBooking.mk "res-chairs" "ev-1" 10 1000 1200 "confirmed"] ∧
    resourceAllocations result = Some [mkAllocation "res-mics" 2; mkAllocation "res-chairs" 10] ∧
    Forall (λ row, ResourceRequest.eventId row = "ev-1" →
                   ResourceRequest.isAllocated row = true ∧
                   ResourceRequest.allocatedQuantity row
                     = Some (ResourceRequest.quantityNeeded row))
           (State.resourceRequests s') ∧
    State.events s' !! "ev-1" =
      Some (Event.set_approvalStage ApprovalStage.APPROVED
              (Event.set_status EventStatus.APPROVED event)) ∧
    allocateEvent "ev-1" s' = (Threw "Event not ready for allocation", s').
Proof.
  intros s event. split; [reflexivity |].
  assert (Hnd : NoDup (ResourceRequest.id <$> State.resourceRequests s)).
  { cbn. repeat constructor; rewrite ?elem_of_cons, ?elem_of_nil; intuition discriminate. }
  split; [exact Hnd |].
  destruct (allocateEvent "ev-1" s) as [[result | msg] s'] eqn:Hrun;
    [| vm_compute in Hrun; discriminate Hrun].
  assert (Hsucc : success result = true).
  { vm_compute in Hrun. injection Hrun as <- _. reflexivity. }
  assert (Hvenue : venueId result = Some "venue-60").
  { vm_compute in Hrun. injection Hrun as <- _. reflexivity. }
  destruct (allocateEvent_success_effects "ev-1" event s s' result)
    as (v & _ & _ & Hvid & Hvb & Hrb & Hra & Hrows & Hev & _ & Hagain);
    [reflexivity | exact Hnd | exact Hrun | exact Hsucc |].
  rewrite Hvenue in Hvid. injection Hvid as Hvid.
  exists result, s'. split; [reflexivity |]. split; [exact Hsucc |].
  split; [exact Hvenue |]. split; [rewrite Hvb, <- Hvid; reflexivity |].
  split; [exact Hrb |]. split; [exact Hra |]. split; [exact Hrows |].
  split; [rewrite Hev; reflexivity | exact Hagain].
Defined.

(** *** What an allocation leaves alone *)

#[global] Instance sameRequest_refl : Reflexive sameRequest.
Proof. intros r. repeat split. Qed.

#[global] Instance sameRequest_trans : Transitive sameRequest.
Proof.
  intros r1 r2 r3 (H1 & H2 & H3 & H4) (K1 & K2 & K3 & K4). repeat split; congruence.
Qed.

#[global] Instance allocation_writes_refl key id : Reflexive (allocation_writes key id).
Proof.
  intros s. do 5 (split; [done |]).
  split; [exists []; by rewrite app_nil_r |].
  split; [exists []; by rewrite app_nil_r |].
  apply Forall2_same_length_lookup. split; [done |].
  intros i r r' Hr Hr'. assert (r' = r) as -> by congruence. reflexivity.
Qed.

#[global] Instance allocation_writes_trans key id : Transitive (allocation_writes key id).
Proof.
  intros s1 s2 s3 (H1 & H2 & H3 & H4 & H5 & (a1 & H6 & H6') & (b1 & H7 & H7') & H8)
    (K1 & K2 & K3 & K4 & K5 & (a2 & K6 & K6') & (b2 & K7 & K7') & K8).
  split; [congruence |]. split; [congruence |]. split; [congruence |].
  split; [intros k Hk; rewrite K4, H4; done |].
  split; [etransitivity; eassumption |].
  split; [exists (a1 ++ a2); split;
            [rewrite K6, H6; by rewrite <- (assoc_L (++)) | by apply Forall_app] |].
  split; [exists (b1 ++ b2); split;
            [rewrite K7, H7; by rewrite <- (assoc_L (++)) | by apply Forall_app] |].
  eapply Forall2_trans; [| exact H8 | exact K8].
  intros r1 r2 r3 Hr Hr'. etransitivity; eassumption.
Qed.

Lemma resourceRequest_update_writes (key id rid : string) (a : bool) (q : option Z) :
  preserves (allocation_writes key id)
    (resourceRequest_update rid (ResourceRequest.set_allocation a q)).
Proof.
  intros s. unfold resourceRequest_update. case_decide; cbn [snd]; [| reflexivity].
  do 5 (split; [done |]).
  split; [exists []; by rewrite app_nil_r |].
  split; [exists []; by rewrite app_nil_r |].
  cbn [State.resourceRequests State.with_resourceRequests].
  apply Forall2_fmap_r, Forall2_same_length_lookup. split; [done |].
  intros i r r' Hr Hr'. assert (r' = r) as -> by congruence.
  unfold compose. case_decide; repeat split.
Qed.

Lemma allocateVenue_loop_writes (key : string) (event : Event.loaded)
    (candidates : list Venue.t) :
  preserves (allocation_writes key (Event.id event)) (allocateVenue_loop event candidates).
Proof.
  induction candidates as [| venue rest IH]; cbn [allocateVenue_loop].
  - apply preserves_ret; apply _.
  - apply preserves_bind; [apply _ | apply preserves_gets; apply _ |].
    intros bs. case_decide; [| exact IH].
    apply preserves_bind; [apply _ | | intros; apply preserves_ret; apply _].
    apply preserves_modify. intros s.
    destruct (allocation_writes_refl key (Event.id event) s)
      as (H1 & H2 & H3 & H4 & H5 & _ & H7 & H8).
    do 5 (split; [done |]). split; [| split; [exact H7 | exact H8]].
    exists [newVenueBooking venue event]. split; [done |]. by constructor.
Qed.

Lemma allocateVenue_writes (key : string) (event : Event.loaded) :
  preserves (allocation_writes key (Event.id event)) (allocateVenue event).
Proof.
  unfold allocateVenue.
  apply preserves_bind; [apply _ | apply preserves_gets; apply _ |]. intros cands.
  case_decide; [apply preserves_ret; apply _ |].
  apply preserves_bind; [apply _ | apply allocateVenue_loop_writes |].
  intros [r |]; [apply preserves_ret; apply _ |].
  apply preserves_bind; [apply _ | apply preserves_gets; apply _ |].
  intros. apply preserves_ret; apply _.
Qed.

Lemma allocateResources_loop_writes (key : string) (event : Event.loaded)
    requests allocations conflicts :
  preserves (allocation_writes key (Event.id event))
    (allocateResources_loop event requests allocations conflicts).
Proof.
  revert allocations conflicts.
  induction requests as [| request rest IH]; intros allocations conflicts;
    cbn [allocateResources_loop].
  - apply preserves_ret; apply _.
  - apply preserves_bind; [apply _ | apply preserves_gets; apply _ |].
    intros bs. case_decide.
    + apply preserves_bind; [apply _ | |].
      { apply preserves_modify. intros s.
        destruct (allocation_writes_refl key (Event.id event) s)
          as (H1 & H2 & H3 & H4 & H5 & H6 & _ & H8).
        do 6 (split; [done |]). split; [| exact H8].
        exists [newResourceBooking request event]. split; [done |]. by constructor. }
      intros _. apply preserves_bind; [apply _ | apply resourceRequest_update_writes |].
      intros _. apply IH.
    + apply preserves_bind; [apply _ | apply preserves_gets; apply _ |].
      intros. apply IH.
Qed.

Lemma allocateEvent_writes (eventId : string) (event : Event.t) (s : State.t) :
  State.events s !! eventId = Some event →
  allocation_writes eventId (Event.id event) s (allocateEvent eventId s).2.
Proof.
  intros Hev. unfold allocateEvent, transaction.
  match goal with
  | |- allocation_writes _ _ s (match ?body s with _ => _ end).2 =>
      assert (Hbody : allocation_writes eventId (Event.id event) s (body s).2);
        [| destruct (body s) as [[r | msg] s1]; cbn [snd] in *;
           [exact Hbody | reflexivity]]
  end.
  unfold bind at 1, event_findUnique_loaded, gets. rewrite Hev.
  cbn [fmap option_fmap option_map].
  set (loaded := Event.Loaded event _).
  change (Event.id event) with (Event.id loaded).
  case_decide; [reflexivity |].
  match goal with
  | |- allocation_writes _ _ s (?m s).2 =>
      assert (Hm : preserves (allocation_writes eventId (Event.id loaded)) m);
        [| exact (Hm s)]
  end.
  apply preserves_bind; [apply _ | apply allocateVenue_writes |].
  intros venueResult. destruct (negb _); [apply preserves_ret; apply _ |].
  apply preserves_bind; [apply _ | |].
  { unfold allocateResources.
    apply preserves_bind; [apply _ | apply allocateResources_loop_writes |].
    intros r. case_decide; apply preserves_ret; apply _. }
  intros resourceResult. destruct (negb _); [apply preserves_ret; apply _ |].
  apply preserves_bind; [apply _ | |].
  { intros s0. unfold event_update.
    destruct (State.events s0 !! eventId); cbn [snd]; [| reflexivity].
    destruct (allocation_writes_refl eventId (Event.id loaded) s0)
      as (H1 & H2 & H3 & _ & H5 & H6 & H7 & H8).
    do 3 (split; [done |]). split; [| split; [exact H5 | split; [exact H6 | split; [exact H7 | exact H8]]]].
    cbn. intros k Hk. by rewrite lookup_insert_ne. }
  intros _. apply preserves_bind; [apply _ | | intros; apply preserves_ret; apply _].
  apply preserves_modify. intros s0.
  destruct (allocation_writes_refl eventId (Event.id loaded) s0)
    as (H1 & H2 & H3 & H4 & _ & H6 & H7 & H8).
  do 4 (split; [done |]). split; [| split; [exact H6 | split; [exact H7 | exact H8]]].
  cbn. by apply prefix_app_r.
Qed.

(** X19.  [allocateEvent] only adds.  Whatever it returns or throws, the
    bookings that were in the store are still there, unchanged and in
    place; the bookings it added are confirmed bookings of the event;
    no other event row, no user, venue or notification is written; the
    approval steps that were there are kept; and a resource request row
    changes at most in its allocation mark.  Without the event, and
    whenever the call throws, the store is left as it was. *)
Theorem allocateEvent_only_adds (eventId : string) (s : State.t) :
  (State.events s !! eventId = None → (allocateEvent eventId s).2 = s) ∧
  (∀ event,
     State.events s !! eventId = Some event →
     allocation_writes eventId (Event.id event) s (allocateEvent eventId s).2) ∧
  (∀ msg s', allocateEvent eventId s = (Threw msg, s') → s' = s).
Proof.
  split; [| split].
  - intros Hev. unfold allocateEvent, transaction, bind, event_findUnique_loaded, gets.
    by rewrite Hev.
  - intros event. apply allocateEvent_writes.
  - intros msg s'. apply allocateEvent_throw_rolls_back.
Qed.
Lemma allocateEvent_only_adds_witness :
  let s := Sample.store ApprovalStage.HEAD_APPROVED [Sample.hall60; Sample.hall100]
             [Sample.wantMics; Sample.wantChairs] [Campus.hall60Taken]
             [Sample.chairsBooked] in
  State.events s !! "ev-9" = None ∧
  State.events s !! "ev-1" = Some (Sample.event "ev-1" ApprovalStage.HEAD_APPROVED) ∧
  (allocateEvent "ev-9" s).2 = s ∧
  allocation_writes "ev-1" "ev-1" s (allocateEvent "ev-1" s).2.
Proof.
  intros s. split; [reflexivity |]. split; [reflexivity |]. split.
  - apply (proj1 (allocateEvent_only_adds "ev-9" s)). reflexivity.
  - apply (proj1 (proj2 (allocateEvent_only_adds "ev-1" s))
             (Sample.event "ev-1" ApprovalStage.HEAD_APPROVED)).
    reflexivity.
Defined.

(** *** When an allocation succeeds *)

(** X20.  The exact condition of success of [allocateEvent].  For an
    event at HeadApproved whose requests concern different resources
    the call returns, and it returns success exactly when some
    candidate venue has no confirmed booking overlapping the window of
    the event and every request is covered by what the confirmed
    overlapping bookings leave of the total of its resource. *)
Theorem allocateEvent_succeeds_exactly_when (eventId : string) (event : Event.t)
    (s : State.t) :
  let loaded :=
    Event.Loaded event
      (filter (λ r, ResourceRequest.eventId r = eventId) (State.resourceRequests s)) in
  State.events s !! eventId = Some event →
  Event.approvalStage event = ApprovalStage.HEAD_APPROVED →
  NoDup (ResourceRequest.resourceId <$> Event.resourceRequests loaded) →
  ∃ result s',
    allocateEvent eventId s = (Returned result, s') ∧
    (success result = true ↔
     (∃ v, v ∈ candidateVenues s event ∧
           ∀ b, b ∈ State.venueBookings s → VenueBooking.venueId b = Venue.id v →
                VenueBooking.status b = "confirmed" →
                ¬ (VenueBooking.startTime b < Event.scheduleEnd event ∧
                   VenueBooking.endTime b > Event.scheduleStart event)) ∧
     ∀ r, r ∈ Event.resourceRequests loaded →
          Resource.totalQuantity (ResourceRequest.resource r)
          - bookedQuantity
              (overlappingResourceBookings s (Resource.id (ResourceRequest.resource r))
                 event)
          >= ResourceRequest.quantityNeeded r).
Proof.
  intros loaded Hev Hstage Hnd.
  destruct (allocateEvent_success_iff eventId event s Hev Hstage Hnd)
    as (result & s' & Hrun & Hiff).
  exists result, s'. split; [exact Hrun |]. rewrite Hiff.
  rewrite Exists_exists, Forall_forall. unfold venueFree.
  setoid_rewrite length_zero_iff_nil.
  setoid_rewrite conflictingVenueBookings_nil. unfold overlaps. reflexivity.
Qed.

Lemma allocateEvent_succeeds_exactly_when_witness :
  let s := Sample.store ApprovalStage.HEAD_APPROVED [Sample.hall60]
             [Sample.wantMics; Sample.wantChairs] [] [Sample.chairsBooked] in
  let event := Sample.event "ev-1" ApprovalStage.HEAD_APPROVED in
  State.events s !! "ev-1" = Some event ∧
  Event.approvalStage event = ApprovalStage.HEAD_APPROVED ∧
  NoDup (ResourceRequest.resourceId
           <$> filter (λ r, ResourceRequest.eventId r = "ev-1") (State.resourceRequests s)) ∧
  ∃ result s',
    allocateEvent "ev-1" s = (Returned result, s') ∧
    success result = false ∧
    ∃ r, r ∈ State.resourceRequests s ∧
         Resource.totalQuantity (ResourceRequest.resource r)
         - bookedQuantity
             (overlappingResourceBookings s (Resource.id (ResourceRequest.resource r))
                event)
         < ResourceRequest.quantityNeeded r.
Proof.
  intros s event. split; [reflexivity |]. split; [reflexivity |].
  assert (Hnd : NoDup (ResourceRequest.resourceId
                         <$> filter (λ r, ResourceRequest.eventId r = "ev-1")
                               (State.resourceRequests s))).
  { apply (bool_decide_unpack _). vm_compute. exact I. }
  split; [exact Hnd |].
  destruct (allocateEvent_succeeds_exactly_when "ev-1" event s eq_refl eq_refl Hnd)
    as (result & s' & Hrun & Hiff).
  exists result, s'. split; [exact Hrun |]. split.
  - destruct (success result); [| reflexivity].
    destruct (proj1 Hiff eq_refl) as [_ Hcov].
    specialize (Hcov Sample.wantChairs). cbn in Hcov.
    exfalso. apply Z.ge_le in Hcov; [| right; left]. vm_compute in Hcov. by apply Hcov.
  - exists Sample.wantChairs. split; [right; left | reflexivity].
Defined.

(** X21.  The outcomes of [checkAllocationFeasibility].  It writes
    nothing.  It throws for an unknown event.  For a known event,
    whatever its stage, it returns, and it returns success exactly when
    some active venue out of maintenance with enough capacity, of any
    type, has no confirmed booking overlapping the window of the event,
    and every request is covered by what the confirmed overlapping
    bookings in the store leave of the total of its resource. *)
Theorem checkAllocationFeasibility_outcomes (eventId : string) (s : State.t) :
  (checkAllocationFeasibility eventId s).2 = s ∧
  (State.events s !! eventId = None →
   checkAllocationFeasibility eventId s = (Threw "Event not found", s)) ∧
  (∀ event,
     State.events s !! eventId = Some event →
     ∃ check,
       checkAllocationFeasibility eventId s = (Returned check, s) ∧
       (success check = true ↔
        (∃ v, v ∈ State.venues s ∧ Venue.isActive v = true ∧
              Venue.maintenanceMode v = false ∧
              Venue.capacity v >= Event.participantCount event ∧
              ∀ b, b ∈ State.venueBookings s → VenueBooking.venueId b = Venue.id v →
                   VenueBooking.status b = "confirmed" →
                   ¬ (VenueBooking.startTime b < Event.scheduleEnd event ∧
                      VenueBooking.endTime b > Event.scheduleStart event)) ∧
        ∀ r, r ∈ State.resourceRequests s → ResourceRequest.eventId r = eventId →
             Resource.totalQuantity (ResourceRequest.resource r)
             - bookedQuantity
                 (overlappingResourceBookings s
                    (Resource.id (ResourceRequest.resource r)) event)
             >= ResourceRequest.quantityNeeded r)).
Proof.
  split; [symmetry; apply (checkAllocationFeasibility_reads eventId s) |]. split.
  - intros Hev.
    unfold checkAllocationFeasibility, bind, event_findUnique_loaded, gets.
    by rewrite Hev.
  - intros event Hev.
    destruct (checkAllocationFeasibility_spec eventId event s Hev) as (check & Hrun & Hiff).
    exists check. split; [exact Hrun |]. rewrite Hiff.
    rewrite Exists_exists, Forall_forall. unfold venueFree.
    setoid_rewrite length_zero_iff_nil.
    setoid_rewrite conflictingVenueBookings_nil.
    setoid_rewrite list_elem_of_filter. unfold checkVenue_where, overlaps, coveredIn,
      availableIn. cbn [Event.resourceRequests Event.row].
    split.
    + intros [(v & [(Hact & Hmaint & Hcap) Hv] & Hfree) Hreq]. split.
      * exists v. auto.
      * intros r Hr Heid. apply Hreq. done.
    + intros [(v & Hv & Hact & Hmaint & Hcap & Hfree) Hreq]. split.
      * exists v. auto.
      * intros r [Heid Hr]. apply Hreq; done.
Qed.

Lemma checkAllocationFeasibility_outcomes_witness :
  let s := Sample.store ApprovalStage.SUBMITTED [Sample.hall60] [Sample.wantMics] [] [] in
  State.events s !! "ev-9" = None ∧
  State.events s !! "ev-1" = Some (Sample.event "ev-1" ApprovalStage.SUBMITTED) ∧
  checkAllocationFeasibility "ev-9" s = (Threw "Event not found", s) ∧
  ∃ check,
    checkAllocationFeasibility "ev-1" s = (Returned check, s) ∧ success check = true.
Proof.
  intros s. split; [reflexivity |]. split; [reflexivity |]. split.
  - apply (proj1 (proj2 (checkAllocationFeasibility_outcomes "ev-9" s))). reflexivity.
  - destruct (proj2 (proj2 (checkAllocationFeasibility_outcomes "ev-1" s))
                (Sample.event "ev-1" ApprovalStage.SUBMITTED) eq_refl)
      as (check & Hrun & Hiff).
    exists check. split; [exact Hrun |]. apply Hiff. split.
    + exists Sample.hall60. split; [left |]. repeat split; try discriminate.
      intros b Hb. by apply elem_of_nil in Hb.
    + intros r Hr _. apply list_elem_of_singleton in Hr as ->. discriminate.
Defined.

(** *** The lemmas on agreement and on a failure after the venue phase, on
    sample stores *)

Lemma checkAllocationFeasibility_agrees_witness :
  let s := Sample.store ApprovalStage.HEAD_APPROVED [Sample.hall60]
             [Sample.wantMics; Sample.wantChairs] [] [Sample.chairsBooked] in
  let event := Sample.event "ev-1" ApprovalStage.HEAD_APPROVED in
  State.events s !! "ev-1" = Some event ∧
  Event.approvalStage event = ApprovalStage.HEAD_APPROVED ∧
  Event.venueTypePreference event = None ∧
  NoDup (ResourceRequest.resourceId
           <$> filter (λ r, ResourceRequest.eventId r = "ev-1") (State.resourceRequests s)) ∧
  ∃ check result s',
    checkAllocationFeasibility "ev-1" s = (Returned check, s) ∧
    allocateEvent "ev-1" s = (Returned result, s') ∧
    success check = false ∧ success result = false.
Proof.
  intros s event. split; [reflexivity |]. split; [reflexivity |]. split; [reflexivity |].
  assert (Hnd : NoDup (ResourceRequest.resourceId
                         <$> filter (λ r, ResourceRequest.eventId r = "ev-1")
                               (State.resourceRequests s))).
  { apply (bool_decide_unpack _). vm_compute. exact I. }
  split; [exact Hnd |].
  destruct (checkAllocationFeasibility_agrees "ev-1" event s eq_refl eq_refl eq_refl Hnd)
    as (check & result & s' & Hcheck & Hrun & Hsame).
  exists check, result, s'. split; [exact Hcheck |]. split; [exact Hrun |].
  assert (Hfalse : success check = false).
  { assert (Hc : (checkAllocationFeasibility "ev-1" s).1 = Returned check)
      by (rewrite Hcheck; reflexivity).
    vm_compute in Hc. injection Hc as <-. reflexivity. }
  split; [exact Hfalse | by rewrite <- Hsame].
Defined.

Lemma allocateEvent_failure_keeps_venue_booking_witness :
  let s := Sample.store ApprovalStage.HEAD_APPROVED [Sample.hall60]
             [Sample.wantMics; Sample.wantChairs] [] [Sample.chairsBooked] in
  let event := Sample.event "ev-1" ApprovalStage.HEAD_APPROVED in
  let loaded := Event.Loaded event [Sample.wantMics; Sample.wantChairs] in
  let s1 := (allocateVenue loaded s).2 in
  let s2 := (allocateResources loaded s1).2 in
  State.events s !! "ev-1" = Some event ∧
  Event.approvalStage event = ApprovalStage.HEAD_APPROVED ∧
  ∃ venueResult resourceResult,
    allocateVenue loaded s = (Returned venueResult, s1) ∧
    v_success venueResult = true ∧
    allocateResources loaded s1 = (Returned resourceResult, s2) ∧
    r_success resourceResult = false ∧
    ∃ result s',
      allocateEvent "ev-1" s = (Returned result, s') ∧
      success result = false ∧
      State.venueBookings s' = [VenueBooking.mk "venue-60" "ev-1" 1000 1200 "confirmed"].
Proof.
  intros s event loaded s1 s2.
  split; [reflexivity |]. split; [reflexivity |].
  eexists _, _.
  assert (Hvenue : allocateVenue loaded s = (Returned _, s1)) by reflexivity.
  assert (Hres : allocateResources loaded s1 = (Returned _, s2)) by reflexivity.
  split; [exact Hvenue |]. split; [reflexivity |]. split; [exact Hres |].
  split; [reflexivity |].
  destruct (allocateEvent_failure_keeps_venue_booking "ev-1" event s s1 s2 _ _
              eq_refl eq_refl Hvenue eq_refl Hres eq_refl)
    as (result & s' & v & Hrun & Hfail & Hcand & Hbook).
  exists result, s'. split; [exact Hrun |]. split; [exact Hfail |].
  rewrite Hbook. change (candidateVenues s event) with [Sample.hall60] in Hcand.
  apply list_elem_of_singleton in Hcand as ->. reflexivity.
Defined.

(** ** Background jobs *)

Import BackgroundJobService.

(** The quantity that the bookings of the event hold of a resource,
    whatever their status. *)
Lemma restoreQuantities_spec (bookings : list ResourceBooking.t) (available : gmap string Z) :
  (∀ b, b ∈ bookings → is_Some (available !! ResourceBooking.resourceId b)) →
  ∃ available',
    restoreQuantities bookings available = Some available' ∧
    ∀ resourceId,
      available' !! resourceId =
        (λ q, q + foldr Z.add 0
                    (ResourceBooking.quantity
                     <$> filter (λ b, ResourceBooking.resourceId b = resourceId) bookings))
        <$> available !! resourceId.
Proof.
  revert available. induction bookings as [| b rest IH]; intros available Hrows.
  - exists available. split; [reflexivity |]. intros resourceId. cbn.
    destruct (available !! resourceId); cbn; [f_equal; lia | reflexivity].
  - cbn [restoreQuantities].
    destruct (Hrows b) as [q Hq]; [left |]. rewrite Hq.
    destruct (IH (<[ResourceBooking.resourceId b := q + ResourceBooking.quantity b]>
                    available)) as (available' & Hrun & Hsum).
    { intros b' Hb'. apply lookup_insert_is_Some'. right. apply Hrows. by right. }
    exists available'. split; [exact Hrun |]. intros resourceId. rewrite Hsum.
    rewrite filter_cons. case_decide as Hid.
    + subst resourceId. rewrite lookup_insert_eq, Hq. cbn. f_equal. lia.
    + rewrite lookup_insert_ne by done. reflexivity.
Qed.

(** X22.  The release job.  For an unknown event, and for an event that
    has neither ended nor been completed, [processAutoResourceRelease]
    writes nothing.  For an event that has ended or is completed, with
    a resource row for each of its bookings, it sets every venue and
    resource booking of the event to cancelled and leaves the bookings
    of other events as they are; adds to the available quantity of each
    resource the quantities of all bookings of the event for it,
    whatever their status; appends one audit log entry; and writes no
    other table: the event row keeps its status and the resource
    requests keep their allocation marks. *)
Theorem processAutoResourceRelease_releases (now : Z) (eventId : string) (st : Store) :
  (State.events (base st) !! eventId = None →
   processAutoResourceRelease now eventId st = (Returned tt, st)) ∧
  (∀ event,
     State.events (base st) !! eventId = Some event →
     Event.scheduleEnd event > now → Event.status event ≠ EventStatus.COMPLETED →
     processAutoResourceRelease now eventId st = (Returned tt, st)) ∧
  (∀ event,
     State.events (base st) !! eventId = Some event →
     (Event.scheduleEnd event ≤ now)%Z ∨ Event.status event = EventStatus.COMPLETED →
     (∀ b, b ∈ State.resourceBookings (base st) → ResourceBooking.eventId b = eventId →
           is_Some (availableQuantity st !! ResourceBooking.resourceId b)) →
     ∃ st',
       processAutoResourceRelease now eventId st = (Returned tt, st') ∧
       Forall2 (λ b b',
                  b' = VenueBooking.mk (VenueBooking.venueId b) (VenueBooking.eventId b)
                         (VenueBooking.startTime b) (VenueBooking.endTime b)
                         (if decide (VenueBooking.eventId b = eventId)
                          then "cancelled" else VenueBooking.status b))
               (State.venueBookings (base st)) (State.venueBookings (base st')) ∧
       Forall2 (λ b b',
                  b' = ResourceBooking.mk (ResourceBooking.resourceId b)
                         (ResourceBooking.eventId b) (ResourceBooking.quantity b)
                         (ResourceBooking.startTime b) (ResourceBooking.endTime b)
                         (if decide (ResourceBooking.eventId b = eventId)
                          then "cancelled" else ResourceBooking.status b))
               (State.resourceBookings (base st)) (State.resourceBookings (base st')) ∧
       (∀ resourceId,
          availableQuantity st' !! resourceId =
            (λ q, q + foldr Z.add 0
                        (ResourceBooking.quantity
                         <$> filter (λ b, ResourceBooking.eventId b = eventId ∧
                                          ResourceBooking.resourceId b = resourceId)
                                    (State.resourceBookings (base st))))
            <$> availableQuantity st !! resourceId) ∧
       auditLog st' =
         auditLog st ++
           [AuditLog.mk (Some eventId) "system" "auto_release" "event" eventId
              "Resources automatically released after event completion"] ∧
       State.events (base st') = State.events (base st) ∧
       State.users (base st') = State.users (base st) ∧
       State.venues (base st') = State.venues (base st) ∧
       State.resourceRequests (base st') = State.resourceRequests (base st) ∧
       State.approvalSteps (base st') = State.approvalSteps (base st) ∧
       State.notifications (base st') = State.notifications (base st)).
Proof.
  unfold processAutoResourceRelease. split; [| split].
  - intros Hev. by rewrite Hev.
  - intros event Hev Hend Hst. rewrite Hev. case_decide as Hd; [reflexivity |].
    exfalso. apply Hd. done.
  - intros event Hev Hdue Hrows. rewrite Hev.
    case_decide as Hd.
    { exfalso. destruct Hd as [Hend Hst]. destruct Hdue; [lia | contradiction]. }
    clear Hd.
    destruct (restoreQuantities_spec
                (filter (λ b, ResourceBooking.eventId b = eventId)
                        (State.resourceBookings (base st)))
                (availableQuantity st)) as (available' & Hrun & Hsum).
    { intros b [Hid Hb]%list_elem_of_filter. by apply Hrows. }
    rewrite Hrun. eexists. split; [reflexivity |]. cbn.
    split; [| split; [| split; [| done]]].
    + apply Forall2_fmap_r, Forall2_same_length_lookup. split; [done |].
      intros i b b' Hb Hb'. assert (b' = b) as -> by congruence.
      unfold compose, cancelVenueBooking. case_decide; [reflexivity | by destruct b].
    + apply Forall2_fmap_r, Forall2_same_length_lookup. split; [done |].
      intros i b b' Hb Hb'. assert (b' = b) as -> by congruence.
      unfold compose, cancelResourceBooking. case_decide; [reflexivity | by destruct b].
    + intros resourceId. rewrite Hsum, list_filter_filter.
      rewrite (list_filter_iff _ (λ b, ResourceBooking.eventId b = eventId ∧
                                       ResourceBooking.resourceId b = resourceId));
        [reflexivity | intros b; tauto].
Qed.

Lemma processAutoResourceRelease_releases_witness :
  let st := SampleJobs.store in
  State.events (base st) !! "ev-9" = None ∧
  State.events (base st) !! "ev-1" = Some (Sample.event "ev-1" ApprovalStage.APPROVED) ∧
  processAutoResourceRelease 5000 "ev-9" st = (Returned tt, st) ∧
  processAutoResourceRelease 1100 "ev-1" st = (Returned tt, st) ∧
  ∃ st',
    processAutoResourceRelease 5000 "ev-1" st = (Returned tt, st') ∧
    State.venueBookings (base st') =
      [VenueBooking.mk "venue-60" "ev-1" 1000 1200 "cancelled"; SampleJobs.hallLater] ∧
    State.resourceBookings (base st') =
      [ResourceBooking.mk "res-mics" "ev-1" 2 1000 1200 "cancelled";
       Sample.chairsBooked] ∧
    availableQuantity st' !! "res-mics" = Some 4 ∧
    availableQuantity st' !! "res-chairs" = Some 5 ∧
    length (auditLog st') = 1%nat.
Proof.
  intros st. split; [reflexivity |]. split; [reflexivity |]. split; [| split].
  - apply (proj1 (processAutoResourceRelease_releases 5000 "ev-9" st)). reflexivity.
  - apply (proj1 (proj2 (processAutoResourceRelease_releases 1100 "ev-1" st))
             (Sample.event "ev-1" ApprovalStage.APPROVED));
      [reflexivity | reflexivity | discriminate].
  - destruct (proj2 (proj2 (processAutoResourceRelease_releases 5000 "ev-1" st))
                (Sample.event "ev-1" ApprovalStage.APPROVED))
      as (st' & Hrun & _ & _ & Hq & Hlog & _).
    + reflexivity.
    + left. discriminate.
    + intros b Hb Hid. cbn in Hb.
      apply elem_of_cons in Hb as [-> | Hb]; [by eexists |].
      apply list_elem_of_singleton in Hb as ->. discriminate Hid.
    + exists st'. split; [exact Hrun |].
      assert (Hst' : st' = (processAutoResourceRelease 5000 "ev-1" st).2)
        by (by rewrite Hrun).
      split; [rewrite Hst'; reflexivity |]. split; [rewrite Hst'; reflexivity |].
      split; [rewrite Hq; reflexivity |]. split; [rewrite Hq; reflexivity |].
      rewrite Hlog. reflexivity.
Defined.

(** Filtering a table in which the rows picked by [Q] were rewritten
    into rows that fail [P]. *)
Lemma filter_rewritten {A} (f : A → A) (Q P : A → Prop)
    `{!∀ x, Decision (Q x), !∀ x, Decision (P x)} (l : list A) :
  (∀ x, Q x → ¬ P (f x)) → (∀ x, ¬ Q x → f x = x) →
  filter P (f <$> l) = filter (λ x, ¬ Q x ∧ P x) l.
Proof.
  intros Hq Hn. induction l as [| x l IH]; [reflexivity |].
  rewrite fmap_cons, !filter_cons, IH.
  destruct (decide (Q x)) as [Hx | Hx].
  - rewrite decide_False by (by apply Hq). rewrite decide_False by tauto. reflexivity.
  - rewrite (Hn x Hx). destruct (decide (P x)) as [Hp | Hp].
    + rewrite decide_True by tauto. reflexivity.
    + rewrite decide_False by tauto. reflexivity.
Qed.

(** What [processAutoResourceRelease] leaves of the store of the two
    engines: the store itself, or the store with the bookings of the
    event cancelled. *)
Lemma processAutoResourceRelease_base (now : Z) (eventId : string) (st : Store) :
  base (processAutoResourceRelease now eventId st).2 = base st ∨
  base (processAutoResourceRelease now eventId st).2 =
    State.with_resourceBookings (fmap (cancelResourceBooking eventId))
      (State.with_venueBookings (fmap (cancelVenueBooking eventId)) (base st)).
Proof.
  unfold processAutoResourceRelease.
  destruct (State.events (base st) !! eventId); [| by left].
  case_decide; [by left |].
  destruct (restoreQuantities _ _); [by right | by left].
Qed.

Lemma conflictingVenueBookings_cancelled (eventId : string) (s : State.t)
    (venue : Venue.t) (other : Event.t) :
  conflictingVenueBookings
    (State.with_resourceBookings (fmap (cancelResourceBooking eventId))
       (State.with_venueBookings (fmap (cancelVenueBooking eventId)) s)) venue other
  = filter (λ b, VenueBooking.eventId b ≠ eventId) (conflictingVenueBookings s venue other).
Proof.
  unfold conflictingVenueBookings. cbn [State.venueBookings State.with_venueBookings
    State.with_resourceBookings].
  rewrite (filter_rewritten (cancelVenueBooking eventId)
             (λ b, VenueBooking.eventId b = eventId)
             (λ b, VenueBooking.venueId b = Venue.id venue ∧
                   VenueBooking.status b = "confirmed" ∧
                   overlaps (VenueBooking.startTime b) (VenueBooking.endTime b) other)),
    list_filter_filter.
  - reflexivity.
  - intros b Hb. unfold cancelVenueBooking. rewrite decide_True by done. cbn.
    intros (_ & Hst & _). discriminate Hst.
  - intros b Hb. unfold cancelVenueBooking. by rewrite decide_False.
Qed.

Lemma overlappingResourceBookings_cancelled (eventId : string) (s : State.t)
    (resourceId : string) (other : Event.t) :
  overlappingResourceBookings
    (State.with_resourceBookings (fmap (cancelResourceBooking eventId))
       (State.with_venueBookings (fmap (cancelVenueBooking eventId)) s)) resourceId other
  = filter (λ b, ResourceBooking.eventId b ≠ eventId)
           (overlappingResourceBookings s resourceId other).
Proof.
  unfold overlappingResourceBookings. cbn [State.resourceBookings State.with_venueBookings
    State.with_resourceBookings].
  rewrite (filter_rewritten (cancelResourceBooking eventId)
             (λ b, ResourceBooking.eventId b = eventId)
             (λ b, ResourceBooking.resourceId b = resourceId ∧
                   ResourceBooking.status b = "confirmed" ∧
                   overlaps (ResourceBooking.startTime b) (ResourceBooking.endTime b)
                     other)),
    list_filter_filter.
  - reflexivity.
  - intros b Hb. unfold cancelResourceBooking. rewrite decide_True by done. cbn.
    intros (_ & Hst & _). discriminate Hst.
  - intros b Hb. unfold cancelResourceBooking. by rewrite decide_False.
Qed.

(** X23.  What a release gives back to the allocation engine.  After the
    release of an event that has ended or is completed, the bookings
    that the allocation engine counts against another event are the
    ones it counted before, less those of the released event.  So a
    venue is free for the other event exactly when every confirmed
    booking of it that overlaps the window belonged to the released
    event, and the booked quantity of a resource is the one of the
    bookings of the remaining events. *)
Theorem processAutoResourceRelease_frees (now : Z) (eventId : string) (event : Event.t)
    (st : Store) (other : Event.t) :
  State.events (base st) !! eventId = Some event →
  (Event.scheduleEnd event ≤ now)%Z ∨ Event.status event = EventStatus.COMPLETED →
  (∀ b, b ∈ State.resourceBookings (base st) → ResourceBooking.eventId b = eventId →
        is_Some (availableQuantity st !! ResourceBooking.resourceId b)) →
  let s' := base (processAutoResourceRelease now eventId st).2 in
  (∀ venue,
     conflictingVenueBookings s' venue other
     = filter (λ b, VenueBooking.eventId b ≠ eventId)
              (conflictingVenueBookings (base st) venue other)) ∧
  (∀ venue,
     venueFree s' other venue ↔
     ∀ b, b ∈ State.venueBookings (base st) → VenueBooking.venueId b = Venue.id venue →
          VenueBooking.status b = "confirmed" →
          VenueBooking.startTime b < Event.scheduleEnd other ∧
          VenueBooking.endTime b > Event.scheduleStart other →
          VenueBooking.eventId b = eventId) ∧
  (∀ resourceId,
     bookedQuantity (overlappingResourceBookings s' resourceId other)
     = bookedQuantity
         (filter (λ b, ResourceBooking.eventId b ≠ eventId)
                 (overlappingResourceBookings (base st) resourceId other))).
Proof.
  intros Hev Hdue Hrows s'.
  assert (Hs' : s' = State.with_resourceBookings (fmap (cancelResourceBooking eventId))
                       (State.with_venueBookings (fmap (cancelVenueBooking eventId))
                          (base st))).
  { subst s'. unfold processAutoResourceRelease. rewrite Hev.
    case_decide as Hd.
    { exfalso. destruct Hd as [Hend Hst]. destruct Hdue; [lia | contradiction]. }
    destruct (restoreQuantities_spec
                (filter (λ b, ResourceBooking.eventId b = eventId)
                        (State.resourceBookings (base st)))
                (availableQuantity st)) as (available' & Hrun & _).
    { intros b [Hid Hb]%list_elem_of_filter. by apply Hrows. }
    rewrite Hrun. reflexivity. }
  rewrite Hs'. split; [| split].
  - intros venue. apply conflictingVenueBookings_cancelled.
  - intros venue. unfold venueFree.
    rewrite length_zero_iff_nil, conflictingVenueBookings_cancelled.
    unfold conflictingVenueBookings, overlaps. split.
    + intros Hnil b Hb Hvid Hst Hov.
      destruct (decide (VenueBooking.eventId b = eventId)) as [| Hne]; [done |].
      exfalso. eapply (filter_nil_not_elem_of _ _ b Hnil); [exact Hne |].
      apply list_elem_of_filter. split; [| exact Hb]. repeat split; tauto.
    + intros Hall. apply elem_of_nil_inv.
      intros b [Hne [(Hvid & Hst & Hov) Hb]%list_elem_of_filter]%list_elem_of_filter.
      apply Hne. by apply Hall.
  - intros resourceId. by rewrite overlappingResourceBookings_cancelled.
Qed.

Lemma processAutoResourceRelease_frees_witness :
  let st := SampleJobs.store in
  let s' := base (processAutoResourceRelease 5000 "ev-1" st).2 in
  State.events (base st) !! "ev-1" = Some (Sample.event "ev-1" ApprovalStage.APPROVED) ∧
  (Event.scheduleEnd (Sample.event "ev-1" ApprovalStage.APPROVED) ≤ 5000)%Z ∧
  ¬ venueFree (base st) SampleJobs.workshop Sample.hall60 ∧
  venueFree s' SampleJobs.workshop Sample.hall60 ∧
  bookedQuantity (overlappingResourceBookings (base st) "res-mics" SampleJobs.workshop) = 2 ∧
  bookedQuantity (overlappingResourceBookings s' "res-mics" SampleJobs.workshop) = 0.
Proof.
  intros st s'. split; [reflexivity |]. split; [discriminate |].
  split; [discriminate |].
  destruct (processAutoResourceRelease_frees 5000 "ev-1"
              (Sample.event "ev-1" ApprovalStage.APPROVED) st SampleJobs.workshop)
    as (_ & Hfree & Hbooked).
  - reflexivity.
  - left. discriminate.
  - intros b Hb Hid. cbn in Hb.
    apply elem_of_cons in Hb as [-> | Hb]; [by eexists |].
    apply list_elem_of_singleton in Hb as ->. discriminate Hid.
  - split; [| split; [reflexivity |]].
    + apply Hfree. intros b Hb Hvid Hst [Hs He]. cbn in Hb.
      apply elem_of_cons in Hb as [-> | Hb]; [reflexivity |].
      apply list_elem_of_singleton in Hb as ->. exfalso. cbn in Hs. lia.
    + fold s'. rewrite Hbooked. reflexivity.
Defined.

Lemma noDoubleBooking_cancel (eventId : string) (bookings : list VenueBooking.t) :
  noDoubleBooking bookings → noDoubleBooking (cancelVenueBooking eventId <$> bookings).
Proof.
  intros Hinv i j b1' b2' Hij Hi Hj Hv H1 H2.
  rewrite list_lookup_fmap in Hi, Hj.
  destruct (bookings !! i) as [b1 |] eqn:E1; [| discriminate].
  destruct (bookings !! j) as [b2 |] eqn:E2; [| discriminate].
  cbn in Hi, Hj. injection Hi as <-. injection Hj as <-.
  unfold cancelVenueBooking in *.
  destruct (decide (VenueBooking.eventId b1 = eventId)); [discriminate H1 |].
  destruct (decide (VenueBooking.eventId b2 = eventId)); [discriminate H2 |].
  by eapply (Hinv i j).
Qed.

Lemma committedAt_cancel (eventId : string) (bookings : list ResourceBooking.t)
    (resourceId : string) (t : Z) :
  Forall (λ b, (0 ≤ ResourceBooking.quantity b)%Z) bookings →
  (committedAt (cancelResourceBooking eventId <$> bookings) resourceId t
   ≤ committedAt bookings resourceId t)%Z.
Proof.
  unfold committedAt. induction 1 as [| b rest Hb Hrest IH]; [reflexivity |].
  rewrite fmap_cons, !filter_cons.
  destruct (decide (ResourceBooking.eventId b = eventId)) as [Hid | Hid].
  - rewrite decide_False.
    + case_decide; cbn; lia.
    + unfold cancelResourceBooking. rewrite decide_True by done. cbn.
      intros (_ & Hst & _). discriminate Hst.
  - assert (cancelResourceBooking eventId b = b) as ->.
    { unfold cancelResourceBooking. by rewrite decide_False. }
    case_decide; cbn; lia.
Qed.

(** X24.  A release never breaks the booking tables.  Whatever
    [processAutoResourceRelease] returns or throws: if no two confirmed
    bookings of one venue overlapped before, none do after; and if no
    booking was negative and the confirmed bookings of no resource
    exceeded its total at any instant, the same holds after. *)
Theorem processAutoResourceRelease_keeps_invariants (now : Z) (eventId : string)
    (st : Store) (total : string → Z) :
  let s' := base (processAutoResourceRelease now eventId st).2 in
  (noDoubleBooking (State.venueBookings (base st)) →
   noDoubleBooking (State.venueBookings s')) ∧
  (withinCapacity total (State.resourceBookings (base st)) →
   withinCapacity total (State.resourceBookings s')).
Proof.
  intros s'. subst s'.
  destruct (processAutoResourceRelease_base now eventId st) as [-> | ->]; [done |].
  cbn [State.venueBookings State.resourceBookings State.with_venueBookings
    State.with_resourceBookings]. split.
  - apply noDoubleBooking_cancel.
  - intros [Hpos Hcap]. split.
    + apply Forall_fmap. eapply Forall_impl; [exact Hpos |].
      intros b Hb. unfold compose, cancelResourceBooking. by case_decide.
    + intros resourceId t. etransitivity; [by apply committedAt_cancel | apply Hcap].
Qed.

Lemma processAutoResourceRelease_keeps_invariants_witness :
  let st := SampleJobs.store in
  let s' := base (processAutoResourceRelease 5000 "ev-1" st).2 in
  noDoubleBooking (State.venueBookings (base st)) ∧
  withinCapacity Campus.total (State.resourceBookings (base st)) ∧
  noDoubleBooking (State.venueBookings s') ∧
  withinCapacity Campus.total (State.resourceBookings s').
Proof.
  intros st s'.
  assert (Hinv : noDoubleBooking (State.venueBookings (base st))).
  { intros [| [| i]] [| [| j]] b1 b2 Hij Hi Hj; try done; cbn in Hi, Hj;
      rewrite ?lookup_nil in Hi, Hj; try discriminate;
      injection Hi as <-; injection Hj as <-; cbn; lia. }
  assert (Hcap : withinCapacity Campus.total (State.resourceBookings (base st))).
  { split; [repeat constructor; discriminate |].
    intros resourceId t. unfold committedAt.
    cbn [st SampleJobs.store base Sample.store Sample.storeOf State.resourceBookings].
    rewrite !filter_cons, filter_nil.
    repeat case_decide; cbn in *;
      repeat match goal with
             | H : _ ∧ _ |- _ => destruct H as [H _]
             end;
      subst; try congruence; try (vm_compute; discriminate);
      unfold Campus.total; case_decide; lia. }
  split; [exact Hinv |]. split; [exact Hcap |].
  pose proof (processAutoResourceRelease_keeps_invariants 5000 "ev-1" st Campus.total)
    as [Hv Hr].
  split; [exact (Hv Hinv) | exact (Hr Hcap)].
Defined.

Lemma processAutoResourceRelease_due (now : Z) (eventId : string) (event : Event.t)
    (st : Store) :
  State.events (base st) !! eventId = Some event →
  (Event.scheduleEnd event ≤ now)%Z ∨ Event.status event = EventStatus.COMPLETED →
  (∀ b, b ∈ State.resourceBookings (base st) → ResourceBooking.eventId b = eventId →
        is_Some (availableQuantity st !! ResourceBooking.resourceId b)) →
  ∃ st',
    processAutoResourceRelease now eventId st = (Returned tt, st') ∧
    base st' =
      State.with_resourceBookings (fmap (cancelResourceBooking eventId))
        (State.with_venueBookings (fmap (cancelVenueBooking eventId)) (base st)).
Proof.
  intros Hev Hdue Hrows. unfold processAutoResourceRelease. rewrite Hev.
  case_decide as Hd.
  { exfalso. destruct Hd as [Hend Hst]. destruct Hdue; [lia | contradiction]. }
  destruct (restoreQuantities_spec
              (filter (λ b, ResourceBooking.eventId b = eventId)
                      (State.resourceBookings (base st)))
              (availableQuantity st)) as (available' & Hrun & _).
  { intros b [Hid Hb]%list_elem_of_filter. by apply Hrows. }
  rewrite Hrun. eexists. split; reflexivity.
Qed.

(** X25.  The release job that [scheduleEventJobs] schedules does its
    work when it is due.  The request is for one hour after the end of
    the event and carries the id of the event; at any time from then
    on, for the event with that end and with a resource row for each of
    its bookings, [processAutoResourceRelease] returns and leaves no
    booking of the event that is not cancelled.  A reminder is
    scheduled only for a time that is still to come, one hour before
    the start. *)
Theorem scheduleEventJobs_release_is_due (now : Z) (eventId : string)
    (scheduleStart scheduleEnd : Z) (r : JobRequest) :
  r ∈ scheduleEventJobs now eventId scheduleStart scheduleEnd →
  (r_type r = JobType.EVENT_REMINDER ∧ r_scheduledFor r > now ∧
   r_scheduledFor r = scheduleStart - 3600000 ∧
   JobPayload.eventId (r_payload r) = Some eventId) ∨
  (r_type r = JobType.AUTO_RESOURCE_RELEASE ∧
   r_scheduledFor r = scheduleEnd + 3600000 ∧
   JobPayload.eventId (r_payload r) = Some eventId ∧
   ∀ now' st event,
     (r_scheduledFor r ≤ now')%Z →
     State.events (base st) !! eventId = Some event →
     Event.scheduleEnd event = scheduleEnd →
     (∀ b, b ∈ State.resourceBookings (base st) → ResourceBooking.eventId b = eventId →
           is_Some (availableQuantity st !! ResourceBooking.resourceId b)) →
     ∃ st',
       processAutoResourceRelease now' eventId st = (Returned tt, st') ∧
       Forall (λ b, VenueBooking.eventId b = eventId →
                    VenueBooking.status b = "cancelled")
              (State.venueBookings (base st')) ∧
       Forall (λ b, ResourceBooking.eventId b = eventId →
                    ResourceBooking.status b = "cancelled")
              (State.resourceBookings (base st'))).
Proof.
  unfold scheduleEventJobs. intros [Hr | Hr]%elem_of_app.
  - left. case_decide as Hlate; [| by apply elem_of_nil in Hr].
    apply list_elem_of_singleton in Hr as ->. cbn. repeat split; lia.
  - right. apply list_elem_of_singleton in Hr as ->. cbn.
    split; [reflexivity |]. split; [lia |]. split; [reflexivity |].
    intros now' st event Hdue Hev Hend Hrows.
    destruct (processAutoResourceRelease_due now' eventId event st Hev) as (st' & Hrun & Hbase);
      [left; lia | exact Hrows |].
    exists st'. split; [exact Hrun |]. rewrite Hbase. cbn. split.
    + apply Forall_fmap, Forall_forall. intros b _. unfold compose, cancelVenueBooking.
      case_decide; cbn; [reflexivity | contradiction].
    + apply Forall_fmap, Forall_forall. intros b _. unfold compose, cancelResourceBooking.
      case_decide; cbn; [reflexivity | contradiction].
Qed.

Lemma scheduleEventJobs_release_is_due_witness :
  let st := SampleJobs.store in
  let r := mkRequest JobType.AUTO_RESOURCE_RELEASE (JobPayload.mk (Some "ev-1") None None)
             3601200 3 in
  r ∈ scheduleEventJobs 500 "ev-1" 1000 1200 ∧
  State.events (base st) !! "ev-1" = Some (Sample.event "ev-1" ApprovalStage.APPROVED) ∧
  Event.scheduleEnd (Sample.event "ev-1" ApprovalStage.APPROVED) = 1200 ∧
  ∃ st',
    processAutoResourceRelease 3601200 "ev-1" st = (Returned tt, st') ∧
    Forall (λ b, VenueBooking.eventId b = "ev-1" → VenueBooking.status b = "cancelled")
           (State.venueBookings (base st')) ∧
    Forall (λ b, ResourceBooking.eventId b = "ev-1" →
                 ResourceBooking.status b = "cancelled")
           (State.resourceBookings (base st')).
Proof.
  intros st r.
  assert (Hr : r ∈ scheduleEventJobs 500 "ev-1" 1000 1200) by (cbn; left).
  split; [exact Hr |]. split; [reflexivity |]. split; [reflexivity |].
  destruct (scheduleEventJobs_release_is_due 500 "ev-1" 1000 1200 r Hr)
    as [(Htype & _) | (_ & _ & _ & Hrun)]; [discriminate Htype |].
  apply (Hrun 3601200 st (Sample.event "ev-1" ApprovalStage.APPROVED)).
  - cbn. lia.
  - reflexivity.
  - reflexivity.
  - intros b Hb Hid. cbn in Hb.
    apply elem_of_cons in Hb as [-> | Hb]; [by eexists |].
    apply list_elem_of_singleton in Hb as ->. discriminate Hid.
Defined.

Lemma filter_all {A} (P : A → Prop) `{!∀ x, Decision (P x)} (l : list A) :
  Forall P l → filter P l = l.
Proof.
  induction 1 as [| x l Hx Hl IH]; [reflexivity |].
  rewrite filter_cons, decide_True by done. by rewrite IH.
Qed.

Lemma filter_none {A} (P : A → Prop) `{!∀ x, Decision (P x)} (l : list A) :
  Forall (λ x, ¬ P x) l → filter P l = [].
Proof.
  induction 1 as [| x l Hx Hl IH]; [reflexivity |].
  rewrite filter_cons, decide_False by done. exact IH.
Qed.

(** Taking the rows picked by [Q] out of a selection from a table to
    which only such rows were added gives the selection from the table
    as it was. *)
Lemma filter_released {A} (Q P : A → Prop)
    `{!∀ x, Decision (Q x), !∀ x, Decision (P x)} (old added : list A) :
  Forall (λ x, ¬ Q x) old → Forall Q added →
  filter (λ x, ¬ Q x) (filter P (old ++ added)) = filter P old.
Proof.
  intros Hold Hadded. rewrite !filter_app.
  rewrite (filter_all (λ x, ¬ Q x) (filter P old)).
  - rewrite (filter_none (λ x, ¬ Q x) (filter P added)); [by rewrite app_nil_r |].
    apply Forall_forall. intros x [_ Hx]%list_elem_of_filter.
    rewrite Forall_forall in Hadded. intros Hq. by apply Hq, Hadded.
  - apply Forall_forall. intros x [_ Hx]%list_elem_of_filter.
    rewrite Forall_forall in Hold. by apply Hold.
Qed.

(** X26.  Allocation and release, one after the other.  Take an event
    that has no booking yet, run [allocateEvent] for it, whatever the
    outcome, and, once the event has ended or is completed, the release
    job.  Then the allocation engine counts against any other event
    exactly the bookings it counted before the allocation: every venue
    and every quantity that the attempt had taken is available
    again. *)
Theorem allocateEvent_then_release (now : Z) (eventId : string) (event event1 : Event.t)
    (s : State.t) (available : gmap string Z) (log : list AuditLog.t) (other : Event.t) :
  let s1 := (allocateEvent eventId s).2 in
  let st := mkStore s1 available log in
  let s2 := base (processAutoResourceRelease now eventId st).2 in
  State.events s !! eventId = Some event →
  Event.id event = eventId →
  Forall (λ b, VenueBooking.eventId b ≠ eventId) (State.venueBookings s) →
  Forall (λ b, ResourceBooking.eventId b ≠ eventId) (State.resourceBookings s) →
  State.events s1 !! eventId = Some event1 →
  (Event.scheduleEnd event1 ≤ now)%Z ∨ Event.status event1 = EventStatus.COMPLETED →
  (∀ b, b ∈ State.resourceBookings s1 → ResourceBooking.eventId b = eventId →
        is_Some (available !! ResourceBooking.resourceId b)) →
  (∀ venue,
     conflictingVenueBookings s2 venue other = conflictingVenueBookings s venue other) ∧
  (∀ resourceId,
     overlappingResourceBookings s2 resourceId other
     = overlappingResourceBookings s resourceId other).
Proof.
  intros s1 st s2 Hev Hid Hvenue Hres Hev1 Hdue Hrows.
  destruct (allocateEvent_writes eventId event s Hev)
    as (_ & _ & _ & _ & _ & (va & Hva & Hva') & (ra & Hra & Hra') & _).
  fold s1 in Hva, Hra. rewrite Hid in Hva', Hra'.
  destruct (processAutoResourceRelease_due now eventId event1 st Hev1 Hdue Hrows)
    as (st' & Hrun & Hbase).
  assert (Hs2 : s2 = State.with_resourceBookings (fmap (cancelResourceBooking eventId))
                       (State.with_venueBookings (fmap (cancelVenueBooking eventId)) s1)).
  { subst s2. rewrite Hrun. exact Hbase. }
  rewrite Hs2. split.
  - intros venue. rewrite conflictingVenueBookings_cancelled.
    unfold conflictingVenueBookings. rewrite Hva.
    apply (filter_released (λ b, VenueBooking.eventId b = eventId)); [exact Hvenue |].
    eapply Forall_impl; [exact Hva' |]. by intros b [Hb _].
  - intros resourceId. rewrite overlappingResourceBookings_cancelled.
    unfold overlappingResourceBookings. rewrite Hra.
    apply (filter_released (λ b, ResourceBooking.eventId b = eventId)); [exact Hres |].
    eapply Forall_impl; [exact Hra' |]. by intros b [Hb _].
Qed.

Lemma allocateEvent_then_release_witness :
  let s := Sample.store ApprovalStage.HEAD_APPROVED [Sample.hall60] [Sample.wantMics]
             [SampleJobs.hallLater] [Sample.chairsBooked] in
  let available : gmap string Z := {[ "res-mics" := 2; "res-chairs" := 5 ]} in
  let s1 := (allocateEvent "ev-1" s).2 in
  let s2 := base (processAutoResourceRelease 5000 "ev-1" (mkStore s1 available [])).2 in
  State.events s !! "ev-1" = Some (Sample.event "ev-1" ApprovalStage.HEAD_APPROVED) ∧
  Forall (λ b, VenueBooking.eventId b ≠ "ev-1") (State.venueBookings s) ∧
  Forall (λ b, ResourceBooking.eventId b ≠ "ev-1") (State.resourceBookings s) ∧
  (Event.scheduleEnd <$> State.events s1 !! "ev-1") = Some 1200 ∧
  venueFree s SampleJobs.workshop Sample.hall60 ∧
  ¬ venueFree s1 SampleJobs.workshop Sample.hall60 ∧
  (∀ venue,
     conflictingVenueBookings s2 venue SampleJobs.workshop
     = conflictingVenueBookings s venue SampleJobs.workshop) ∧
  (∀ resourceId,
     overlappingResourceBookings s2 resourceId SampleJobs.workshop
     = overlappingResourceBookings s resourceId SampleJobs.workshop).
Proof.
  intros s available s1 s2.
  assert (Hvenue : Forall (λ b, VenueBooking.eventId b ≠ "ev-1") (State.venueBookings s))
    by (repeat constructor; discriminate).
  assert (Hres : Forall (λ b, ResourceBooking.eventId b ≠ "ev-1")
                   (State.resourceBookings s))
    by (repeat constructor; discriminate).
  split; [reflexivity |]. split; [exact Hvenue |]. split; [exact Hres |].
  split; [reflexivity |]. split; [reflexivity |]. split; [discriminate |].
  apply (allocateEvent_then_release 5000 "ev-1"
           (Sample.event "ev-1" ApprovalStage.HEAD_APPROVED)
           (Event.set_approvalStage ApprovalStage.APPROVED
              (Event.set_status EventStatus.APPROVED
                 (Sample.event "ev-1" ApprovalStage.HEAD_APPROVED)))
           s available [] SampleJobs.workshop);
    [reflexivity | reflexivity | exact Hvenue | exact Hres | reflexivity
    | left; discriminate |].
  intros b Hb Hid.
  change (b ∈ [Sample.chairsBooked;
               ResourceBooking.mk "res-mics" "ev-1" 2 1000 1200 "confirmed"]) in Hb.
  apply elem_of_cons in Hb as [-> | Hb]; [discriminate Hid |].
  apply list_elem_of_singleton in Hb as ->. by eexists.
Defined.

(** *** The life of a job *)

Section job_runs.
Context {World : Type}.
Variable handle : JobType.t → JobPayload.t → World → Outcome unit * World.

Lemma retryDelay_bounds (attempts : Z) :
  (0 ≤ attempts)%Z → (1000 ≤ retryDelay attempts)%Z ∧ (retryDelay attempts ≤ 300000)%Z.
Proof.
  intros Ha. unfold retryDelay.
  assert (0 < 2 ^ attempts) by (apply Z.pow_pos_nonneg; lia). lia.
Qed.

(** X27.  One run of a job.  [processJob] leaves an unknown job id alone.
    For a known job it runs the handler of the job type once and
    rewrites that row only: to Completed, with the error cleared and
    the completion time set, when the handler returns; when the handler
    throws, the attempts go up by one and the message is recorded, and
    the job is Failed if that was its last attempt, else Pending again
    and rescheduled between one second and five minutes later.  No run
    leaves the job Processing or Retrying. *)
Theorem processJob_outcome (now : Z) (jobId : string) (st : JobStore) :
  (jobs st !! jobId = None → processJob handle now jobId st = st) ∧
  (∀ job,
     jobs st !! jobId = Some job →
     (0 ≤ BackgroundJob.attempts job)%Z →
     ∃ job',
       processJob handle now jobId st =
         mkJobStore (<[jobId := job']> (jobs st))
           (handle (BackgroundJob.type job) (BackgroundJob.payload job) (world st)).2 ∧
       BackgroundJob.type job' = BackgroundJob.type job ∧
       BackgroundJob.payload job' = BackgroundJob.payload job ∧
       BackgroundJob.maxAttempts job' = BackgroundJob.maxAttempts job ∧
       match (handle (BackgroundJob.type job) (BackgroundJob.payload job) (world st)).1 with
       | Returned _ =>
           BackgroundJob.status job' = JobStatus.COMPLETED ∧
           BackgroundJob.attempts job' = BackgroundJob.attempts job ∧
           BackgroundJob.error job' = None ∧
           BackgroundJob.completedAt job' = Some now ∧
           BackgroundJob.scheduledFor job' = BackgroundJob.scheduledFor job
       | Threw errorMessage =>
           BackgroundJob.attempts job' = BackgroundJob.attempts job + 1 ∧
           BackgroundJob.error job' = Some errorMessage ∧
           BackgroundJob.completedAt job' = BackgroundJob.completedAt job ∧
           ((BackgroundJob.attempts job + 1 >= BackgroundJob.maxAttempts job ∧
             BackgroundJob.status job' = JobStatus.FAILED ∧
             BackgroundJob.scheduledFor job' = BackgroundJob.scheduledFor job) ∨
            (BackgroundJob.attempts job + 1 < BackgroundJob.maxAttempts job ∧
             BackgroundJob.status job' = JobStatus.PENDING ∧
             BackgroundJob.scheduledFor job'
               = now + Z.min (1000 * 2 ^ BackgroundJob.attempts job) 300000 ∧
             (now + 1000 ≤ BackgroundJob.scheduledFor job')%Z ∧
             (BackgroundJob.scheduledFor job' ≤ now + 300000)%Z))
       end).
Proof.
  unfold processJob. split.
  - intros Hjob. by rewrite Hjob.
  - intros job Hjob Ha. rewrite Hjob.
    destruct (handle (BackgroundJob.type job) (BackgroundJob.payload job) (world st))
      as [[[] | errorMessage] w]; cbn [fst snd].
    + eexists. split; [reflexivity |]. cbn. repeat split.
    + eexists. split; [reflexivity |].
      pose proof (retryDelay_bounds _ Ha) as [Hlo Hhi].
      destruct (decide (BackgroundJob.attempts job + 1 < BackgroundJob.maxAttempts job))
        as [Hleft | Hlast]; cbn.
      * do 6 (split; [reflexivity |]). right. fold (retryDelay (BackgroundJob.attempts job)).
        repeat split; lia.
      * do 6 (split; [reflexivity |]). left. rewrite decide_True by lia.
        repeat split; lia.
Qed.

Lemma processJob_step (now : Z) (jobId : string) (st : JobStore) (job : BackgroundJob.t) :
  jobs st !! jobId = Some job →
  jobBounded job →
  BackgroundJob.status job = JobStatus.PENDING →
  ∃ job',
    jobs (processJob handle now jobId st) = <[jobId := job']> (jobs st) ∧
    jobBounded job' ∧
    BackgroundJob.status job'
      ∈ [JobStatus.COMPLETED; JobStatus.FAILED; JobStatus.PENDING] ∧
    (BackgroundJob.attempts job ≤ BackgroundJob.attempts job')%Z ∧
    (BackgroundJob.attempts job' ≤ BackgroundJob.attempts job + 1)%Z.
Proof.
  intros Hjob (Hpos & Hmax & Hleft) Hpending. specialize (Hleft Hpending).
  unfold processJob. rewrite Hjob.
  destruct (handle (BackgroundJob.type job) (BackgroundJob.payload job) (world st))
    as [[[] | errorMessage] w].
  - eexists. split; [reflexivity |]. unfold jobBounded. cbn.
    split; [| split; [left | lia]]. repeat split; (lia || discriminate).
  - destruct (decide (BackgroundJob.attempts job + 1 < BackgroundJob.maxAttempts job))
      as [Hmore | Hlast].
    + eexists. split; [reflexivity |]. unfold jobBounded. cbn.
      split; [| split; [right; right; left | lia]]. repeat split; lia.
    + eexists. split; [reflexivity |]. unfold jobBounded. cbn.
      rewrite decide_True by lia.
      split; [| split; [right; left | lia]]. repeat split; (lia || discriminate).
Qed.

Lemma processJobs_fold (clock : string → Z) (l : list (string * BackgroundJob.t)) :
  ∀ st,
    NoDup l.*1 →
    (∀ k j, (k, j) ∈ l →
            jobs st !! k = Some j ∧ BackgroundJob.status j = JobStatus.PENDING) →
    map_Forall (λ _, jobBounded) (jobs st) →
    let st' := foldl (λ st j, processJob handle (clock j.1) j.1 st) st l in
    map_Forall (λ _, jobBounded) (jobs st') ∧
    (∀ k, k ∉ l.*1 → jobs st' !! k = jobs st !! k) ∧
    (∀ k j, (k, j) ∈ l →
            ∃ j', jobs st' !! k = Some j' ∧
                  BackgroundJob.status j'
                    ∈ [JobStatus.COMPLETED; JobStatus.FAILED; JobStatus.PENDING] ∧
                  (BackgroundJob.attempts j ≤ BackgroundJob.attempts j')%Z ∧
                  (BackgroundJob.attempts j' ≤ BackgroundJob.attempts j + 1)%Z).
Proof.
  induction l as [| [k j] rest IH]; intros st Hnd Hrows Hinv; cbn [foldl].
  - split; [exact Hinv |]. split; [done |]. intros k j Hin. by apply elem_of_nil in Hin.
  - rewrite fmap_cons in Hnd. apply NoDup_cons in Hnd as [Hk Hnd]. cbn [fst] in Hk.
    destruct (Hrows k j) as [Hjob Hpending]; [left |].
    destruct (processJob_step (clock k) k st j Hjob (Hinv k j Hjob) Hpending)
      as (j' & Hstep & Hbounded & Hstatus & Hlo & Hhi).
    cbn [fst].
    destruct (IH (processJob handle (clock k) k st) Hnd) as (Hinv' & Hother & Hrun).
    { intros k' j'' Hin. rewrite Hstep.
      assert (k' ≠ k).
      { intros ->. apply Hk. apply list_elem_of_fmap. by exists (k, j''). }
      rewrite lookup_insert_ne by done. apply Hrows. by right. }
    { rewrite Hstep. by apply map_Forall_insert_2. }
    split; [exact Hinv' |]. split.
    + intros k' Hk'. rewrite fmap_cons in Hk'. apply not_elem_of_cons in Hk' as [Hne Hk'].
      rewrite (Hother k' Hk'), Hstep. by rewrite lookup_insert_ne.
    + intros k' j'' [Heq | Hin]%elem_of_cons.
      * injection Heq as -> ->. exists j'.
        rewrite (Hother k Hk), Hstep, lookup_insert_eq. done.
      * by apply Hrun.
Qed.

(** X28.  A batch of pending jobs.  [processPendingJobs] runs only jobs
    that are Pending and due; every other job row is left as it was.  A
    job that it ran ends Completed, Failed or Pending again, with at
    most one attempt more.  If every job had used no more attempts than
    it has, and every pending one had an attempt left, the same holds
    after the batch: no job is attempted more often than its
    [maxAttempts]. *)
Theorem processPendingJobs_bounded (now : Z) (clock : string → Z) (st : JobStore) :
  map_Forall (λ _, jobBounded) (jobs st) →
  let st' := processPendingJobs handle now clock st in
  map_Forall (λ _, jobBounded) (jobs st') ∧
  (∀ id job,
     jobs st !! id = Some job →
     BackgroundJob.status job ≠ JobStatus.PENDING ∨ BackgroundJob.scheduledFor job > now →
     jobs st' !! id = Some job) ∧
  (∀ id job,
     jobs st !! id = Some job →
     ∃ job',
       jobs st' !! id = Some job' ∧
       (job' = job ∨
        BackgroundJob.status job = JobStatus.PENDING ∧
        (BackgroundJob.scheduledFor job ≤ now)%Z ∧
        BackgroundJob.status job'
          ∈ [JobStatus.COMPLETED; JobStatus.FAILED; JobStatus.PENDING] ∧
        (BackgroundJob.attempts job ≤ BackgroundJob.attempts job')%Z ∧
        (BackgroundJob.attempts job' ≤ BackgroundJob.attempts job + 1)%Z)).
Proof.
  intros Hinv st'. subst st'. unfold processPendingJobs.
  assert (Hin : ∀ k j, (k, j) ∈ pendingJobs now st →
                       jobs st !! k = Some j ∧
                       BackgroundJob.status j = JobStatus.PENDING ∧
                       (BackgroundJob.scheduledFor j ≤ now)%Z).
  { intros k j Hkj. unfold pendingJobs in Hkj.
    apply subseteq_take in Hkj. rewrite merge_sort_Permutation in Hkj.
    apply list_elem_of_filter in Hkj as [[Hst Hdue] Hkj].
    apply elem_of_map_to_list in Hkj. done. }
  assert (Hnd : NoDup (pendingJobs now st).*1).
  { unfold pendingJobs.
    match goal with
    | |- NoDup (take _ ?l).*1 =>
        apply (sublist_NoDup _ (l.*1)); [| apply fmap_sublist, sublist_take]
    end.
    rewrite merge_sort_Permutation.
    apply (sublist_NoDup _ ((map_to_list (jobs st)).*1));
      [apply NoDup_fst_map_to_list | apply fmap_sublist, sublist_filter]. }
  destruct (processJobs_fold clock (pendingJobs now st) st Hnd) as (Hinv' & Hother & Hrun);
    [intros k j Hkj; destruct (Hin k j Hkj) as (? & ? & ?); done | exact Hinv |].
  split; [exact Hinv' |]. split.
  - intros id job Hjob Hnot. rewrite Hother; [exact Hjob |].
    intros [[k j] [-> Hkj]]%list_elem_of_fmap. cbn in Hjob.
    destruct (Hin k j Hkj) as (Hj & Hst & Hdue).
    assert (j = job) as -> by congruence. destruct Hnot; [contradiction | lia].
  - intros id job Hjob.
    destruct (decide (id ∈ (pendingJobs now st).*1)) as [Hid | Hid].
    + apply list_elem_of_fmap in Hid as [[k j] [-> Hkj]]. cbn in Hjob.
      destruct (Hin k j Hkj) as (Hj & Hst & Hdue).
      assert (j = job) as -> by congruence.
      destruct (Hrun k job Hkj) as (job' & Hjob' & Hstatus & Hlo & Hhi).
      exists job'. split; [exact Hjob' |]. right. done.
    + exists job. split; [by rewrite Hother | by left].
Qed.

End job_runs.

Lemma processJob_outcome_witness :
  let st := SampleJobs.jobStore in
  jobs st !! "job-9" = None ∧
  jobs st !! "job-1" = Some SampleJobs.releaseJob ∧
  jobs st !! "job-2" = Some SampleJobs.cleanupJob ∧
  processJob SampleJobs.handle 5000 "job-9" st = st ∧
  (∃ job',
     jobs (processJob SampleJobs.handle 5000 "job-1" st) !! "job-1" = Some job' ∧
     BackgroundJob.status job' = JobStatus.COMPLETED ∧
     BackgroundJob.completedAt job' = Some 5000) ∧
  (∃ job',
     jobs (processJob SampleJobs.handle 5000 "job-2" st) !! "job-2" = Some job' ∧
     BackgroundJob.status job' = JobStatus.FAILED ∧
     BackgroundJob.attempts job' = 3 ∧
     BackgroundJob.error job' = Some "Database unavailable").
Proof.
  intros st. split; [reflexivity |]. split; [reflexivity |]. split; [reflexivity |].
  split; [| split].
  - apply (proj1 (processJob_outcome SampleJobs.handle 5000 "job-9" st)). reflexivity.
  - destruct (proj2 (processJob_outcome SampleJobs.handle 5000 "job-1" st)
                SampleJobs.releaseJob eq_refl)
      as (job' & Hrun & _ & _ & _ & Hcase); [discriminate |].
    exists job'. rewrite Hrun. cbn [jobs]. rewrite lookup_insert_eq.
    split; [reflexivity |]. vm_compute in Hcase. tauto.
  - destruct (proj2 (processJob_outcome SampleJobs.handle 5000 "job-2" st)
                SampleJobs.cleanupJob eq_refl)
      as (job' & Hrun & _ & _ & _ & Hcase); [discriminate |].
    exists job'. rewrite Hrun. cbn [jobs]. rewrite lookup_insert_eq.
    split; [reflexivity |].
    cbn in Hcase. destruct Hcase as (Hatt & Herr & _ & [(_ & Hst & _) | (Hlt & _)]).
    + done.
    + exfalso. cbn in Hlt. lia.
Defined.

Lemma processPendingJobs_bounded_witness :
  let st := SampleJobs.jobStore in
  let st' := processPendingJobs SampleJobs.handle 5000 (λ _, 5000) st in
  map_Forall (λ _, jobBounded) (jobs st) ∧
  map_Forall (λ _, jobBounded) (jobs st') ∧
  jobs st' !! "job-3" = Some SampleJobs.reminderJob ∧
  BackgroundJob.status <$> jobs st' !! "job-1" = Some JobStatus.COMPLETED ∧
  BackgroundJob.status <$> jobs st' !! "job-2" = Some JobStatus.FAILED.
Proof.
  intros st st'.
  assert (Hinv : map_Forall (λ _, jobBounded) (jobs st)).
  { intros k job Hjob. apply elem_of_map_to_list in Hjob.
    let l := eval vm_compute in (map_to_list (jobs st)) in
    change (map_to_list (jobs st)) with l in Hjob.
    repeat (apply elem_of_cons in Hjob as [Hjob | Hjob]);
      [injection Hjob as -> -> .. | by apply elem_of_nil in Hjob];
      unfold jobBounded; cbn; repeat split; lia. }
  split; [exact Hinv |].
  destruct (processPendingJobs_bounded SampleJobs.handle 5000 (λ _, 5000) st Hinv)
    as (Hinv' & Hkept & _).
  split; [exact Hinv' |]. split; [| split; reflexivity].
  apply Hkept; [reflexivity | right; cbn; lia].
Defined.

(** ** Rate limiting *)

(** X29.  The rate limit holds per window, whatever other clients do.
    Take a client whose entry counts [used] requests in a window that
    is open until [reset], and any run of requests, of this and of
    other clients, in which this client's requests come no later than
    [reset].  Then the requests of the client that are let through are
    as many as it makes, up to what is left of the hundred, and no
    more.  A request of the client after [reset] is let through and
    opens a new window of fifteen minutes. *)
Theorem rateLimit_window (client : string) (used reset : Z)
    (requests : list (Z * option string)) (rateLimitMap : gmap string RateLimit.Entry) :
  rateLimitMap !! client = Some (RateLimit.mkEntry used reset) →
  (∀ now ip, (now, ip) ∈ requests → RateLimit.clientIP ip = client → (now ≤ reset)%Z) →
  Z.of_nat (length (RateLimit.letThrough client requests
                      (RateLimit.serve requests rateLimitMap)))
  = Z.min (Z.of_nat (length (RateLimit.requestsOf client requests)))
          (Z.max 0 (RateLimit.maxRequests - used)) ∧
  (∀ now ip,
     RateLimit.clientIP ip = client → now > reset →
     RateLimit.limit now ip rateLimitMap
     = (true, <[client := RateLimit.mkEntry 1 (now + 900000)]> rateLimitMap)).
Proof.
  intros Hentry Hwindow. split.
  - revert used rateLimitMap Hentry Hwindow.
    induction requests as [| [now ip] rest IH]; intros used rateLimitMap Hentry Hwindow.
    { cbn. unfold RateLimit.maxRequests. lia. }
    cbn [RateLimit.serve]. unfold RateLimit.letThrough, RateLimit.requestsOf in *.
    cbn [zip zip_with]. rewrite !filter_cons. cbn [fst snd].
    destruct (decide (RateLimit.clientIP ip = client)) as [Hc | Hc].
    + assert (Hnow : (now ≤ reset)%Z) by (apply (Hwindow now ip); [left | exact Hc]).
      assert (Hstep : RateLimit.limit now ip rateLimitMap
                      = (negb (bool_decide (used + 1 > RateLimit.maxRequests)),
                         <[client := RateLimit.mkEntry (used + 1) reset]> rateLimitMap)).
      { unfold RateLimit.limit. rewrite Hc, Hentry. cbn.
        rewrite decide_False by lia. reflexivity. }
      rewrite Hstep. cbn [fst snd].
      specialize (IH (used + 1) (<[client := RateLimit.mkEntry (used + 1) reset]> rateLimitMap)
                    (lookup_insert_eq _ _ _)).
      assert (Hrest : ∀ now0 ip0, (now0, ip0) ∈ rest → RateLimit.clientIP ip0 = client →
                                  (now0 ≤ reset)%Z).
      { intros now0 ip0 Hin. apply Hwindow. by right. }
      specialize (IH Hrest). unfold RateLimit.maxRequests in *.
      case_bool_decide as Hover; cbn [negb].
      * rewrite decide_False by (intros [_ Hf]; discriminate Hf).
        cbn [length]. lia.
      * rewrite decide_True by done. cbn [length]. lia.
    + assert (Hother : (RateLimit.limit now ip rateLimitMap).2 !! client
                       = Some (RateLimit.mkEntry used reset)).
      { unfold RateLimit.limit.
        destruct (rateLimitMap !! RateLimit.clientIP ip) as [data |]; [case_decide |];
          cbn [snd]; rewrite lookup_insert_ne by done; exact Hentry. }
      rewrite decide_False by tauto.
      apply (IH used _ Hother). intros now0 ip0 Hin. apply Hwindow. by right.
  - intros now ip Hc Hlate. unfold RateLimit.limit. rewrite Hc, Hentry. cbn.
    rewrite decide_True by lia. reflexivity.
Qed.

Lemma rateLimit_window_witness :
  let rateLimitMap : gmap string RateLimit.Entry :=
    {[ "10.0.0.7" := RateLimit.mkEntry 98 5000 ]} in
  let requests :=
    [(1000, Some "10.0.0.7"); (1500, Some "10.0.0.8"); (2000, Some "10.0.0.7");
     (2500, Some "10.0.0.7"); (3000, None); (4000, Some "10.0.0.7")] in
  rateLimitMap !! "10.0.0.7" = Some (RateLimit.mkEntry 98 5000) ∧
  RateLimit.serve requests rateLimitMap = [true; true; true; false; true; false] ∧
  length (RateLimit.letThrough "10.0.0.7" requests (RateLimit.serve requests rateLimitMap))
    = 2%nat ∧
  RateLimit.limit 6000 (Some "10.0.0.7") rateLimitMap
    = (true, <["10.0.0.7" := RateLimit.mkEntry 1 906000]> rateLimitMap).
Proof.
  intros rateLimitMap requests. split; [reflexivity |]. split; [reflexivity |].
  destruct (rateLimit_window "10.0.0.7" 98 5000 requests rateLimitMap) as [Hcount Hnext].
  - reflexivity.
  - intros now ip Hin _. cbn in Hin.
    repeat (apply elem_of_cons in Hin as [Hin | Hin]);
      [injection Hin as -> _; lia .. | by apply elem_of_nil in Hin].
  - split.
    + apply Nat2Z.inj. rewrite Hcount. reflexivity.
    + apply Hnext; [reflexivity | lia].
Defined.

(** ** Reading notifications *)

(** X30.  Marking all as read, and the unread count.  [markAllAsRead]
    returns the number of notifications of the user that were unread,
    which is what [getUnreadCount] gave before; after it the unread
    count of the user is zero, the unread count of every other user is
    what it was, every notification keeps all its columns but [isRead],
    no other table is written, and a second call marks nothing. *)
Theorem markAllAsRead_clears (userId : string) (s : State.t) :
  ∃ n s',
    Inbox.markAllAsRead userId s = (Returned n, s') ∧
    Inbox.getUnreadCount userId s = (Returned n, s) ∧
    Inbox.getUnreadCount userId s' = (Returned 0%nat, s') ∧
    (∀ other, other ≠ userId →
       (Inbox.getUnreadCount other s').1 = (Inbox.getUnreadCount other s).1) ∧
    Forall2 (λ a b,
               b = Notification.mk (Notification.userId a) (Notification.eventId a)
                     (Notification.type a) (Notification.title a)
                     (Notification.message a) (Notification.data a)
                     (if decide (Notification.userId a = userId) then true
                      else Notification.isRead a))
            (State.notifications s) (State.notifications s') ∧
    s' = State.with_notifications (λ _, State.notifications s') s ∧
    Inbox.markAllAsRead userId s' = (Returned 0%nat, s').
Proof.
  set (mark := λ n, if decide (Inbox.unreadOf userId n) then Inbox.set_isRead n else n).
  assert (Hnone : ∀ l : list Notification.t,
            filter (Inbox.unreadOf userId) (mark <$> l) = []).
  { intros l.
    rewrite (filter_rewritten mark (Inbox.unreadOf userId) (Inbox.unreadOf userId)).
    - apply filter_none, Forall_forall. intros n _. tauto.
    - intros n Hn. subst mark. cbn. rewrite decide_True by done.
      intros [_ Hread]. discriminate Hread.
    - intros n Hn. subst mark. cbn. by rewrite decide_False. }
  assert (Hfix : ∀ l : list Notification.t, mark <$> (mark <$> l) = mark <$> l).
  { intros l. rewrite <- list_fmap_compose. apply list_fmap_ext. intros i n _.
    unfold compose, mark. destruct (decide (Inbox.unreadOf userId n)) as [Hn | Hn].
    - rewrite decide_False; [reflexivity |]. intros [_ Hread]. discriminate Hread.
    - by rewrite decide_False. }
  eexists _, _. split; [reflexivity |]. split; [reflexivity |].
  unfold Inbox.getUnreadCount, Inbox.markAllAsRead, bind, gets, modify, ret. cbn.
  fold mark. split; [by rewrite Hnone |]. split; [| split; [| split]].
  - intros other Hother. f_equal.
    rewrite (filter_rewritten mark (Inbox.unreadOf userId) (Inbox.unreadOf other)).
    + f_equal. apply list_filter_iff. intros n. unfold Inbox.unreadOf. split; [tauto |].
      intros [Hu Hr]. split; [| done]. intros [Hu' _]. congruence.
    + intros n Hn. subst mark. cbn. rewrite decide_True by done.
      intros [_ Hread]. discriminate Hread.
    + intros n Hn. subst mark. cbn. by rewrite decide_False.
  - apply Forall2_fmap_r, Forall2_same_length_lookup. split; [done |].
    intros i a b Ha Hb. assert (b = a) as -> by congruence.
    unfold compose, mark, Inbox.unreadOf, Inbox.set_isRead.
    destruct a as [u e ty ti m d r]. cbn.
    destruct (decide (u = userId)) as [-> | Hu].
    + destruct r; [rewrite decide_False by (intros [_ ?]; discriminate)
                  | rewrite decide_True by done]; reflexivity.
    + rewrite decide_False by tauto. reflexivity.
  - reflexivity.
  - rewrite Hnone. unfold State.with_notifications. cbn. by rewrite Hfix.
Qed.
